(** * Metadata canonicalization and relationship inference

  A shallow embedding of the schema scripts ([TestSchema.py],
  [data_dictionaries_schema.py], [run_prompt_generation.py]) and the
  properties of their normalizers, of the relationship discovery pass
  and of the model-output normalizer.

  Python [str] values are modelled by [string]; a character is read as
  the code point of the same number (0..255). *)

From Stdlib Require Import Ascii String Bool Arith Lia List.
From stdpp Require Import gmap strings list.
Import ListNotations.

Set Warnings "-register-all".

Local Open Scope stdpp_scope.

#[local] Arguments String.append !s1 s2 : simpl nomatch.

(** ** Python string primitives *)

Module Py.

Definition code (c : ascii) : nat := nat_of_ascii c.

Definition between (lo hi : nat) (c : ascii) : bool :=
  Nat.leb lo (code c) && Nat.leb (code c) hi.

(** [[A-Z]], [[a-z]] and [\d] of the [re] module. *)
Definition is_upper (c : ascii) : bool := between 65 90 c.
Definition is_lower (c : ascii) : bool := between 97 122 c.
Definition is_digit (c : ascii) : bool := between 48 57 c.

(** [str.isspace] on one character: the characters [str.strip] removes. *)
Definition is_space (c : ascii) : bool :=
  between 9 13 c || between 28 32 c || Nat.eqb (code c) 133 || Nat.eqb (code c) 160.

(** [str.lower] on one character: A-Z and the upper-case letters of the
    upper half of the table (all of 192..222 but the multiplication
    sign) move 32 places up. *)
Definition lower_char (c : ascii) : ascii :=
  if is_upper c || (between 192 222 c && negb (Nat.eqb (code c) 215))
  then ascii_of_nat (code c + 32)
  else c.

Fixpoint lower (s : string) : string :=
  match s with
  | EmptyString => EmptyString
  | String c r => String (lower_char c) (lower r)
  end.

(** [s.startswith(p)] *)
Fixpoint startswith (p s : string) : bool :=
  match p, s with
  | EmptyString, _ => true
  | String _ _, EmptyString => false
  | String a p', String b s' => Ascii.eqb a b && startswith p' s'
  end.

(** [p in s] *)
Fixpoint contains (p s : string) : bool :=
  startswith p s ||
  match s with
  | EmptyString => false
  | String _ r => contains p r
  end.

(** The scan of [str.replace] for a non-empty [old]: left to right, the
    next [skip] characters belong to an occurrence already replaced. *)
Fixpoint replace_from (old new : string) (skip : nat) (s : string) : string :=
  match s with
  | EmptyString => EmptyString
  | String c r =>
      match skip with
      | S k => replace_from old new k r
      | O =>
          if startswith old s
          then new +:+ replace_from old new (String.length old - 1) r
          else String c (replace_from old new 0 r)
      end
  end.

(** With an empty [old], [str.replace] puts [new] around every
    character. *)
Fixpoint interleave (new s : string) : string :=
  match s with
  | EmptyString => new
  | String c r => new +:+ String c (interleave new r)
  end.

(** [s.replace(old, new)] *)
Definition replace (old new s : string) : string :=
  match old with
  | EmptyString => interleave new s
  | String _ _ => replace_from old new 0 s
  end.

(** [s.split(sep)] for a one-character separator, as the segment being
    read and the segments after it. *)
Fixpoint split_from (sep : ascii) (s : string) : string * list string :=
  match s with
  | EmptyString => (EmptyString, [])
  | String c r =>
      let '(seg, segs) := split_from sep r in
      if Ascii.eqb c sep then (EmptyString, seg :: segs)
      else (String c seg, segs)
  end.

Definition split (sep : ascii) (s : string) : list string :=
  let '(seg, segs) := split_from sep s in seg :: segs.

(** [sep.join(parts)] *)
Fixpoint join (sep : string) (parts : list string) : string :=
  match parts with
  | [] => EmptyString
  | [p] => p
  | p :: ps => p +:+ sep +:+ join sep ps
  end.

(** [parts[-1]] and [parts[:-1]] of a list that [split] returned. *)
Definition last_part (parts : list string) : string := List.last parts EmptyString.
Definition but_last (parts : list string) : list string := List.removelast parts.

Fixpoint lstrip (s : string) : string :=
  match s with
  | EmptyString => EmptyString
  | String c r => if is_space c then lstrip r else s
  end.

Fixpoint rstrip (s : string) : string :=
  match s with
  | EmptyString => EmptyString
  | String c r =>
      match rstrip r with
      | EmptyString => if is_space c then EmptyString else String c EmptyString
      | r' => String c r'
      end
  end.

(** [s.strip()] *)
Definition strip (s : string) : string := rstrip (lstrip s).

(** [for x in xs: if p(x): return x] *)
Definition first_match {A} (p : A -> bool) (xs : list A) : option A := List.find p xs.

(** *** Predicates on strings, for the statements below *)

(** Every character of [s] satisfies [P]. *)
Fixpoint all_chars (P : ascii -> bool) (s : string) : bool :=
  match s with
  | EmptyString => true
  | String c r => P c && all_chars P r
  end.

(** [c] is left alone by [str.lower]. *)
Definition lowered (c : ascii) : bool := Ascii.eqb (lower_char c) c.

(** [c] is not the character [x]. *)
Definition is_not (x c : ascii) : bool := negb (Ascii.eqb x c).

End Py.

(** ** TestSchema.py: the literal fixture and the curated relationships *)

Module TestSchema.
Import Py.

Record ColumnSchema := {
  name : string;
  data_type : string;
  description : string
}.

Record TableSchema := {
  table_name : string;
  physical_name : string;
  table_type : string;
  domain : string;
  columns : list ColumnSchema;
  t_description : string
}.

Record RelationshipSchema := {
  source_table : string;
  source_column : string;
  target_table : string;
  target_column : string;
  relationship_type : string;
  r_description : string
}.

Record MetadataSchema := {
  md_tables : list TableSchema;
  md_relationships : list RelationshipSchema
}.

(** An entry of [raw_metadata] and one of its column descriptors. *)
Record RawColumn := { raw_name : string; raw_type : string }.
Record RawTable := { raw_table_name : string; raw_columns : list RawColumn }.

Definition col (n t : string) : RawColumn := {| raw_name := n; raw_type := t |}.

Definition raw_metadata : list RawTable :=
  [ {| raw_table_name := "foundation.financial.ledger_lines_enriched_v1";
       raw_columns := [ col "ledger_line_id" "bigint"; col "account_id" "varchar";
                        col "transaction_id" "varchar"; col "entry_date" "timestamp";
                        col "amount" "decimal" ] |};
    {| raw_table_name := "foundation.financial.deposits_v4";
       raw_columns := [ col "deposit_id" "bigint"; col "user_id" "varchar";
                        col "amount" "decimal"; col "method" "varchar";
                        col "deposit_date" "timestamp" ] |};
    {| raw_table_name := "foundation.financial.deposits_enriched_v1";
       raw_columns := [ col "deposit_id" "bigint"; col "user_id" "varchar";
                        col "amount" "decimal"; col "transaction_id" "varchar";
                        col "status" "varchar" ] |};
    {| raw_table_name := "foundation.financial.withdrawals_v4";
       raw_columns := [ col "withdrawal_id" "bigint"; col "user_id" "varchar";
                        col "amount" "decimal"; col "withdrawal_date" "timestamp";
                        col "method" "varchar" ] |};
    {| raw_table_name := "foundation.financial.withdrawals_enriched_v4";
       raw_columns := [ col "withdrawal_id" "bigint"; col "user_id" "varchar";
                        col "amount" "decimal"; col "status" "varchar";
                        col "transaction_id" "varchar" ] |};
    {| raw_table_name := "foundation.financial.ledger_account_balances_v1";
       raw_columns := [ col "account_id" "varchar"; col "user_id" "varchar";
                        col "balance" "decimal"; col "as_of_date" "date";
                        col "currency" "varchar" ] |};
    {| raw_table_name := "foundation.financial.worldpay_transactions";
       raw_columns := [ col "transaction_id" "varchar"; col "transaction_type" "varchar";
                        col "amount" "decimal"; col "status" "varchar";
                        col "user_id" "varchar" ] |};
    {| raw_table_name := "foundation.account.authgateway_session_created_events";
       raw_columns := [ col "session_id" "varchar"; col "user_id" "varchar";
                        col "success" "varchar"; col "device_type" "varchar";
                        col "created_at" "timestamp" ] |};
    {| raw_table_name := "foundation.account.verification_attempt_v1";
       raw_columns := [ col "attempt_id" "varchar"; col "user_id" "varchar";
                        col "verification_type" "varchar"; col "result" "varchar";
                        col "attempted_at" "timestamp" ] |};
    {| raw_table_name := "foundation.account.verified_user_details";
       raw_columns := [ col "user_id" "varchar"; col "verification_level" "varchar";
                        col "verified_date" "timestamp"; col "country" "varchar";
                        col "active" "varchar" ] |} ].

Definition get_table_type (table_name : string) : string :=
  if contains "_enriched" (lower table_name) then "ENRICHED" else "RAW".

(** [re.sub(r'_v\d+', '', s)]: the scan is either inside the digits of
    an occurrence it is deleting or looking for the next [_v<digit>]. *)
Fixpoint sub_version (in_digits : bool) (s : string) : string :=
  match s with
  | EmptyString => EmptyString
  | String c r =>
      if in_digits && is_digit c then sub_version true r
      else if Ascii.eqb c "_" then
        match r with
        | String v (String d r') =>
            if Ascii.eqb v "v" && is_digit d then sub_version true r'
            else String c (sub_version false r)
        | _ => String c (sub_version false r)
        end
      else String c (sub_version false r)
  end.

Definition normalize_table_name (table_name : string) : string :=
  let name := lower table_name in
  let name := sub_version false name in
  let name := replace "_enriched" "" name in
  let name := replace "." "_" name in
  name.

(** [re.sub('(.)([A-Z][a-z]+)', r'\1_\2', s)]: [in_word] holds while the
    scan copies the lower-case run of the occurrence it is in. *)
Fixpoint sub_camel_word (in_word : bool) (s : string) : string :=
  match s with
  | EmptyString => EmptyString
  | String c r =>
      if in_word && is_lower c then String c (sub_camel_word true r)
      else
        match r with
        | String u (String l r') =>
            if negb (Ascii.eqb c "010") && is_upper u && is_lower l
            then String c (String "_" (String u (String l (sub_camel_word true r'))))
            else String c (sub_camel_word false r)
        | _ => String c (sub_camel_word false r)
        end
  end.

(** [re.sub('([a-z0-9])([A-Z])', r'\1_\2', s)] *)
Fixpoint sub_camel_boundary (s : string) : string :=
  match s with
  | EmptyString => EmptyString
  | String c r =>
      match r with
      | String u r' =>
          if (is_lower c || is_digit c) && is_upper u
          then String c (String "_" (String u (sub_camel_boundary r')))
          else String c (sub_camel_boundary r)
      | EmptyString => String c EmptyString
      end
  end.

(** [re.sub(r'__+', '_', s)] *)
Fixpoint sub_underscores (in_run : bool) (s : string) : string :=
  match s with
  | EmptyString => EmptyString
  | String c r =>
      if in_run && Ascii.eqb c "_" then sub_underscores true r
      else
        match r with
        | String c2 r' =>
            if Ascii.eqb c "_" && Ascii.eqb c2 "_"
            then String "_" (sub_underscores true r')
            else String c (sub_underscores false r)
        | EmptyString => String c EmptyString
        end
  end.

Definition normalize_column_name (column_name : string) : string :=
  let name := strip column_name in
  let s1 := sub_camel_word false name in
  let s2 := sub_camel_boundary s1 in
  let name := lower s2 in
  let name := sub_underscores false name in
  name.

Definition mapping : gmap string string :=
  list_to_map [ ("bigint", "integer"); ("int", "integer"); ("varchar", "string");
                ("decimal", "decimal"); ("timestamp", "datetime"); ("date", "date") ].

Definition normalize_data_type (data_type : string) : string :=
  default "string" (mapping !! lower data_type).

Definition assign_domain (table_name : string) : string :=
  if contains "financial" (lower table_name) then "Finance"
  else if contains "account" (lower table_name) then "Account"
  else "General".

(** The body of the loop of step 3, for one entry of [raw_metadata]. *)
Definition table_object (table : RawTable) : TableSchema :=
  let phys_name := raw_table_name table in
  let norm_name := normalize_table_name phys_name in
  let t_type := get_table_type phys_name in
  let columns :=
    map (fun c => {| name := normalize_column_name (raw_name c);
                     data_type := normalize_data_type (raw_type c);
                     description := "" |})
        (raw_columns table) in
  {| table_name := norm_name;
     physical_name := phys_name;
     table_type := t_type;
     domain := assign_domain phys_name;
     columns := columns;
     t_description :=
       "This is the " +:+ t_type +:+ " version of the " +:+ norm_name +:+ " concept." |}.

Definition table_objects : list TableSchema := map table_object raw_metadata.

Definition rel (st sc tt tc ty d : string) : RelationshipSchema :=
  {| source_table := st; source_column := sc; target_table := tt;
     target_column := tc; relationship_type := ty; r_description := d |}.

Definition relationships : list RelationshipSchema :=
  [ rel "foundation_financial_deposits" "account_id"
        "foundation_account_verified_user_details" "user_id" "belongs_to"
        "Deposits are made into accounts owned by verified users.";
    rel "foundation_financial_withdrawals" "account_id"
        "foundation_account_verified_user_details" "user_id" "belongs_to"
        "Withdrawals are performed by users associated with accounts.";
    rel "foundation_financial_ledger_account_balances" "account_id"
        "foundation_account_verified_user_details" "user_id" "account_owner"
        "Ledger account balances correspond to verified users.";
    rel "foundation_account_authgateway_session_created_events" "user_id"
        "foundation_account_verified_user_details" "user_id" "session_of"
        "Authentication sessions belong to verified users.";
    rel "foundation_account_verification_attempt" "user_id"
        "foundation_account_verified_user_details" "user_id" "verification_event"
        "Verification attempts relate to user identity validation.";
    rel "foundation_financial_worldpay_transactions" "account_id"
        "foundation_account_verified_user_details" "user_id" "payment_transaction"
        "Worldpay transactions originate from user-linked accounts." ].

Definition metadata_model : MetadataSchema :=
  {| md_tables := table_objects; md_relationships := relationships |}.

(** *** Predicates on names, for the statements below *)

(** An occurrence of [_v<digit>] starts at the head of [s]. *)
Definition version_at (s : string) : bool :=
  match s with
  | String c (String v (String d _)) => Ascii.eqb c "_" && Ascii.eqb v "v" && is_digit d
  | _ => false
  end.

(** [_v<digit>] occurs in [s]. *)
Fixpoint has_version (s : string) : bool :=
  version_at s ||
  match s with
  | EmptyString => false
  | String _ r => has_version r
  end.

(** [id] is the name of a table of the model [m]; [id] is the name of a
    column of some table of [m]. *)
Definition known_table (m : MetadataSchema) (id : string) : bool :=
  existsb (fun t => String.eqb (table_name t) id) (md_tables m).

Definition known_column (m : MetadataSchema) (id : string) : bool :=
  existsb (fun t => existsb (fun c => String.eqb (name c) id)
                            (columns t))
          (md_tables m).

(** The column [id] is a column of a table named [table_id]. *)
Definition owned_column (m : MetadataSchema) (table_id id : string) : bool :=
  existsb (fun t => String.eqb (table_name t) table_id
                    && existsb (fun c => String.eqb (name c) id)
                               (columns t))
          (md_tables m).

(** The version suffixes of a physical name: none, or [_v<digits>]. *)
Inductive version_suffix : string -> Prop :=
| unversioned : version_suffix ""
| versioned d ds :
    is_digit d = true -> all_chars is_digit ds = true ->
    version_suffix (String "_" (String "v" (String d ds))).

(** The enriched markers of a physical name: none, or [_enriched]. *)
Inductive enriched_marker : string -> Prop :=
| unmarked : enriched_marker ""
| marked : enriched_marker "_enriched".

End TestSchema.


(** ** data_dictionaries_schema.py: the row-export ingestion path *)

Module DataDictionaries.
Import Py.

(** The dataclass instances are objects: [discover_relationships]
    assigns to an attribute of a column that the caller still holds, and
    nothing keeps two tables from holding the same column object. A
    table therefore lists the addresses of its columns, and the store
    gives the state of every object. *)
Abbreviation loc := nat (only parsing).

Record ColumnSchema := {
  name : string;
  data_type : string;
  canonical_id : string;
  is_primary_key : bool;
  is_foreign_key : bool;
  description : string
}.

(** [t_description] holds whatever the [description] cell of the table's
    row held: a string, or [None] for a missing value (NaN). *)
Record TableSchema := {
  table_name : string;
  physical_name : string;
  table_type : string;
  domain : string;
  columns : list loc;
  t_canonical_id : string;
  t_description : option string
}.

Record RelationshipSchema := {
  source_table : string;
  source_column : string;
  target_table : string;
  target_column : string;
  relationship_type : string;
  r_description : string
}.

Record MetadataSchema := {
  md_tables : list loc;
  md_relationships : list RelationshipSchema
}.

Record Store := {
  cols : loc -> ColumnSchema;
  tabs : loc -> TableSchema
}.

Definition TARGET_TABLES : list string :=
  [ "deposits"; "deposits_enriched"; "ledger_account_balances_v1";
    "ledger_lines_enriched"; "verification_attempt";
    "verified_user_details"; "withdrawals"; "worldpay_transactions" ].

(** The double-quote character, as a string. *)
Definition quote_char : ascii := ascii_of_nat 34.
Definition quote : string := String quote_char EmptyString.

(** The last segment of a dotted name, when it has a dot. *)
Definition unqualified (name : string) : string :=
  if contains "." name then last_part (split "." name) else name.

Definition normalize_table_name (phys_name : string) : string :=
  let name := replace quote "" (lower phys_name) in
  let name := unqualified name in
  match first_match (fun target => contains target name) TARGET_TABLES with
  | Some target => replace "_enriched" "" (replace "_v1" "" target)
  | None => replace "." "_" name
  end.

Definition normalize_column_name (column_name : string) : string :=
  lower (strip column_name).

Definition mapping : gmap string string :=
  list_to_map [ ("bigint", "integer"); ("int", "integer");
                ("varchar", "string"); ("decimal", "decimal") ].

(** [data_type] is the cell already turned into text by [str]. *)
Definition normalize_data_type (data_type : string) : string :=
  default "string" (mapping !! lower data_type).

(** *** Relationship discovery *)

(** [col.is_foreign_key = True] *)
Definition flag_foreign_key (c : ColumnSchema) : ColumnSchema :=
  {| name := name c; data_type := data_type c; canonical_id := canonical_id c;
     is_primary_key := is_primary_key c; is_foreign_key := true;
     description := description c |}.

Definition set_foreign_key (col : loc) (s : Store) : Store :=
  {| cols := fun l => if Nat.eqb l col then flag_foreign_key (cols s col) else cols s l;
     tabs := tabs s |}.

(** Computed at the head of the function and not used after. *)
Definition master_table_ids (tables : list loc) (s : Store) : list string :=
  map (fun t => t_canonical_id (tabs s t))
      (filter (fun t => contains "user" (t_canonical_id (tabs s t))
                        || contains "details" (t_canonical_id (tabs s t)))
              tables).

Definition RunState : Type := Store * list RelationshipSchema.

(** The body of [for target_col in target_table.columns]. *)
Definition visit_target_col (source_table col target_table : loc)
    (st : RunState) (target_col : loc) : RunState :=
  let '(s, relationships) := st in
  if String.eqb (name (cols s col)) (name (cols s target_col))
     && contains "id" (name (cols s col))
  then
    let s' := set_foreign_key col s in
    (s', relationships ++
         [ {| source_table := t_canonical_id (tabs s' source_table);
              source_column := canonical_id (cols s' col);
              target_table := t_canonical_id (tabs s' target_table);
              target_column := canonical_id (cols s' target_col);
              relationship_type := "linked_by_id";
              r_description := "Auto-detected link via " +:+ name (cols s' col) |} ])
  else st.

(** The body of [for target_table in tables]. *)
Definition visit_target (source_table col : loc)
    (st : RunState) (target_table : loc) : RunState :=
  if String.eqb (t_canonical_id (tabs (fst st) source_table))
                (t_canonical_id (tabs (fst st) target_table))
  then st
  else fold_left (visit_target_col source_table col target_table)
                 (columns (tabs (fst st) target_table)) st.

(** The body of [for col in source_table.columns]. *)
Definition visit_col (tables : list loc) (source_table : loc)
    (st : RunState) (col : loc) : RunState :=
  fold_left (visit_target source_table col) tables st.

(** The body of [for source_table in tables]. *)
Definition visit_source (tables : list loc) (st : RunState) (source_table : loc) : RunState :=
  fold_left (visit_col tables source_table)
            (columns (tabs (fst st) source_table)) st.

(** The store after the call and the list it returns. *)
Definition discover_relationships (tables : list loc) (s : Store) : RunState :=
  fold_left (visit_source tables) tables (s, []).

(** *** Processing engine *)

(** A row of a data-dictionary export, each cell as the function reads
    it: [key], the properties and the data type through [str], the
    description as it is ([None] for a missing value). *)
Record Row := {
  key : string;
  al_datadict_item_properties : string;
  al_datadict_item_column_data_type : string;
  row_description : option string
}.

(** An entry of [all_tables]: [{"phys": .., "cols": [..], "desc": ..}]. *)
Record Entry := {
  phys : string;
  e_cols : list loc;
  desc : option string
}.

(** [all_tables] keeps its keys in the order they were first set. *)
Definition Entries : Type := list (string * Entry).

Fixpoint has_key (k : string) (d : Entries) : bool :=
  match d with
  | [] => false
  | (k', _) :: d' => String.eqb k k' || has_key k d'
  end.

Fixpoint update (k : string) (f : Entry -> Entry) (d : Entries) : Entries :=
  match d with
  | [] => []
  | (k', e) :: d' => if String.eqb k k' then (k', f e) :: d' else (k', e) :: update k f d'
  end.

(** The [ColumnSchema(...)] call of the row loop. *)
Definition new_column (norm_table : string) (row : Row) : ColumnSchema :=
  let col_raw := last_part (split "." (key row)) in
  let col_name := normalize_column_name col_raw in
  {| name := col_name;
     data_type := normalize_data_type (al_datadict_item_column_data_type row);
     canonical_id := norm_table +:+ "." +:+ col_name;
     is_primary_key := contains "id" col_name && contains norm_table col_name;
     is_foreign_key := false;
     description := default "" (row_description row) |}.

(** What the row loop has built: the objects made so far, the next free
    column address, and [all_tables]. *)
Record Ingest := {
  store : Store;
  next_col : loc;
  all_tables : Entries
}.

Definition put_col (l : loc) (c : ColumnSchema) (s : Store) : Store :=
  {| cols := fun l' => if Nat.eqb l' l then c else cols s l'; tabs := tabs s |}.

Definition put_tab (l : loc) (t : TableSchema) (s : Store) : Store :=
  {| cols := cols s; tabs := fun l' => if Nat.eqb l' l then t else tabs s l' |}.

(** The body of [for _, row in df.iterrows()]. *)
Definition process_row (g : Ingest) (row : Row) : Ingest :=
  if String.eqb (key row) "" || negb (contains "." (key row)) then g
  else
    let phys_table := join "." (but_last (split "." (key row))) in
    let norm_table := normalize_table_name phys_table in
    let tables :=
      if has_key norm_table (all_tables g) then all_tables g
      else all_tables g ++ [(norm_table, {| phys := phys_table; e_cols := []; desc := Some "" |})] in
    if contains "otype=table" (al_datadict_item_properties row)
    then
      {| store := store g; next_col := next_col g;
         all_tables :=
           update norm_table
             (fun e => {| phys := phys e; e_cols := e_cols e; desc := row_description row |})
             tables |}
    else
      {| store := put_col (next_col g) (new_column norm_table row) (store g);
         next_col := S (next_col g);
         all_tables :=
           update norm_table
             (fun e => {| phys := phys e; e_cols := e_cols e ++ [next_col g]; desc := desc e |})
             tables |}.

(** The [TableSchema(...)] call of the conversion loop. *)
Definition new_table (name : string) (data : Entry) : TableSchema :=
  {| table_name := name;
     physical_name := phys data;
     table_type := if contains "enriched" (phys data) then "ENRICHED" else "RAW";
     domain := if contains "financial" (phys data) then "Finance" else "Account";
     columns := e_cols data;
     t_canonical_id := name;
     t_description := desc data |}.

(** The conversion loop: the [i]-th table object is made at address [i]. *)
Fixpoint convert (i : loc) (d : Entries) (s : Store) : Store * list loc :=
  match d with
  | [] => (s, [])
  | (name, data) :: d' =>
      let '(s', table_objects) := convert (S i) d' (put_tab i (new_table name data) s) in
      (s', i :: table_objects)
  end.

Definition blank_column : ColumnSchema :=
  {| name := ""; data_type := ""; canonical_id := ""; is_primary_key := false;
     is_foreign_key := false; description := "" |}.

Definition blank_table : TableSchema :=
  {| table_name := ""; physical_name := ""; table_type := ""; domain := "";
     columns := []; t_canonical_id := ""; t_description := None |}.

(** No object made yet. *)
Definition empty_store : Store :=
  {| cols := fun _ => blank_column; tabs := fun _ => blank_table |}.

(** [files] are the exports [glob] found, each as the rows [read_csv]
    gave. The result is the returned [MetadataSchema] and the objects it
    refers to. *)
Definition process_csv_files (files : list (list Row)) : Store * MetadataSchema :=
  let g := fold_left (fun g file => fold_left process_row file g) files
             {| store := empty_store; next_col := 0; all_tables := [] |} in
  let '(s, table_objects) := convert 0 (all_tables g) (store g) in
  let '(s', rels) := discover_relationships table_objects s in
  (s', {| md_tables := table_objects; md_relationships := rels |}).

(** What [asdict] writes for a table: its fields and its columns' fields. *)
Definition table_columns (s : Store) (t : loc) : list ColumnSchema :=
  map (cols s) (columns (tabs s t)).

(** *** Notions for the statements below *)

(** The name the target tables are looked up in: lower case, without
    quotes, its last dotted segment. *)
Definition bare_name (phys_name : string) : string :=
  unqualified (replace quote "" (lower phys_name)).

(** The test of the innermost loop. *)
Definition matches (s : Store) (col target_col : loc) : bool :=
  String.eqb (name (cols s col)) (name (cols s target_col))
  && contains "id" (name (cols s col)).

(** The edge the innermost loop appends on a match. *)
Definition link (s : Store) (source_table col target_table target_col : loc)
    : RelationshipSchema :=
  {| source_table := t_canonical_id (tabs s source_table);
     source_column := canonical_id (cols s col);
     target_table := t_canonical_id (tabs s target_table);
     target_column := canonical_id (cols s target_col);
     relationship_type := "linked_by_id";
     r_description := "Auto-detected link via " +:+ name (cols s col) |}.

(** A match: the column flagged and the edge appended. *)
Definition Hit : Type := loc * RelationshipSchema.

(** The matches of each loop, in the order the loop meets them, read off
    the store the call starts from. *)
Definition trace_target_col (s : Store) (source_table col target_table target_col : loc)
    : list Hit :=
  if matches s col target_col
  then [(col, link s source_table col target_table target_col)]
  else [].

Definition trace_target (s : Store) (source_table col target_table : loc) : list Hit :=
  if String.eqb (t_canonical_id (tabs s source_table))
                (t_canonical_id (tabs s target_table))
  then []
  else flat_map (trace_target_col s source_table col target_table)
                (columns (tabs s target_table)).

Definition trace_col (s : Store) (tables : list loc) (source_table col : loc) : list Hit :=
  flat_map (trace_target s source_table col) tables.

Definition trace_source (s : Store) (tables : list loc) (source_table : loc) : list Hit :=
  flat_map (trace_col s tables source_table) (columns (tabs s source_table)).

Definition trace (s : Store) (tables : list loc) : list Hit :=
  flat_map (trace_source s tables) tables.

(** [col] of [source_table] and [target_col] of [target_table] are a
    pair the scan links: two tables of the input with different
    canonical ids, two columns of the same name, a name with [id] in it. *)
Definition Linked (s : Store) (tables : list loc)
    (source_table col target_table target_col : loc) : Prop :=
  In source_table tables /\ In col (columns (tabs s source_table)) /\
  In target_table tables /\ In target_col (columns (tabs s target_table)) /\
  t_canonical_id (tabs s source_table) <> t_canonical_id (tabs s target_table) /\
  name (cols s col) = name (cols s target_col) /\
  contains "id" (name (cols s col)) = true.

(** [s] has the tables of [s0], and its columns have the names and the
    canonical ids they have in [s0]. *)
Definition same_keys (s0 s : Store) : Prop :=
  (forall t, tabs s t = tabs s0 t) /\
  (forall l, name (cols s l) = name (cols s0 l) /\
             canonical_id (cols s l) = canonical_id (cols s0 l)).

(** [s'] is [s] with the columns at [hits] flagged as foreign keys. *)
Definition flagged (hits : list loc) (s s' : Store) : Prop :=
  (forall t, tabs s' t = tabs s t) /\
  (forall l, cols s' l =
             if existsb (Nat.eqb l) hits then flag_foreign_key (cols s l) else cols s l).

(** The primary-key flag of [c] is what the heuristic gives for a column
    of the table [table_id]. *)
Definition key_flag_of (table_id : string) (c : ColumnSchema) : Prop :=
  is_primary_key c = contains "id" (name c) && contains table_id (name c).

(** A row for the column [key], of type [varchar], with no description. *)
Definition column_row (key : string) : Row :=
  {| key := key; al_datadict_item_properties := "otype=column";
     al_datadict_item_column_data_type := "varchar"; row_description := None |}.

(** A loop body [f] does, from any store that kept the keys of [s0],
    what its trace [tr] says: it appends the edges and flags the columns. *)
Definition runs_as (s0 : Store) {A} (f : RunState -> A -> RunState) (tr : A -> list Hit) : Prop :=
  forall st x,
    same_keys s0 (fst st) ->
    snd (f st x) = snd st ++ map snd (tr x) /\
    flagged (map fst (tr x)) (fst st) (fst (f st x)).

(** What the row loop keeps true: every column listed in [all_tables] was
    made before [next_col] and carries the key flag of its table. *)
Definition ingested (g : Ingest) : Prop :=
  forall k e, In (k, e) (all_tables g) ->
  forall l, In l (e_cols e) -> l < next_col g /\ key_flag_of k (cols (store g) l).

(** The names and the primary-key flags of the columns of the first table
    of the graph built from [files]. *)
Definition first_table_keys (files : list (list Row)) : string * list (string * bool) :=
  let '(s, g) := process_csv_files files in
  match md_tables g with
  | [] => ("", [])
  | t :: _ =>
      (t_canonical_id (tabs s t),
       map (fun l => (name (cols s l), is_primary_key (cols s l))) (columns (tabs s t)))
  end.

(** The physical name, the type and the domain of the first table of the
    graph built from [files]. *)
Definition first_table_class (files : list (list Row)) : string * string * string :=
  let '(s, g) := process_csv_files files in
  match md_tables g with
  | [] => ("", "", "")
  | t :: _ => (physical_name (tabs s t), table_type (tabs s t), domain (tabs s t))
  end.

(** *** Two small inputs *)

Definition column (table_id col_name : string) : ColumnSchema :=
  {| name := col_name; data_type := "string";
     canonical_id := table_id +:+ "." +:+ col_name;
     is_primary_key := false; is_foreign_key := false; description := "" |}.

Definition table (id phys type : string) (cs : list loc) : TableSchema :=
  {| table_name := id; physical_name := phys; table_type := type;
     domain := "Finance"; columns := cs; t_canonical_id := id;
     t_description := Some "" |}.

(** [deposits: [user_id, amount]] and
    [verified_user_details: [user_id, country]]. *)
Definition two_tables : Store :=
  put_tab 0 (table "deposits" "foundation.financial.deposits_v4" "RAW" [0; 1])
    (put_tab 1 (table "verified_user_details"
                      "foundation.account.verified_user_details" "RAW" [2; 3])
       (put_col 0 (column "deposits" "user_id")
          (put_col 1 (column "deposits" "amount")
             (put_col 2 (column "verified_user_details" "user_id")
                (put_col 3 (column "verified_user_details" "country")
                   empty_store))))).

(** The raw and the enriched deposits table, under the canonical id they
    share, each with a [user_id]. *)
Definition two_variants : Store :=
  put_tab 0 (table "deposits" "foundation.financial.deposits_v4" "RAW" [0])
    (put_tab 1 (table "deposits" "foundation.financial.deposits_enriched_v1"
                      "ENRICHED" [1])
       (put_col 0 (column "deposits" "user_id")
          (put_col 1 (column "deposits" "user_id") empty_store))).

End DataDictionaries.


(** ** run_prompt_generation.py: the model-output contract *)

Module RunPromptGeneration.
Import Py.

(** What [json.loads] returns. A float is kept as its text. *)
Inductive value :=
| VNone
| VBool (b : bool)
| VInt (n : Z)
| VFloat (text : string)
| VStr (s : string)
| VList (items : list value)
| VDict (items : list (string * value)).

Inductive result (A : Type) :=
| Return (a : A)
| RuntimeError (message : string).
Arguments Return {A} a.
Arguments RuntimeError {A} message.

Definition normalize_table_name (name : string) : string :=
  replace "." "_" (lower (strip name)).

Definition key_map : list (string * list string) :=
  [ ("governance_doc_markdown",
     ["governance_doc_markdown"; "governance_markdown"; "governanceDocMarkdown"]);
    ("delta_ontology_ttl",
     ["delta_ontology_ttl"; "delta_ontology"; "deltaOntologyTtl"; "delta_ttl";
      "deltaOntologyTTL"]);
    ("new_terms", ["new_terms"; "newTerms"; "added_terms"; "addedTerms"]) ].

(** [not str(v).strip()]: the text of [None], of a boolean, of a number,
    of a list and of a dict is never blank, so only a string can be. *)
Definition blank (v : value) : bool :=
  match v with
  | VStr s => String.eqb (strip s) ""
  | _ => false
  end.

Definition is_list (v : value) : bool :=
  match v with VList _ => true | _ => false end.

Definition is_none (v : value) : bool :=
  match v with VNone => true | _ => false end.

(** The inner loop: the first variant that is a key of [output]. *)
Definition first_variant (output : gmap string value) (variants : list string)
    : option value :=
  match first_match (fun v => bool_decide (is_Some (output !! v))) variants with
  | Some v => output !! v
  | None => None
  end.

(** [k not in d or test(d[k])] *)
Definition missing_or (test : value -> bool) (k : string) (d : gmap string value) : bool :=
  match d !! k with
  | None => true
  | Some v => test v
  end.

Definition normalize_model_output (output : gmap string value) (table_name : string)
    : result (gmap string value) :=
  let normalized :=
    fold_left
      (fun normalized '(required_key, variants) =>
         match first_variant output variants with
         | Some v => <[required_key := v]> normalized
         | None => normalized
         end)
      key_map (∅ : gmap string value) in
  let normalized :=
    if missing_or is_none "new_terms" normalized
    then <["new_terms" := VList []]> normalized else normalized in
  let normalized :=
    if missing_or blank "delta_ontology_ttl" normalized
    then <["delta_ontology_ttl" := VStr "# No delta required"]> normalized
    else normalized in
  if missing_or blank "governance_doc_markdown" normalized
  then RuntimeError
         ("Missing governance_doc_markdown in model output for table " +:+ table_name)
  else
    let normalized :=
      match normalized !! "new_terms" with
      | Some v => if is_list v then normalized else <["new_terms" := VList [v]]> normalized
      | None => normalized
      end in
    Return normalized.

(** *** A raw response and the record expected of it *)

(** The governance text under [governance_key], the terms under
    [addedTerms]. *)
Definition raw_response (governance_key : string) : gmap string value :=
  <[governance_key := VStr "X"]> (<["addedTerms" := VList [VStr "a"]]> ∅).

Definition expected : gmap string value :=
  <["governance_doc_markdown" := VStr "X"]>
    (<["delta_ontology_ttl" := VStr "# No delta required"]>
       (<["new_terms" := VList [VStr "a"]]> ∅)).

End RunPromptGeneration.

(** ** The model-output contract in closed form *)

Module OutputContract.
Import Py RunPromptGeneration.

(** The aliases [key_map] lists for [required_key]. *)
Definition variants_of (required_key : string) : list string :=
  match first_match (fun kv => String.eqb (fst kv) required_key) key_map with
  | Some kv => snd kv
  | None => []
  end.

(** Every spelling [normalize_model_output] looks up. *)
Definition known_spellings : list string := flat_map snd key_map.

(** The governance text the call finds, if any. *)
Definition governance_of (output : gmap string value) : option value :=
  first_variant output (variants_of "governance_doc_markdown").

(** The delta the call settles on: the first alias found, or the
    sentinel when there is none or its text is blank. *)
Definition delta_of (output : gmap string value) : value :=
  match first_variant output (variants_of "delta_ontology_ttl") with
  | Some v => if blank v then VStr "# No delta required" else v
  | None => VStr "# No delta required"
  end.

(** The terms the call settles on: the first alias found when it is a
    list, the list of it alone when it is not, the empty list when there
    is none or it is [None]. *)
Definition terms_of (output : gmap string value) : value :=
  match first_variant output (variants_of "new_terms") with
  | Some v => if is_none v then VList [] else if is_list v then v else VList [v]
  | None => VList []
  end.

(** The record with the three required keys. *)
Definition record (g d t : value) : gmap string value :=
  <["governance_doc_markdown" := g]>
    (<["delta_ontology_ttl" := d]> (<["new_terms" := t]> ∅)).

(** The error raised for [table_name]. *)
Definition missing (table_name : string) : result (gmap string value) :=
  RuntimeError ("Missing governance_doc_markdown in model output for table " +:+ table_name).

End OutputContract.

(** ** Notions for the graph built from rows *)

Module GraphNotions.
Import Py DataDictionaries.

(** A row the loop does not skip: its key is not empty and has a dot. *)
Definition well_keyed (row : Row) : bool :=
  negb (String.eqb (key row) "" || negb (contains "." (key row))).

(** The physical table name the loop reads off the key of [row]. *)
Definition phys_of (row : Row) : string :=
  join "." (but_last (split "." (key row))).

(** A row that describes a column: well keyed and not marked as a table. *)
Definition is_column_row (row : Row) : bool :=
  well_keyed row && negb (contains "otype=table" (al_datadict_item_properties row)).

(** What the row loops leave when all files are read. *)
Definition ingest (files : list (list Row)) : Ingest :=
  fold_left (fun g file => fold_left process_row file g) files
    {| store := empty_store; next_col := 0; all_tables := [] |}.

(** The entries the loop works on once it has made sure that the table of
    the row has one. *)
Definition ensured (norm_table phys_table : string) (d : Entries) : Entries :=
  if has_key norm_table d then d
  else d ++ [(norm_table, {| phys := phys_table; e_cols := []; desc := Some "" |})].

(** The columns listed in [all_tables], table after table. *)
Definition listed_columns (d : Entries) : list loc :=
  flat_map (fun ke => e_cols (snd ke)) d.

(** The columns of the tables of a graph, table after table. *)
Definition graph_columns (s : Store) (g : MetadataSchema) : list loc :=
  flat_map (fun t => columns (tabs s t)) (md_tables g).

(** The canonical ids of the tables of a graph. *)
Definition graph_table_ids (s : Store) (g : MetadataSchema) : list string :=
  map (fun t => t_canonical_id (tabs s t)) (md_tables g).

(** [c] is a column as the row loop makes it for the table [table_id]:
    its canonical id is the table's, a dot and its name, its name has no
    dot, and it is not yet a foreign key. *)
Definition fresh_column_of (table_id : string) (c : ColumnSchema) : Prop :=
  canonical_id c = table_id +:+ "." +:+ name c /\
  all_chars (is_not ".") (name c) = true /\
  is_foreign_key c = false.

(** What the row loop keeps true of [all_tables] and the store. *)
Definition well_formed (g : Ingest) : Prop :=
  NoDup (map fst (all_tables g)) /\
  (forall l, is_foreign_key (cols (store g) l) = false) /\
  (forall k e, In (k, e) (all_tables g) ->
     k = normalize_table_name (phys e) /\
     forall l, In l (e_cols e) ->
       l < next_col g /\ fresh_column_of k (cols (store g) l)).

End GraphNotions.

(** ** Notions for the columns of the graph *)

Module ColumnNotions.
Import Py DataDictionaries GraphNotions.

(** A column with its foreign-key flag cleared: the fields the row loop
    gives it. *)
Definition unflagged (c : ColumnSchema) : ColumnSchema :=
  {| name := name c; data_type := data_type c; canonical_id := canonical_id c;
     is_primary_key := is_primary_key c; is_foreign_key := false;
     description := description c |}.

(** The rows that describe a column of the table [table_id], in the order
    they are read. *)
Definition rows_of (table_id : string) (rows : list Row) : list Row :=
  List.filter (fun row => is_column_row row
                          && String.eqb (normalize_table_name (phys_of row)) table_id)
              rows.

(** What the row loop keeps true of the rows read so far: every row with
    a key has its table in [all_tables], no column is listed twice, and
    the columns of each table are the ones made for its rows, in order. *)
Definition tracks (rows : list Row) (g : Ingest) : Prop :=
  NoDup (map fst (all_tables g)) /\
  NoDup (listed_columns (all_tables g)) /\
  (forall l, In l (listed_columns (all_tables g)) -> l < next_col g) /\
  (forall row, In row rows -> well_keyed row = true ->
     has_key (normalize_table_name (phys_of row)) (all_tables g) = true) /\
  (forall k e, In (k, e) (all_tables g) ->
     map (cols (store g)) (e_cols e) = map (new_column k) (rows_of k rows)).

End ColumnNotions.

(** ** Notions for the column-name normalizers *)

Module NameNotions.
Import Py.

(** [f] applied to every character. *)
Fixpoint map_chars (f : ascii -> ascii) (s : string) : string :=
  match s with
  | EmptyString => EmptyString
  | String c r => String (f c) (map_chars f r)
  end.

(** What [s.replace(".", "_")] does to one character. *)
Definition undot (c : ascii) : ascii := if Ascii.eqb c "." then "_"%char else c.

(** The first and the last character of a string, if it has one. *)
Definition head_char (s : string) : option ascii :=
  match s with
  | EmptyString => None
  | String c _ => Some c
  end.

Fixpoint last_char (s : string) : option ascii :=
  match s with
  | EmptyString => None
  | String c r =>
      match last_char r with
      | Some d => Some d
      | None => Some c
      end
  end.

(** [c], if there is one, is not a space. *)
Definition unspaced (c : option ascii) : bool :=
  match c with
  | Some c => negb (is_space c)
  | None => true
  end.

(** No two underscores of [s] are side by side. *)
Fixpoint single_underscores (s : string) : bool :=
  match s with
  | EmptyString => true
  | String a r =>
      match r with
      | EmptyString => true
      | String b _ => negb (Ascii.eqb a "_" && Ascii.eqb b "_") && single_underscores r
      end
  end.

(** [c] is not one of A-Z. *)
Definition not_upper (c : ascii) : bool := negb (is_upper c).

End NameNotions.

(** ** run_prompt_generation.py: the call to the model *)

Module ModelCall.
Import Py RunPromptGeneration.

(** What a post comes to, up to the text of the response: an exception,
    with its text, from the post, the status check or the decoding of the
    envelope; or the envelope's [response] field ([""] when the field is
    missing or empty). *)
Inductive reply :=
| Raised (text : string)
| Responded (response : string).

(** What the call does to the world, in order. *)
Inductive event :=
| Post
| Sleep.

Section Call.

(** [json.loads]: the value, or the text of the exception it raises. *)
Variable loads : string -> string + value.

(** What the posts come to, one after the other. *)
Variable replies : nat -> reply.

(** The body of [try], on the [attempt]-th post: the value returned, or
    the text of the exception caught. *)
Definition try_post (attempt : nat) : string + value :=
  match replies attempt with
  | Raised text => inl text
  | Responded response =>
      let response_text := strip response in
      if String.eqb response_text "" then inl "Empty response from model"
      else loads response_text
  end.

(** The loop from [attempt] on, with [todo] values of the range left.
    [Return None] is the end of the function reached with no [return]. *)
Fixpoint attempts (retries : Z) (attempt todo : nat) : result (option value) * list event :=
  match todo with
  | O => (Return None, [])
  | S todo' =>
      match try_post attempt with
      | inr v => (Return (Some v), [Post])
      | inl last_err =>
          if (Z.of_nat attempt <? retries)%Z
          then
            let '(r, events) := attempts retries (S attempt) todo' in
            (r, Post :: Sleep :: events)
          else
            (RuntimeError ("Model JSON call failed after retries: " +:+ last_err), [Post])
      end
  end.

(** [for attempt in range(retries + 1)] *)
Definition call_model_json (retries : Z) : result (option value) * list event :=
  attempts retries 0 (Z.to_nat (retries + 1)).

End Call.

(** [n] failed posts, each followed by a sleep. *)
Fixpoint failed_rounds (n : nat) : list event :=
  match n with
  | O => []
  | S n' => Post :: Sleep :: failed_rounds n'
  end.

(** The number of posts and of sleeps in a list of events. *)
Definition posts (events : list event) : nat :=
  length (List.filter (fun e => match e with Post => true | Sleep => false end) events).

Definition sleeps (events : list event) : nat :=
  length (List.filter (fun e => match e with Sleep => true | Post => false end) events).

(** A server that fails [n] times, then answers with [response]. *)
Definition fails_then (n : nat) (response : string) (attempt : nat) : reply :=
  if attempt <? n then Raised "Connection refused" else Responded response.

(** A decoder that knows one text. *)
Definition loads_only (text : string) (v : value) (s : string) : string + value :=
  if String.eqb s text then inr v else inl "Expecting value".

End ModelCall.

(** ** add_comments_xml_classes.py: comments for the classes of an ontology *)

Module Annotator.
Import Py.

Definition NS_rdf : string := "http://www.w3.org/1999/02/22-rdf-syntax-ns#".
Definition NS_rdfs : string := "http://www.w3.org/2000/01/rdf-schema#".
Definition NS_owl : string := "http://www.w3.org/2002/07/owl#".
Definition NS_xml : string := "http://www.w3.org/XML/1998/namespace".

Definition OWL_CLASS_URI : string := NS_owl +:+ "Class".

(** The name [ElementTree] gives the tag or attribute [local] of the
    namespace [ns]. *)
Definition qname (ns local : string) : string := "{" +:+ ns +:+ "}" +:+ local.

(** [s.rsplit(sep, 1)]: the text before and after the last [sep]. *)
Fixpoint rsplit_once (sep : ascii) (s : string) : option (string * string) :=
  match s with
  | EmptyString => None
  | String c r =>
      match rsplit_once sep r with
      | Some (before, after) => Some (String c before, after)
      | None => if Ascii.eqb c sep then Some (EmptyString, r) else None
      end
  end.

Definition rsplit1 (sep : ascii) (s : string) : list string :=
  match rsplit_once sep s with
  | Some (before, after) => [before; after]
  | None => [s]
  end.

(** [s.rstrip(x)] for a one-character [x]. *)
Fixpoint rstrip_char (x : ascii) (s : string) : string :=
  match s with
  | EmptyString => EmptyString
  | String c r =>
      match rstrip_char x r with
      | EmptyString => if Ascii.eqb c x then EmptyString else String c EmptyString
      | r' => String c r'
      end
  end.

Definition local_name (uri : string) : string :=
  if String.eqb uri "" then ""
  else if contains "#" uri then last_part (rsplit1 "#" uri)
  else last_part (rsplit1 "/" (rstrip_char "/" uri)).

(** An element: its tag, its attributes, its text and its children. *)
Inductive Element :=
| Elem (tag : string) (attrib : gmap string string) (text : option string)
       (children : list Element).

Definition tag (e : Element) : string := match e with Elem t _ _ _ => t end.
Definition attrib (e : Element) : gmap string string := match e with Elem _ a _ _ => a end.
Definition text (e : Element) : option string := match e with Elem _ _ t _ => t end.
Definition children (e : Element) : list Element := match e with Elem _ _ _ cs => cs end.

(** [elem.find(name) is not None] and [elem.find(name)], for a child. *)
Definition has_tag (name : string) (e : Element) : bool := String.eqb (tag e) name.

Definition has_child (name : string) (e : Element) : bool :=
  existsb (has_tag name) (children e).

Definition find_child (name : string) (e : Element) : option Element :=
  List.find (has_tag name) (children e).

(** [(elem.text or "").strip() if elem is not None else ""] *)
Definition get_text (elem : option Element) : string :=
  match elem with
  | Some e => strip (default "" (text e))
  | None => ""
  end.

Definition is_class_description (desc : Element) : bool :=
  existsb (fun t => has_tag (qname NS_rdf "type") t
                    && bool_decide (attrib t !! qname NS_rdf "resource" = Some OWL_CLASS_URI))
          (children desc)
  || has_child (qname NS_rdfs "subClassOf") desc.

Definition specials : gmap string string :=
  list_to_map
    [ ("Business concept", "A business-level entity or event represented in data.");
      ("Financial concept",
       "A business concept related to financial activity represented in data.");
      ("Auth & verification concept",
       "A business concept related to authentication, verification, and user security.");
      ("Person / identity concept",
       "A business concept representing users, identity attributes, or profiles.");
      ("Data asset", "An asset that represents stored, managed, or governed data.");
      ("Governance asset",
       "A governance artifact (e.g., policy, rule, standard) used to manage data and compliance.");
      ("Physical data asset",
       "A physical data object (e.g., dataset, table, file) that stores data.");
      ("Semantic asset",
       "A semantic definition (e.g., business term, metric) that provides shared meaning for data.");
      ("Process",
       "A repeatable operational or technical activity that produces, transforms, or manages data.") ].

Definition generate_definition (label : string) : string :=
  match specials !! label with
  | Some definition => definition
  | None => "A " +:+ label +:+ " concept represented in the ontology."
  end.

(** [d.attrib.get(about) or d.attrib.get(ID)], with [""] for [None]. *)
Definition about_of (d : Element) : string :=
  match attrib d !! qname NS_rdf "about" with
  | Some (String c r) => String c r
  | _ => default "" (attrib d !! qname NS_rdf "ID")
  end.

(** The comment the loop makes for [d]. *)
Definition comment_for (d : Element) : Element :=
  let label_elem := find_child (qname NS_rdfs "label") d in
  let label := get_text label_elem in
  let label := if String.eqb label "" then local_name (about_of d) else label in
  Elem (qname NS_rdfs "comment") {[ qname NS_xml "lang" := "en" ]}
       (Some (generate_definition label)) [].

(** [list(d).index(label_elem)]: the place of the first child with the
    tag. *)
Fixpoint index_of (name : string) (cs : list Element) : option nat :=
  match cs with
  | [] => None
  | c :: cs' => if has_tag name c then Some 0 else option_map S (index_of name cs')
  end.

(** [l.insert(i, x)] *)
Definition list_insert {A} (i : nat) (x : A) (l : list A) : list A :=
  firstn i l ++ x :: skipn i l.

(** A description the loop gives a comment: a class description, with an
    [about] or an [ID], and no comment yet. *)
Definition to_annotate (d : Element) : bool :=
  has_tag (qname NS_rdf "Description") d
  && is_class_description d
  && negb (String.eqb (about_of d) "")
  && negb (has_child (qname NS_rdfs "comment") d).

(** The comment put among the children [cs] of [d], as they are when the
    loop is over: after the label that [d] had, or at the end. *)
Definition with_comment (d : Element) (cs : list Element) : list Element :=
  match index_of (qname NS_rdfs "label") (children d) with
  | Some idx => list_insert (idx + 1) (comment_for d) cs
  | None => cs ++ [comment_for d]
  end.

(** The loop visits every description below the root once, and changes
    the list of children of the one it visits and nothing else; so the
    tree it leaves is the tree in which every element below the root has
    been treated on its own. [annotate e] is what is left of [e]. *)
Fixpoint annotate (e : Element) : Element :=
  match e with
  | Elem t a x cs =>
      let cs' := map annotate cs in
      Elem t a x (if to_annotate e then with_comment e cs' else cs')
  end.

(** The tree [main] writes, for the tree it parsed. *)
Definition annotate_root (root : Element) : Element :=
  match root with
  | Elem t a x cs => Elem t a x (map annotate cs)
  end.

(** An element and all that is below it, in document order. *)
Fixpoint subtree (e : Element) : list Element :=
  match e with
  | Elem _ _ _ cs => e :: flat_map subtree cs
  end.

(** [root.findall(".//rdf:Description")] *)
Definition descs (root : Element) : list Element :=
  List.filter (has_tag (qname NS_rdf "Description")) (flat_map subtree (children root)).

Definition class_descs (root : Element) : list Element :=
  List.filter is_class_description (descs root).

(** The three counts [main] prints. *)
Definition skipped_no_id (root : Element) : nat :=
  length (List.filter (fun d => String.eqb (about_of d) "") (class_descs root)).

Definition skipped_existing (root : Element) : nat :=
  length (List.filter (fun d => negb (String.eqb (about_of d) "")
                                && has_child (qname NS_rdfs "comment") d)
                      (class_descs root)).

Definition added (root : Element) : nat :=
  length (List.filter (fun d => negb (String.eqb (about_of d) "")
                                && negb (has_child (qname NS_rdfs "comment") d))
                      (class_descs root)).

(** *** Notions for the statements below *)

(** The number of elements of a tree. *)
Definition size (e : Element) : nat := length (subtree e).

(** A class description without comment, with the label [label] if any,
    and the document made of [ds]. *)
Definition class_description (about : string) (label : option string) : Element :=
  Elem (qname NS_rdf "Description") {[ qname NS_rdf "about" := about ]} None
    ((match label with
      | Some l => [Elem (qname NS_rdfs "label") ∅ (Some l) []]
      | None => []
      end)
     ++ [Elem (qname NS_rdf "type") {[ qname NS_rdf "resource" := OWL_CLASS_URI ]} None []]).

Definition document (ds : list Element) : Element :=
  Elem (qname NS_rdf "RDF") ∅ None ds.

End Annotator.

(** ** Notions for the annotator *)

Module AnnotatorNotions.
Import Py Annotator.

(** [out] is [e] with comments added and nothing else changed: every
    element keeps its tag, its attributes and its text; its children are
    the children it had, in their order, each with comments added in the
    same way; and only a description the loop gives a comment (a class
    description with an [about] or an [ID] and no comment) has one more
    child, which is the comment made for it. *)
Inductive adds_comments : Element -> Element -> Prop :=
| kept t a x cs cs' :
    Forall2 adds_comments cs cs' ->
    adds_comments (Elem t a x cs) (Elem t a x cs')
| commented t a x cs cs1 cs2 :
    to_annotate (Elem t a x cs) = true ->
    Forall2 adds_comments cs (cs1 ++ cs2) ->
    adds_comments (Elem t a x cs)
                  (Elem t a x (cs1 ++ comment_for (Elem t a x cs) :: cs2)).

End AnnotatorNotions.


(** ** Facts about the string primitives *)

Module PyFacts.
Import Py.

Lemma append_empty_r s : s +:+ "" = s.
Proof. induction s as [|c r IH]; cbn [String.append]; [reflexivity | now rewrite IH]. Qed.

Lemma append_assoc a b c : (a +:+ b) +:+ c = a +:+ (b +:+ c).
Proof. induction a as [|x r IH]; cbn [String.append]; [reflexivity | now rewrite IH]. Qed.

Lemma lower_char_idem c : lower_char (lower_char c) = lower_char c.
Proof. destruct c as [[] [] [] [] [] [] [] []]; reflexivity. Qed.

Lemma lower_idem s : lower (lower s) = lower s.
Proof. induction s as [|c r IH]; simpl; [reflexivity|]. now rewrite lower_char_idem, IH. Qed.

Lemma lower_app a b : lower (a +:+ b) = lower a +:+ lower b.
Proof. induction a as [|c r IH]; simpl; [reflexivity|]. now rewrite IH. Qed.

Lemma all_chars_app P a b :
  all_chars P (a +:+ b) = all_chars P a && all_chars P b.
Proof.
  induction a as [|c r IH]; simpl; [reflexivity|].
  now rewrite IH, andb_assoc.
Qed.

Lemma all_chars_impl (P Q : ascii -> bool) s :
  (forall c, P c = true -> Q c = true) ->
  all_chars P s = true -> all_chars Q s = true.
Proof.
  intros HPQ. induction s as [|c r IH]; simpl; [reflexivity|].
  intros [Hc Hr]%andb_true_iff. rewrite (HPQ _ Hc). simpl. auto.
Qed.

Lemma all_lowered_lower s : all_chars lowered (lower s) = true.
Proof.
  induction s as [|c r IH]; simpl; [reflexivity|].
  rewrite IH, andb_true_r. unfold lowered.
  rewrite lower_char_idem. apply Ascii.eqb_refl.
Qed.

Lemma lower_fixed s : all_chars lowered s = true -> lower s = s.
Proof.
  induction s as [|c r IH]; simpl; [reflexivity|].
  intros [Hc Hr]%andb_true_iff.
  apply Ascii.eqb_eq in Hc. now rewrite Hc, IH.
Qed.

Lemma all_chars_replace_from P old new s :
  all_chars P new = true -> all_chars P s = true ->
  forall k, all_chars P (replace_from old new k s) = true.
Proof.
  intros Hnew. induction s as [|c r IH]; simpl; [reflexivity|].
  intros [Hc Hr]%andb_true_iff [|k]; [|auto].
  destruct (startswith old (String c r)).
  - rewrite all_chars_app, Hnew. simpl. auto.
  - simpl. rewrite Hc. simpl. auto.
Qed.

(** Where [old] does not occur, [replace] changes nothing. *)
Lemma replace_from_absent old new s :
  contains old s = false -> replace_from old new 0 s = s.
Proof.
  induction s as [|c r IH]; [reflexivity|].
  cbn [contains replace_from].
  intros [Hp Hr]%orb_false_iff. rewrite Hp. now rewrite IH.
Qed.

Lemma contains_char c s :
  contains (String c EmptyString) s = negb (all_chars (is_not c) s).
Proof.
  induction s as [|b r IH]; [reflexivity|].
  cbn [contains startswith all_chars]. rewrite IH. unfold is_not.
  destruct (Ascii.eqb c b); reflexivity.
Qed.

(** Induction on the length of a string. *)
Lemma string_length_ind (Q : string -> Prop) :
  (forall s, (forall t, String.length t < String.length s -> Q t) -> Q s) ->
  forall s, Q s.
Proof.
  intros step s.
  induction s as [s IH] using (induction_ltof1 _ String.length).
  apply step. exact IH.
Qed.

Lemma absent_char c s :
  all_chars (is_not c) s = true -> contains (String c EmptyString) s = false.
Proof. intros H. now rewrite contains_char, H. Qed.

(** Replacing a character by text that lacks it leaves none behind. *)
Lemma replace_char_gone c new s :
  all_chars (is_not c) new = true ->
  all_chars (is_not c) (replace_from (String c EmptyString) new 0 s) = true.
Proof.
  intros Hnew. induction s as [|b r IH]; [reflexivity|].
  cbn [replace_from startswith String.length Nat.sub].
  destruct (Ascii.eqb c b) eqn:E; cbn [andb].
  - now rewrite all_chars_app, Hnew, IH.
  - cbn [all_chars]. unfold is_not at 1. now rewrite E, IH.
Qed.

(** Each segment [split] returns is free of the separator and keeps
    what holds of every character of the text. *)
Lemma split_from_segments P sep s :
  all_chars P s = true ->
  let '(seg, segs) := split_from sep s in
  (all_chars (is_not sep) seg = true /\ all_chars P seg = true) /\
  Forall (fun t => all_chars (is_not sep) t = true /\ all_chars P t = true) segs.
Proof.
  induction s as [|c r IH]; simpl.
  - intros _. repeat split. constructor.
  - intros [Hc Hr]%andb_true_iff. specialize (IH Hr).
    destruct (split_from sep r) as [seg segs]. destruct IH as [[H1 H2] H3].
    destruct (Ascii.eqb c sep) eqn:E.
    + repeat split. constructor; auto.
    + simpl. unfold is_not at 1. rewrite Ascii.eqb_sym, E, H1, Hc, H2.
      repeat split. assumption.
Qed.

Lemma last_part_split P sep s :
  all_chars P s = true ->
  all_chars (is_not sep) (last_part (split sep s)) = true /\
  all_chars P (last_part (split sep s)) = true.
Proof.
  intros H. pose proof (split_from_segments P sep s H) as Hs.
  unfold split, last_part. destruct (split_from sep s) as [seg segs].
  destruct Hs as [Hseg Hsegs].
  assert (HF : Forall (fun t => all_chars (is_not sep) t = true /\ all_chars P t = true)
                      (seg :: segs)) by (constructor; assumption).
  clear Hseg Hsegs. revert HF. generalize (seg :: segs) as l.
  induction l as [|x [|y l] IH]; intros HF.
  - simpl. auto.
  - now inversion HF.
  - inversion HF; subst. apply IH. assumption.
Qed.

End PyFacts.

(** ** Facts about the table-name normalizers *)

Module NormalizerFacts.
Import Py PyFacts.

(** *** TestSchema.py *)

Lemma sub_version_absent s :
  TestSchema.has_version s = false -> TestSchema.sub_version false s = s.
Proof.
  induction s as [|c r IH]; [reflexivity|].
  cbn [TestSchema.has_version TestSchema.sub_version andb].
  intros [Hat Hr]%orb_false_iff. specialize (IH Hr).
  destruct (Ascii.eqb c "_") eqn:Ec; [|now rewrite IH].
  destruct r as [|v [|d r']]; try now rewrite IH.
  cbn [TestSchema.version_at] in Hat. rewrite Ec in Hat. cbn [andb] in Hat.
  rewrite Hat. now rewrite IH.
Qed.

Lemma all_chars_sub_version P s :
  all_chars P s = true -> forall b, all_chars P (TestSchema.sub_version b s) = true.
Proof.
  induction s as [s IH] using string_length_ind.
  destruct s as [|c r]; [reflexivity|].
  cbn [all_chars]. intros [Hc Hr]%andb_true_iff b.
  assert (Hkeep : all_chars P (String c (TestSchema.sub_version false r)) = true).
  { cbn [all_chars]. rewrite Hc. apply IH; [simpl; lia | assumption]. }
  cbn [TestSchema.sub_version].
  destruct (b && is_digit c); [apply IH; [simpl; lia | assumption]|].
  destruct (Ascii.eqb c "_"); [|exact Hkeep].
  destruct r as [|v [|d r']]; try exact Hkeep.
  destruct (Ascii.eqb v "v" && is_digit d); [|exact Hkeep].
  cbn [all_chars] in Hr.
  apply andb_true_iff in Hr as [_ Hr]. apply andb_true_iff in Hr as [_ Hr].
  apply IH; [simpl; lia | assumption].
Qed.

(** The digits that follow a deleted [_v] are deleted with it. *)
Lemma sub_version_digits ds :
  all_chars is_digit ds = true -> TestSchema.sub_version true ds = "".
Proof.
  induction ds as [|d r IH]; [reflexivity|].
  cbn [all_chars]. intros [Hd Hr]%andb_true_iff.
  cbn [TestSchema.sub_version]. rewrite Hd. cbn [andb]. auto.
Qed.

(** An underscore is neither [v] nor a digit: no occurrence of
    [_v<digits>] runs across one, so the scan starts afresh there. *)
Lemma sub_version_underscore a r b :
  TestSchema.sub_version b (a +:+ String "_" r) =
  TestSchema.sub_version b a +:+ TestSchema.sub_version false (String "_" r).
Proof.
  revert b. induction a as [a IH] using string_length_ind. intros b.
  destruct a as [|c a'].
  - cbn [String.append]. destruct b; reflexivity.
  - set (tl := TestSchema.sub_version false (String "_" r)) in *.
    cbn [String.append]. cbn [TestSchema.sub_version].
    destruct (b && is_digit c); [apply IH; simpl; lia|].
    assert (Hkeep :
      String c (TestSchema.sub_version false (a' +:+ String "_" r)) =
      String c (TestSchema.sub_version false a') +:+ tl).
    { cbn [String.append]. f_equal. apply IH. simpl; lia. }
    destruct (Ascii.eqb c "_"); [|exact Hkeep].
    destruct a' as [|v [|d a'']].
    + cbn [String.append] in *. destruct r; exact Hkeep.
    + cbn [String.append].
      replace (Ascii.eqb v "v" && is_digit "_") with false
        by (now rewrite andb_false_r).
      exact Hkeep.
    + cbn [String.append].
      destruct (Ascii.eqb v "v" && is_digit d); [|exact Hkeep].
      apply IH. simpl; lia.
Qed.

Lemma startswith_length p s :
  startswith p s = true -> String.length p <= String.length s.
Proof.
  revert s. induction p as [|a p IH]; intros [|b s]; simpl; try lia; try discriminate.
  intros [_ H]%andb_true_iff. apply IH in H. lia.
Qed.

Lemma startswith_app_long p y z :
  String.length p <= String.length y ->
  startswith p (y +:+ z) = startswith p y.
Proof.
  revert y. induction p as [|a p IH]; intros [|b y]; simpl; try lia; try reflexivity.
  intros H. rewrite IH by lia. reflexivity.
Qed.

(** Settles a chain of character tests: a test on a variable by cases,
    a test on two literals by evaluation. *)
Ltac settle_tests :=
  repeat (cbn [String.append startswith andb];
          match goal with
          | |- context [Ascii.eqb ?a ?b] =>
              first [ is_var b; destruct (Ascii.eqb a b)
                    | let v := eval vm_compute in (Ascii.eqb a b) in
                      change (Ascii.eqb a b) with v ]
          end);
  cbn [String.append startswith andb]; try reflexivity.

(** [_enriched] has a single underscore, at its head: an occurrence
    cannot start in [y] and end in a copy of [_enriched] put after it. *)
Lemma enriched_no_straddle y :
  y <> "" ->
  startswith "_enriched" (y +:+ "_enriched") = startswith "_enriched" y.
Proof.
  intros Hy.
  destruct (le_lt_dec (String.length "_enriched") (String.length y)) as [Hlong|Hshort].
  - now apply startswith_app_long.
  - destruct y as [|c0 [|c1 [|c2 [|c3 [|c4 [|c5 [|c6 [|c7 [|c8 y]]]]]]]]];
      [congruence | settle_tests .. | simpl in Hshort; lia].
Qed.

(** An [_enriched] put at the end of a name is deleted and nothing else
    changes. *)
Lemma replace_enriched_suffix y k :
  k <= String.length y ->
  replace_from "_enriched" "" k (y +:+ "_enriched") = replace_from "_enriched" "" k y.
Proof.
  revert k. induction y as [|c y IH]; intros k Hk.
  - simpl in Hk. assert (k = 0) as -> by lia. reflexivity.
  - change (String c y +:+ "_enriched") with (String c (y +:+ "_enriched")).
    cbn [replace_from]. destruct k as [|k]; [|apply IH; simpl in Hk; lia].
    change (String c (y +:+ "_enriched")) with (String c y +:+ "_enriched").
    rewrite enriched_no_straddle by discriminate.
    destruct (startswith "_enriched" (String c y)) eqn:E.
    + apply startswith_length in E. simpl in E.
      f_equal. apply IH. simpl. lia.
    + f_equal. apply IH. lia.
Qed.

Lemma lowered_digit c : is_digit c = true -> lowered c = true.
Proof. destruct c as [[] [] [] [] [] [] [] []]; vm_compute; congruence. Qed.

Lemma lower_digits ds : all_chars is_digit ds = true -> lower ds = ds.
Proof.
  intros H. apply lower_fixed. revert H. apply all_chars_impl, lowered_digit.
Qed.

(** What the version deletion makes of a name followed by a marker and a
    version suffix. *)
Lemma sub_version_suffixes b e v :
  TestSchema.enriched_marker e -> TestSchema.version_suffix v ->
  TestSchema.sub_version false (lower (b +:+ e +:+ v)) =
  TestSchema.sub_version false (lower b) +:+ e.
Proof.
  intros He Hv. rewrite !lower_app.
  assert (Hv' : TestSchema.sub_version false (lower v) = "" /\
                (v = "" \/ exists r, lower v = String "_" r)).
  { destruct Hv as [|d ds Hd Hds].
    - split; [reflexivity | now left].
    - split; [|right; eexists; reflexivity].
      cbn [lower]. rewrite (lower_digits ds Hds).
      pose proof (lowered_digit d Hd) as Hl. apply Ascii.eqb_eq in Hl. rewrite Hl.
      cbn [TestSchema.sub_version andb]. rewrite Hd.
      change (Ascii.eqb (lower_char "_") "_") with true.
      change (Ascii.eqb (lower_char "v") "v") with true.
      cbn [andb]. now apply sub_version_digits. }
  destruct Hv' as [Hv0 Hshape].
  destruct He.
  - cbn [lower String.append].
    destruct Hshape as [->|[r Hr]].
    + cbn [lower]. now rewrite !append_empty_r.
    + rewrite Hr, sub_version_underscore, <- Hr, Hv0.
      now rewrite !append_empty_r.
  - change (lower "_enriched") with (String "_" "enriched").
    cbn [String.append]. rewrite sub_version_underscore. f_equal.
    destruct Hshape as [->|[r Hr]].
    + reflexivity.
    + rewrite Hr.
      change (TestSchema.sub_version false ("_enriched" +:+ String "_" r) = "_enriched").
      rewrite sub_version_underscore, <- Hr, Hv0. reflexivity.
Qed.

Lemma replace_nonempty a o new s :
  replace (String a o) new s = replace_from (String a o) new 0 s.
Proof. reflexivity. Qed.

(** Appending a marker and a version suffix to a name does not change
    what [TestSchema.normalize_table_name] makes of it. *)
Lemma testschema_suffix_stable b e v :
  TestSchema.enriched_marker e -> TestSchema.version_suffix v ->
  TestSchema.normalize_table_name (b +:+ e +:+ v) = TestSchema.normalize_table_name b.
Proof.
  intros He Hv. unfold TestSchema.normalize_table_name.
  rewrite (sub_version_suffixes b e v He Hv).
  destruct He; [now rewrite append_empty_r|].
  f_equal. rewrite !replace_nonempty. apply replace_enriched_suffix. lia.
Qed.

Lemma testschema_name_lowered x :
  all_chars lowered (TestSchema.normalize_table_name x) = true.
Proof.
  unfold TestSchema.normalize_table_name. rewrite !replace_nonempty.
  apply all_chars_replace_from; [reflexivity|].
  apply all_chars_replace_from; [reflexivity|].
  apply all_chars_sub_version, all_lowered_lower.
Qed.

Lemma testschema_name_undotted x :
  all_chars (is_not ".") (TestSchema.normalize_table_name x) = true.
Proof.
  unfold TestSchema.normalize_table_name. rewrite (replace_nonempty "." "").
  now apply replace_char_gone.
Qed.

(** A canonical name with no version and no marker left in it is its own
    canonical name. *)
Lemma testschema_idempotent_when_clean x :
  TestSchema.has_version (TestSchema.normalize_table_name x) = false ->
  contains "_enriched" (TestSchema.normalize_table_name x) = false ->
  TestSchema.normalize_table_name (TestSchema.normalize_table_name x) =
  TestSchema.normalize_table_name x.
Proof.
  intros Hv He.
  pose proof (testschema_name_lowered x) as Hl.
  pose proof (testschema_name_undotted x) as Hd.
  set (y := TestSchema.normalize_table_name x) in *.
  unfold TestSchema.normalize_table_name.
  rewrite (lower_fixed y Hl), (sub_version_absent y Hv), !replace_nonempty.
  rewrite (replace_from_absent "_enriched" "" y He).
  apply replace_from_absent. now apply absent_char.
Qed.

(** *** data_dictionaries_schema.py *)

Lemma unqualified_keeps P n :
  all_chars P n = true -> all_chars P (DataDictionaries.unqualified n) = true.
Proof.
  intros H. unfold DataDictionaries.unqualified.
  destruct (contains "." n); [|assumption].
  now apply last_part_split.
Qed.

Lemma unqualified_undotted n :
  all_chars (is_not ".") (DataDictionaries.unqualified n) = true.
Proof.
  unfold DataDictionaries.unqualified.
  destruct (contains "." n) eqn:E.
  - apply (last_part_split (fun _ => true)). clear E.
    induction n as [|c r IH]; [reflexivity | exact IH].
  - rewrite contains_char in E. now apply negb_false_iff in E.
Qed.

Lemma bare_name_fixed x :
  DataDictionaries.unqualified
    (replace DataDictionaries.quote "" (lower (DataDictionaries.bare_name x))) = DataDictionaries.bare_name x /\
  replace "." "_" (DataDictionaries.bare_name x) = DataDictionaries.bare_name x.
Proof.
  assert (Hl : all_chars lowered (DataDictionaries.bare_name x) = true).
  { apply unqualified_keeps. unfold DataDictionaries.quote. rewrite replace_nonempty.
    apply all_chars_replace_from; [reflexivity | apply all_lowered_lower]. }
  assert (Hq : all_chars (is_not DataDictionaries.quote_char) (DataDictionaries.bare_name x) = true).
  { apply unqualified_keeps. unfold DataDictionaries.quote. rewrite replace_nonempty.
    now apply replace_char_gone. }
  pose proof (unqualified_undotted
                (replace DataDictionaries.quote "" (lower x))) as Hd.
  fold (DataDictionaries.bare_name x) in Hd.
  set (n := DataDictionaries.bare_name x) in *.
  assert (Hdot : replace "." "_" n = n).
  { rewrite replace_nonempty. apply replace_from_absent. now apply absent_char. }
  split; [|exact Hdot].
  rewrite (lower_fixed n Hl). unfold DataDictionaries.quote. rewrite replace_nonempty.
  rewrite (replace_from_absent _ "" n (absent_char DataDictionaries.quote_char n Hq)).
  unfold DataDictionaries.unqualified. now rewrite (absent_char "." n Hd).
Qed.

Lemma datadict_idempotent x :
  DataDictionaries.normalize_table_name (DataDictionaries.normalize_table_name x) =
  DataDictionaries.normalize_table_name x.
Proof.
  destruct (bare_name_fixed x) as [Hbare Hdot].
  unfold DataDictionaries.normalize_table_name at 2 3. fold (DataDictionaries.bare_name x).
  destruct (first_match (fun target => contains target (DataDictionaries.bare_name x))
                        DataDictionaries.TARGET_TABLES) as [t|] eqn:E.
  - apply find_some in E as [Hin _].
    repeat (destruct Hin as [<-|Hin]; [vm_compute; reflexivity|]).
    destruct Hin.
  - rewrite Hdot. unfold DataDictionaries.normalize_table_name.
    rewrite Hbare, E. exact Hdot.
Qed.

(** A text that holds [a] followed by [b] holds [a]. *)
Lemma startswith_app_l a b s : startswith (a +:+ b) s = true -> startswith a s = true.
Proof.
  revert s. induction a as [|c a IH]; intros s; [reflexivity|].
  destruct s as [|d s]; cbn [String.append startswith]; [discriminate|].
  intros [Hc Hs]%andb_true_iff. now rewrite Hc, (IH s Hs).
Qed.

Lemma contains_app_l a b s : contains (a +:+ b) s = true -> contains a s = true.
Proof.
  induction s as [|d s IH]; cbn [contains]; intros [H|H]%orb_true_iff.
  - now rewrite (startswith_app_l a b _ H).
  - discriminate H.
  - now rewrite (startswith_app_l a b _ H).
  - rewrite (IH H). apply orb_true_r.
Qed.

End NormalizerFacts.

(** ** Facts about relationship discovery *)

Module DiscoveryFacts.
Import Py DataDictionaries.

Lemma flag_foreign_key_twice c :
  flag_foreign_key (flag_foreign_key c) = flag_foreign_key c.
Proof. reflexivity. Qed.

Lemma flagged_nil s : flagged [] s s.
Proof. split; reflexivity. Qed.

Lemma flagged_app h1 h2 s s1 s2 :
  flagged h1 s s1 -> flagged h2 s1 s2 -> flagged (h1 ++ h2) s s2.
Proof.
  intros [Ht1 Hc1] [Ht2 Hc2]. split.
  - intros t. now rewrite Ht2.
  - intros l. rewrite Hc2, Hc1, existsb_app.
    destruct (existsb (Nat.eqb l) h1); destruct (existsb (Nat.eqb l) h2); reflexivity.
Qed.

Lemma flagged_same_keys s0 h s s' :
  same_keys s0 s -> flagged h s s' -> same_keys s0 s'.
Proof.
  intros [Ht Hk] [Ht' Hc]. split.
  - intros t. now rewrite Ht'.
  - intros l. rewrite Hc. destruct (existsb (Nat.eqb l) h); apply Hk.
Qed.

Lemma set_foreign_key_flagged col s : flagged [col] s (set_foreign_key col s).
Proof.
  split; [reflexivity|]. intros l. cbn [set_foreign_key cols existsb].
  rewrite orb_false_r. destruct (Nat.eqb l col) eqn:E; [|reflexivity].
  apply Nat.eqb_eq in E. now subst.
Qed.

Lemma same_keys_matches s0 s col target_col :
  same_keys s0 s -> matches s col target_col = matches s0 col target_col.
Proof.
  intros [_ Hk]. unfold matches.
  now rewrite (proj1 (Hk col)), (proj1 (Hk target_col)).
Qed.

Lemma same_keys_link s0 s source_table col target_table target_col :
  same_keys s0 s ->
  link s source_table col target_table target_col =
  link s0 source_table col target_table target_col.
Proof.
  intros [Ht Hk]. unfold link.
  now rewrite !Ht, (proj1 (Hk col)), (proj2 (Hk col)), (proj2 (Hk target_col)).
Qed.

Section Run.

(** The store the call starts from. *)
Variable s0 : Store.

Lemma runs_as_fold {A} (f : RunState -> A -> RunState) tr :
  runs_as s0 f tr ->
  runs_as s0 (fun st xs => fold_left f xs st) (fun xs => flat_map tr xs).
Proof.
  intros Hf st xs. revert st.
  induction xs as [|x xs IH]; intros st Hkeys; cbn [fold_left flat_map].
  - rewrite app_nil_r. split; [reflexivity | apply flagged_nil].
  - destruct (Hf st x Hkeys) as [Hrels Hflag].
    destruct (IH (f st x) (flagged_same_keys _ _ _ _ Hkeys Hflag)) as [Hrels' Hflag'].
    split.
    + rewrite Hrels', Hrels, map_app, app_assoc. reflexivity.
    + rewrite map_app. eapply flagged_app; eassumption.
Qed.

Lemma visit_target_col_runs source_table col target_table :
  runs_as s0 (visit_target_col source_table col target_table)
          (trace_target_col s0 source_table col target_table).
Proof.
  intros [s rels] target_col Hkeys. cbn [fst snd] in *.
  unfold visit_target_col, trace_target_col.
  fold (matches s col target_col). rewrite (same_keys_matches s0 s) by assumption.
  destruct (matches s0 col target_col); cbn [fst snd map].
  - split; [|apply set_foreign_key_flagged].
    f_equal. f_equal.
    apply (same_keys_link s0 (set_foreign_key col s)).
    eapply flagged_same_keys; [eassumption | apply set_foreign_key_flagged].
  - rewrite app_nil_r. split; [reflexivity | apply flagged_nil].
Qed.

Lemma visit_target_runs source_table col :
  runs_as s0 (visit_target source_table col) (trace_target s0 source_table col).
Proof.
  intros st target_table Hkeys. unfold visit_target, trace_target.
  rewrite !(proj1 Hkeys).
  destruct (String.eqb _ _).
  - cbn [map]. rewrite app_nil_r. split; [reflexivity | apply flagged_nil].
  - apply (runs_as_fold _ _ (visit_target_col_runs source_table col target_table)).
    assumption.
Qed.

Lemma visit_col_runs tables source_table :
  runs_as s0 (visit_col tables source_table) (trace_col s0 tables source_table).
Proof.
  intros st col Hkeys. unfold visit_col, trace_col.
  now apply (runs_as_fold _ _ (visit_target_runs source_table col)).
Qed.

Lemma visit_source_runs tables :
  runs_as s0 (visit_source tables) (trace_source s0 tables).
Proof.
  intros st source_table Hkeys. unfold visit_source, trace_source.
  rewrite (proj1 Hkeys).
  now apply (runs_as_fold _ _ (visit_col_runs tables source_table)).
Qed.

End Run.

Lemma same_keys_refl s : same_keys s s.
Proof. split; intros; auto. Qed.

(** The call returns the edges of the trace and flags its columns. *)
Lemma discover_relationships_trace tables s :
  snd (discover_relationships tables s) = map snd (trace s tables) /\
  flagged (map fst (trace s tables)) s (fst (discover_relationships tables s)).
Proof.
  unfold discover_relationships, trace.
  apply (runs_as_fold s _ _ (visit_source_runs s tables) (s, []) tables).
  apply same_keys_refl.
Qed.

(** The trace holds exactly the linked pairs. *)
Lemma in_trace s tables col r :
  In (col, r) (trace s tables) <->
  exists source_table target_table target_col,
    Linked s tables source_table col target_table target_col /\
    r = link s source_table col target_table target_col.
Proof.
  unfold trace, trace_source, trace_col, trace_target, trace_target_col, Linked, matches.
  split.
  - intros (src & Hsrc & H)%in_flat_map.
    apply in_flat_map in H as (c & Hc & H).
    apply in_flat_map in H as (tgt & Htgt & H).
    destruct (String.eqb_spec (t_canonical_id (tabs s src)) (t_canonical_id (tabs s tgt)))
      as [|Hne]; [destruct H|].
    apply in_flat_map in H as (tc & Htc & H).
    destruct (String.eqb_spec (name (cols s c)) (name (cols s tc))) as [Hn|];
      [|destruct H].
    destruct (contains "id" (name (cols s c))) eqn:Hid; [|destruct H].
    destruct H as [H|[]]. injection H as <- <-.
    exists src, tgt, tc. repeat split; assumption.
  - intros (src & tgt & tc & (Hsrc & Hc & Htgt & Htc & Hne & Hn & Hid) & ->).
    apply in_flat_map. exists src. split; [assumption|].
    apply in_flat_map. exists col. split; [assumption|].
    apply in_flat_map. exists tgt. split; [assumption|].
    apply String.eqb_neq in Hne. rewrite Hne.
    apply in_flat_map. exists tc. split; [assumption|].
    rewrite Hn, String.eqb_refl, <- Hn, Hid. now left.
Qed.

End DiscoveryFacts.

(** ** The relationship inference engine *)

Module RelationshipInference.
Import Py DataDictionaries DiscoveryFacts.

(** C1. Every relationship [discover_relationships] returns joins a column
    of a table of the input to a column of another table of the input:
    the two columns have the same name, the name contains [id], the
    relationship type is [linked_by_id], and the canonical id of the
    source table differs from that of the target table. *)
Theorem discover_relationships_sound
    (tables : list loc) (s : Store) (r : RelationshipSchema) :
  In r (snd (discover_relationships tables s)) ->
  exists src col tgt tcol,
    In src tables /\ In col (columns (tabs s src)) /\
    In tgt tables /\ In tcol (columns (tabs s tgt)) /\
    source_table r = t_canonical_id (tabs s src) /\
    source_column r = canonical_id (cols s col) /\
    target_table r = t_canonical_id (tabs s tgt) /\
    target_column r = canonical_id (cols s tcol) /\
    name (cols s col) = name (cols s tcol) /\
    contains "id" (name (cols s col)) = true /\
    relationship_type r = "linked_by_id" /\
    source_table r <> target_table r.
Proof.
  intros Hr.
  rewrite (proj1 (discover_relationships_trace tables s)) in Hr.
  apply in_map_iff in Hr as ([col r'] & Heq & Hin). cbn [snd] in Heq. subst r'.
  apply in_trace in Hin
    as (src & tgt & tcol & (Hsrc & Hcol & Htgt & Htcol & Hne & Hname & Hid) & ->).
  exists src, col, tgt, tcol. cbn. repeat split; assumption.
Qed.

Lemma discover_relationships_sound_witness :
  exists src col tgt tcol,
    In src [0; 1] /\ In col (columns (tabs two_tables src)) /\
    In tgt [0; 1] /\ In tcol (columns (tabs two_tables tgt)) /\
    "deposits" = t_canonical_id (tabs two_tables src) /\
    "deposits.user_id" = canonical_id (cols two_tables col) /\
    "verified_user_details" = t_canonical_id (tabs two_tables tgt) /\
    "verified_user_details.user_id" = canonical_id (cols two_tables tcol) /\
    name (cols two_tables col) = name (cols two_tables tcol) /\
    contains "id" (name (cols two_tables col)) = true /\
    "linked_by_id" = "linked_by_id" /\
    "deposits" <> "verified_user_details".
Proof.
  apply (discover_relationships_sound [0; 1] two_tables (link two_tables 0 0 1 2)).
  vm_compute. left. reflexivity.
Defined.

(** C7, as the claim has it, fails: the raw and the enriched deposits
    table are two tables, each has a [user_id], and the scan, which skips a
    target whose canonical id is the source's, returns no edge. *)
Lemma same_canonical_id_not_linked :
  0 <> 1 /\ In 0 [0; 1] /\ In 1 [0; 1] /\
  physical_name (tabs two_variants 0) <> physical_name (tabs two_variants 1) /\
  In 0 (columns (tabs two_variants 0)) /\ In 1 (columns (tabs two_variants 1)) /\
  name (cols two_variants 0) = name (cols two_variants 1) /\
  contains "id" (name (cols two_variants 0)) = true /\
  snd (discover_relationships [0; 1] two_variants) = [].
Proof. repeat split; try (vm_compute; tauto); discriminate. Qed.

(** C7, amended. Symmetric edges are not de-duplicated: for two tables of
    the input with different canonical ids, each with a column of a common
    name that contains [id], the returned list holds the edge from the
    first to the second and the edge from the second to the first, and
    they are two edges. *)
Theorem discover_relationships_both_directions
    (tables : list loc) (s : Store) (A B a b : loc) :
  In A tables -> In B tables ->
  t_canonical_id (tabs s A) <> t_canonical_id (tabs s B) ->
  In a (columns (tabs s A)) -> In b (columns (tabs s B)) ->
  name (cols s a) = name (cols s b) ->
  contains "id" (name (cols s a)) = true ->
  let rels := snd (discover_relationships tables s) in
  In (link s A a B b) rels /\ In (link s B b A a) rels /\
  link s A a B b <> link s B b A a.
Proof.
  intros HA HB Hne Ha Hb Hname Hid rels. subst rels.
  rewrite (proj1 (discover_relationships_trace tables s)).
  split; [|split].
  - apply in_map_iff. exists (a, link s A a B b). split; [reflexivity|].
    apply in_trace. exists A, B, b. split; [|reflexivity]. repeat split; assumption.
  - apply in_map_iff. exists (b, link s B b A a). split; [reflexivity|].
    apply in_trace. exists B, A, a. split; [|reflexivity].
    repeat split; try assumption; try congruence.
  - intros Heq. apply Hne. exact (f_equal source_table Heq).
Qed.

Lemma discover_relationships_both_directions_witness :
  let rels := snd (discover_relationships [0; 1] two_tables) in
  In (link two_tables 0 0 1 2) rels /\ In (link two_tables 1 2 0 0) rels /\
  link two_tables 0 0 1 2 <> link two_tables 1 2 0 0.
Proof.
  apply (discover_relationships_both_directions [0; 1] two_tables 0 1 0 2);
    try (vm_compute; tauto); try reflexivity.
  vm_compute. discriminate.
Defined.

Lemma flagged_existsb (hits : list (loc * RelationshipSchema)) l :
  existsb (Nat.eqb l) (map fst hits) = true -> exists r, In (l, r) hits.
Proof.
  intros (x & Hin & Heq)%existsb_exists. apply Nat.eqb_eq in Heq. subst x.
  apply in_map_iff in Hin as ([l' r] & Hl & Hin). cbn [fst] in Hl. subst l'.
  now exists r.
Qed.

Lemma trace_single s t : trace s [t] = [].
Proof.
  unfold trace, trace_source. cbn [flat_map]. rewrite app_nil_r.
  induction (columns (tabs s t)) as [|c cs IH]; [reflexivity|].
  cbn [flat_map]. rewrite IH, app_nil_r.
  unfold trace_col, trace_target. cbn [flat_map].
  now rewrite String.eqb_refl.
Qed.

(** C10. The call leaves every table as it was and every field of every
    column but [is_foreign_key]; a flag that was set stays set; a flag
    that changes becomes true, and is the flag of a column of a source
    table that the scan links to a column of another table. With no table
    or a single one, no edge is returned and no column changes. *)
Theorem discover_relationships_frame (tables : list loc) (s : Store) :
  let s' := fst (discover_relationships tables s) in
  (forall t, tabs s' t = tabs s t) /\
  (forall l,
     name (cols s' l) = name (cols s l) /\
     data_type (cols s' l) = data_type (cols s l) /\
     canonical_id (cols s' l) = canonical_id (cols s l) /\
     is_primary_key (cols s' l) = is_primary_key (cols s l) /\
     description (cols s' l) = description (cols s l)) /\
  (forall l, is_foreign_key (cols s l) = true -> is_foreign_key (cols s' l) = true) /\
  (forall l,
     is_foreign_key (cols s' l) <> is_foreign_key (cols s l) ->
     is_foreign_key (cols s l) = false /\ is_foreign_key (cols s' l) = true /\
     exists src tgt tcol, Linked s tables src l tgt tcol) /\
  (length tables <= 1 ->
   snd (discover_relationships tables s) = [] /\ forall l, cols s' l = cols s l).
Proof.
  intros s'. subst s'.
  destruct (discover_relationships_trace tables s) as [Hrels [Htabs Hcols]].
  split; [exact Htabs|].
  split; [|split; [|split]].
  - intros l. rewrite Hcols.
    destruct (existsb (Nat.eqb l) (map fst (trace s tables))); repeat split.
  - intros l Hset. rewrite Hcols.
    destruct (existsb (Nat.eqb l) (map fst (trace s tables))); [reflexivity | exact Hset].
  - intros l Hchg. rewrite Hcols in Hchg |- *.
    destruct (existsb (Nat.eqb l) (map fst (trace s tables))) eqn:E; [|congruence].
    cbn [flag_foreign_key is_foreign_key] in Hchg |- *.
    split; [now destruct (is_foreign_key (cols s l)) | split; [reflexivity|]].
    apply flagged_existsb in E as [r Hin].
    apply in_trace in Hin as (src & tgt & tcol & HL & _).
    now exists src, tgt, tcol.
  - intros Hlen.
    assert (Hnone : trace s tables = []).
    { destruct tables as [|t [|t' ts]]; [reflexivity | apply trace_single |].
      simpl in Hlen. lia. }
    rewrite Hrels, Hnone. split; [reflexivity|].
    intros l. rewrite Hcols, Hnone. reflexivity.
Qed.

Lemma discover_relationships_frame_witness :
  is_foreign_key (cols two_tables 0) = false /\
  is_foreign_key (cols (fst (discover_relationships [0; 1] two_tables)) 0) = true /\
  exists src tgt tcol, Linked two_tables [0; 1] src 0 tgt tcol.
Proof.
  apply (proj1 (proj2 (proj2 (proj2 (discover_relationships_frame [0; 1] two_tables))))).
  vm_compute. discriminate.
Defined.

(** A column the scan links as a source is flagged when the call ends. *)
Lemma linked_column_flagged tables s src col tgt tcol :
  Linked s tables src col tgt tcol ->
  is_foreign_key (cols (fst (discover_relationships tables s)) col) = true.
Proof.
  intros HL.
  destruct (discover_relationships_trace tables s) as [_ [_ Hcols]].
  rewrite Hcols.
  assert (E : existsb (Nat.eqb col) (map fst (trace s tables)) = true).
  { apply existsb_exists. exists col. split; [|apply Nat.eqb_refl].
    apply in_map_iff. exists (col, link s src col tgt tcol). split; [reflexivity|].
    apply in_trace. now exists src, tgt, tcol. }
  now rewrite E.
Qed.

End RelationshipInference.

(** ** Facts about the graph builder *)

Module GraphFacts.
Import Py DataDictionaries DiscoveryFacts.

Lemma in_update k f d k' e' :
  In (k', e') (update k f d) ->
  exists e0, In (k', e0) d /\ (e' = e0 \/ (k' = k /\ e' = f e0)).
Proof.
  induction d as [|[k0 e0] d IH]; cbn [update]; [intros []|].
  destruct (String.eqb_spec k k0) as [->|Hne].
  - intros [H|H].
    + injection H as <- <-. exists e0. split; [now left | now right].
    + exists e'. split; [now right | now left].
  - intros [H|H].
    + injection H as <- <-. exists e0. split; [now left | now left].
    + destruct (IH H) as (e1 & Hin & Hor). exists e1. split; [now right | exact Hor].
Qed.

Lemma new_column_key_flag norm_table row :
  key_flag_of norm_table (new_column norm_table row).
Proof. reflexivity. Qed.

Lemma process_row_ingested g row : ingested g -> ingested (process_row g row).
Proof.
  intros Hg. unfold process_row.
  destruct (String.eqb (key row) "" || negb (contains "." (key row))); [exact Hg|].
  set (phys_table := join "." (but_last (split "." (key row)))).
  set (norm_table := normalize_table_name phys_table).
  set (tables := if has_key norm_table (all_tables g) then all_tables g else _).
  assert (Htables : forall k e, In (k, e) tables ->
            forall l, In l (e_cols e) -> l < next_col g /\ key_flag_of k (cols (store g) l)).
  { intros k e Hin. subst tables.
    destruct (has_key norm_table (all_tables g)); [now apply Hg|].
    apply in_app_or in Hin as [Hin|[Hin|[]]]; [now apply Hg|].
    injection Hin as <- <-. intros l []. }
  clearbody tables.
  destruct (contains "otype=table" (al_datadict_item_properties row)).
  - intros k e Hin l Hl. cbn [all_tables next_col store] in *.
    apply in_update in Hin as (e0 & Hin & [->|[-> ->]]); eapply Htables; eauto.
  - intros k e Hin l Hl. cbn [all_tables next_col store put_col cols] in *.
    apply in_update in Hin as (e0 & Hin & [->|[-> ->]]).
    + destruct (Htables _ _ Hin l Hl) as [Hlt Hflag]. split; [lia|].
      destruct (Nat.eqb_spec l (next_col g)); [lia | exact Hflag].
    + cbn [e_cols] in Hl. apply in_app_or in Hl as [Hl|[<-|[]]].
      * destruct (Htables _ _ Hin l Hl) as [Hlt Hflag]. split; [lia|].
        destruct (Nat.eqb_spec l (next_col g)); [lia | exact Hflag].
      * split; [lia|]. rewrite Nat.eqb_refl. apply new_column_key_flag.
Qed.

Lemma process_rows_ingested rows g :
  ingested g -> ingested (fold_left process_row rows g).
Proof.
  revert g. induction rows as [|row rows IH]; intros g Hg; [exact Hg|].
  cbn [fold_left]. apply IH, process_row_ingested, Hg.
Qed.

Lemma process_files_ingested files g :
  ingested g ->
  ingested (fold_left (fun g file => fold_left process_row file g) files g).
Proof.
  revert g. induction files as [|file files IH]; intros g Hg; [exact Hg|].
  cbn [fold_left]. apply IH, process_rows_ingested, Hg.
Qed.

(** The conversion loop leaves the columns alone and makes, for each
    entry in turn, the table [new_table] gives, at an address of its own. *)
Lemma convert_tables d :
  forall i s,
    let '(s', table_objects) := convert i d s in
    (forall l, cols s' l = cols s l) /\
    (forall j, j < i -> tabs s' j = tabs s j) /\
    Forall (fun t => i <= t) table_objects /\
    Forall2 (fun t ke => tabs s' t = new_table (fst ke) (snd ke)) table_objects d.
Proof.
  induction d as [|[k e] d IH]; intros i s; cbn [convert].
  - repeat split; constructor.
  - specialize (IH (S i) (put_tab i (new_table k e) s)).
    destruct (convert (S i) d (put_tab i (new_table k e) s)) as [s' objs].
    destruct IH as (Hcols & Htabs & Hge & Hall).
    split; [exact Hcols|]. split; [|split].
    + intros j Hj. rewrite Htabs by lia. cbn [put_tab tabs].
      destruct (Nat.eqb_spec j i); [lia | reflexivity].
    + constructor; [lia|]. apply (Forall_impl _ _ _ Hge). intros; lia.
    + constructor; [|exact Hall]. rewrite Htabs by lia. cbn [put_tab tabs fst snd].
      now rewrite Nat.eqb_refl.
Qed.

(** Every table of the graph [process_csv_files] returns is the table
    [new_table] makes of some name and entry, and its columns carry the
    key flag of that name. *)
Lemma graph_tables files :
  let '(s, g) := process_csv_files files in
  forall t, In t (md_tables g) ->
  exists k e,
    tabs s t = new_table k e /\
    forall l, In l (columns (tabs s t)) -> key_flag_of k (cols s l).
Proof.
  unfold process_csv_files.
  set (g0 := {| store := empty_store; next_col := 0; all_tables := [] |}).
  assert (Hg0 : ingested g0) by (intros k e []).
  pose proof (process_files_ingested files g0 Hg0) as Hg.
  set (g := fold_left _ files g0) in *. clearbody g. clear g0 Hg0.
  pose proof (convert_tables (all_tables g) 0 (store g)) as Hconv.
  destruct (convert 0 (all_tables g) (store g)) as [s1 objs].
  destruct Hconv as (Hcols & _ & _ & Hall).
  pose proof (discover_relationships_trace objs s1) as [_ [Htabs Hflag]].
  destruct (discover_relationships objs s1) as [s' rels]. cbn [fst snd md_tables] in *.
  intros t Ht.
  assert (Hent : exists ke, In ke (all_tables g) /\ tabs s1 t = new_table (fst ke) (snd ke)).
  { clear -Hall Ht. induction Hall as [|t0 ke objs d H0 _ IH]; [destruct Ht|].
    destruct Ht as [<-|Ht].
    - exists ke. split; [now left | exact H0].
    - destruct (IH Ht) as (ke' & Hin & Heq). exists ke'. split; [now right | exact Heq]. }
  destruct Hent as ([k e] & Hin & Heq). cbn [fst snd] in Heq.
  exists k, e. rewrite Htabs, Heq. split; [reflexivity|].
  cbn [new_table columns]. intros l Hl.
  destruct (Hg k e Hin l Hl) as [_ Hkey].
  unfold key_flag_of in *. rewrite Hflag.
  destruct (existsb (Nat.eqb l) (map fst (trace s1 objs)));
    cbn [flag_foreign_key is_primary_key name]; now rewrite Hcols.
Qed.

End GraphFacts.

(** ** The metadata graph builder *)

Module GraphBuilder.
Import Py DataDictionaries DiscoveryFacts GraphFacts.

(** C2, as the claim has it, fails: the column [deposit_id] of the table
    [deposits] is not flagged, since [deposits] is not a part of
    [deposit_id]. *)
Lemma deposit_id_not_primary_key :
  first_table_keys [[column_row "foundation.financial.deposits_v4.deposit_id"]]
  = ("deposits", [("deposit_id", false)]).
Proof. vm_compute. reflexivity. Qed.

(** C2, amended. In the graph built from any files, a column is flagged
    as a primary key exactly when its name contains [id] and contains the
    canonical id of its table. On [deposits] that flags a column
    [deposits_id], and neither [deposit_id] nor [user_id]. *)
Theorem primary_key_heuristic :
  (forall files,
     let '(s, g) := process_csv_files files in
     forall t l,
       In t (md_tables g) -> In l (columns (tabs s t)) ->
       (is_primary_key (cols s l) = true <->
        contains "id" (name (cols s l)) = true /\
        contains (t_canonical_id (tabs s t)) (name (cols s l)) = true)) /\
  first_table_keys [[column_row "foundation.financial.deposits_v4.deposits_id";
                     column_row "foundation.financial.deposits_v4.deposit_id";
                     column_row "foundation.financial.deposits_v4.user_id"]]
  = ("deposits", [("deposits_id", true); ("deposit_id", false); ("user_id", false)]).
Proof.
  split; [|vm_compute; reflexivity].
  intros files. pose proof (graph_tables files) as H.
  destruct (process_csv_files files) as [s g].
  intros t l Ht Hl. destruct (H t Ht) as (k & e & Htab & Hkeys).
  specialize (Hkeys l Hl). unfold key_flag_of in Hkeys.
  rewrite Hkeys, Htab. cbn [new_table t_canonical_id]. apply andb_true_iff.
Qed.

Lemma primary_key_heuristic_witness :
  let files := [[column_row "foundation.financial.deposits_v4.deposits_id"]] in
  is_primary_key (cols (fst (process_csv_files files)) 0) = true <->
  contains "id" (name (cols (fst (process_csv_files files)) 0)) = true /\
  contains (t_canonical_id (tabs (fst (process_csv_files files)) 0))
           (name (cols (fst (process_csv_files files)) 0)) = true.
Proof.
  exact (proj1 primary_key_heuristic
           [[column_row "foundation.financial.deposits_v4.deposits_id"]] 0 0
           (or_introl eq_refl) (or_introl eq_refl)).
Defined.

(** In the graph [process_csv_files] returns, each end of every
    relationship is a table of the graph and a column of that table, by
    canonical id. *)
Lemma discovered_ends_in_graph (files : list (list Row)) :
  let '(s, g) := process_csv_files files in
  forall r, In r (md_relationships g) ->
    (exists t c,
       In t (md_tables g) /\ In c (columns (tabs s t)) /\
       t_canonical_id (tabs s t) = source_table r /\
       canonical_id (cols s c) = source_column r) /\
    (exists t c,
       In t (md_tables g) /\ In c (columns (tabs s t)) /\
       t_canonical_id (tabs s t) = target_table r /\
       canonical_id (cols s c) = target_column r).
Proof.
  unfold process_csv_files.
  destruct (convert 0 _ _) as [s1 objs].
  pose proof (discover_relationships_trace objs s1) as [Hrels Hflag].
  pose proof (flagged_same_keys s1 _ s1 _ (same_keys_refl s1) Hflag) as [Htabs Hkeys].
  destruct (discover_relationships objs s1) as [s' rels].
  cbn [fst snd md_tables md_relationships] in *.
  intros r Hr. rewrite Hrels in Hr.
  apply in_map_iff in Hr as ([col r'] & Heq & Hin). cbn [snd] in Heq. subst r'.
  apply in_trace in Hin
    as (src & tgt & tcol & (Hsrc & Hcol & Htgt & Htcol & _) & ->).
  split.
  - exists src, col. rewrite !Htabs, (proj2 (Hkeys col)). repeat split; assumption.
  - exists tgt, tcol. rewrite !Htabs, (proj2 (Hkeys tcol)). repeat split; assumption.
Qed.

(** C4. In both modes every identifier a relationship of the serialized
    graph refers to exists among the tables of that graph. In the graph
    [process_csv_files] builds from any files, each end of every
    discovered relationship is the canonical id of a table of the graph
    and the canonical id of a column of that table. In the model of
    [TestSchema.py], which has names and no canonical ids, each end of
    every curated relationship is the name of a table of the model and
    the name of a column among its tables. *)
Theorem relationships_reference_graph :
  (forall files : list (list Row),
     let '(s, g) := process_csv_files files in
     forall r, In r (md_relationships g) ->
       (exists t c,
          In t (md_tables g) /\ In c (columns (tabs s t)) /\
          t_canonical_id (tabs s t) = source_table r /\
          canonical_id (cols s c) = source_column r) /\
       (exists t c,
          In t (md_tables g) /\ In c (columns (tabs s t)) /\
          t_canonical_id (tabs s t) = target_table r /\
          canonical_id (cols s c) = target_column r)) /\
  (forall r : TestSchema.RelationshipSchema,
     In r (TestSchema.md_relationships TestSchema.metadata_model) ->
     TestSchema.known_table TestSchema.metadata_model (TestSchema.source_table r) = true /\
     TestSchema.known_column TestSchema.metadata_model (TestSchema.source_column r) = true /\
     TestSchema.known_table TestSchema.metadata_model (TestSchema.target_table r) = true /\
     TestSchema.known_column TestSchema.metadata_model (TestSchema.target_column r) = true).
Proof.
  split.
  - intros files. pose proof (discovered_ends_in_graph files) as H.
    destruct (process_csv_files files) as [s g]. exact H.
  - intros r Hr.
    assert (Hall : forallb
              (fun r =>
                 TestSchema.known_table TestSchema.metadata_model (TestSchema.source_table r)
                 && TestSchema.known_column TestSchema.metadata_model (TestSchema.source_column r)
                 && TestSchema.known_table TestSchema.metadata_model (TestSchema.target_table r)
                 && TestSchema.known_column TestSchema.metadata_model (TestSchema.target_column r))
              (TestSchema.md_relationships TestSchema.metadata_model) = true)
      by (vm_compute; reflexivity).
    rewrite forallb_forall in Hall. specialize (Hall r Hr).
    apply andb_true_iff in Hall as [Hall H4]. apply andb_true_iff in Hall as [Hall H3].
    apply andb_true_iff in Hall as [H1 H2]. auto.
Qed.

Lemma relationships_reference_graph_witness :
  let r := {| TestSchema.source_table := "foundation_financial_deposits";
              TestSchema.source_column := "account_id";
              TestSchema.target_table := "foundation_account_verified_user_details";
              TestSchema.target_column := "user_id";
              TestSchema.relationship_type := "belongs_to";
              TestSchema.r_description :=
                "Deposits are made into accounts owned by verified users." |} in
  TestSchema.known_table TestSchema.metadata_model (TestSchema.source_table r) = true /\
  TestSchema.known_column TestSchema.metadata_model (TestSchema.source_column r) = true /\
  TestSchema.known_table TestSchema.metadata_model (TestSchema.target_table r) = true /\
  TestSchema.known_column TestSchema.metadata_model (TestSchema.target_column r) = true.
Proof.
  intros r. apply (proj2 relationships_reference_graph r).
  vm_compute. left. reflexivity.
Defined.

(** The invariant is about existence, not ownership: the source column
    of the first, second and last curated relationship, [account_id], is
    a column of the model but of no table with the name of their source
    table. The other three source columns, and every target column, are
    columns of the table named with them. *)
Remark curated_source_columns_ownership :
  map (fun r => (TestSchema.source_table r, TestSchema.source_column r,
                 TestSchema.owned_column TestSchema.metadata_model
                   (TestSchema.source_table r) (TestSchema.source_column r)))
      (TestSchema.md_relationships TestSchema.metadata_model)
  = [ ("foundation_financial_deposits", "account_id", false);
      ("foundation_financial_withdrawals", "account_id", false);
      ("foundation_financial_ledger_account_balances", "account_id", true);
      ("foundation_account_authgateway_session_created_events", "user_id", true);
      ("foundation_account_verification_attempt", "user_id", true);
      ("foundation_financial_worldpay_transactions", "account_id", false) ] /\
  forallb (fun r => TestSchema.owned_column TestSchema.metadata_model
                      (TestSchema.target_table r) (TestSchema.target_column r))
          (TestSchema.md_relationships TestSchema.metadata_model) = true.
Proof. vm_compute. repeat split. Qed.

End GraphBuilder.

(** ** Table type and domain *)

Module Classification.
Import Py DataDictionaries GraphFacts.

(** C8, as the claim has it, fails on both paths. [get_table_type] looks
    for [_enriched], underscore included: a name with [enriched] and no
    underscore before it is RAW. The graph builder tests the name as it is
    written: an upper-case [ENRICHED] is RAW. *)
Lemma enriched_marker_missed :
  (contains "enriched" (lower "foundation.enriched.deposits") = true /\
   TestSchema.get_table_type "foundation.enriched.deposits" = "RAW") /\
  (contains "enriched" (lower "FOUNDATION.FINANCIAL.DEPOSITS_ENRICHED_V1") = true /\
   first_table_class
     [[column_row "FOUNDATION.FINANCIAL.DEPOSITS_ENRICHED_V1.USER_ID"]]
   = ("FOUNDATION.FINANCIAL.DEPOSITS_ENRICHED_V1", "RAW", "Account")).
Proof. vm_compute. repeat split. Qed.

(** C8, amended. [get_table_type] returns ENRICHED exactly when the name
    in lower case contains [_enriched], and RAW otherwise. In the graph
    [process_csv_files] returns, a table is ENRICHED exactly when its
    physical name, as written, contains [enriched], and RAW otherwise. *)
Theorem table_type_classification :
  (forall x,
     (TestSchema.get_table_type x = "ENRICHED" <->
      contains "_enriched" (lower x) = true) /\
     (TestSchema.get_table_type x = "RAW" <->
      contains "_enriched" (lower x) = false)) /\
  (forall files,
     let '(s, g) := process_csv_files files in
     forall t, In t (md_tables g) ->
       (table_type (tabs s t) = "ENRICHED" <->
        contains "enriched" (physical_name (tabs s t)) = true) /\
       (table_type (tabs s t) = "RAW" <->
        contains "enriched" (physical_name (tabs s t)) = false)).
Proof.
  split.
  - intros x. unfold TestSchema.get_table_type.
    destruct (contains "_enriched" (lower x)); repeat split; congruence.
  - intros files. pose proof (graph_tables files) as H.
    destruct (process_csv_files files) as [s g].
    intros t Ht. destruct (H t Ht) as (k & e & -> & _).
    cbn [new_table table_type physical_name].
    destruct (contains "enriched" (phys e)); repeat split; congruence.
Qed.

Lemma table_type_classification_witness :
  TestSchema.get_table_type "foundation.financial.Deposits_Enriched_v1" = "ENRICHED".
Proof.
  apply (proj1 (proj1 table_type_classification _)). reflexivity.
Defined.

(** C9, as the claim has it, fails in the graph builder: a table whose
    name has neither keyword gets the domain [Account], not [General]. *)
Lemma no_general_domain_in_graph :
  contains "financial" (lower "foundation.marketing.campaigns") = false /\
  contains "account" (lower "foundation.marketing.campaigns") = false /\
  first_table_class [[column_row "foundation.marketing.campaigns.campaign_id"]]
  = ("foundation.marketing.campaigns", "RAW", "Account").
Proof. vm_compute. repeat split. Qed.

(** C9, amended. [assign_domain] checks [financial], then [account], on
    the name in lower case; the first that occurs decides, and with
    neither the domain is [General]. In the graph [process_csv_files]
    returns, the domain is [Finance] when the physical name, as written,
    contains [financial], and [Account] in every other case. *)
Theorem domain_assignment :
  (forall x,
     (contains "financial" (lower x) = true ->
      TestSchema.assign_domain x = "Finance") /\
     (contains "financial" (lower x) = false ->
      contains "account" (lower x) = true ->
      TestSchema.assign_domain x = "Account") /\
     (contains "financial" (lower x) = false ->
      contains "account" (lower x) = false ->
      TestSchema.assign_domain x = "General")) /\
  (forall files,
     let '(s, g) := process_csv_files files in
     forall t, In t (md_tables g) ->
       (contains "financial" (physical_name (tabs s t)) = true ->
        domain (tabs s t) = "Finance") /\
       (contains "financial" (physical_name (tabs s t)) = false ->
        domain (tabs s t) = "Account")).
Proof.
  split.
  - intros x. unfold TestSchema.assign_domain.
    repeat split; intros; repeat match goal with H : _ = _ |- _ => rewrite H end;
      reflexivity.
  - intros files. pose proof (graph_tables files) as H.
    destruct (process_csv_files files) as [s g].
    intros t Ht. destruct (H t Ht) as (k & e & -> & _).
    cbn [new_table domain physical_name].
    split; intros ->; reflexivity.
Qed.

Lemma domain_assignment_witness :
  TestSchema.assign_domain "foundation.financial.account_ledger" = "Finance" /\
  TestSchema.assign_domain "foundation.account.verified_user_details" = "Account" /\
  TestSchema.assign_domain "foundation.marketing.campaigns" = "General".
Proof.
  split; [|split].
  - apply (proj1 (proj1 domain_assignment _)). reflexivity.
  - apply (proj1 (proj2 (proj1 domain_assignment _))); reflexivity.
  - apply (proj2 (proj2 (proj1 domain_assignment _))); reflexivity.
Defined.

End Classification.

(** ** The table-name normalizers *)

Module Normalizer.
Import Py NormalizerFacts.

(** C5, as the claim has it, fails for [TestSchema.normalize_table_name]:
    the dots become underscores after the versions are deleted, so a
    segment [.v2] is left as [_v2], which a second pass deletes. *)
Lemma testschema_not_idempotent :
  TestSchema.normalize_table_name "foundation.v2.deposits" = "foundation_v2_deposits" /\
  TestSchema.normalize_table_name "foundation_v2_deposits" = "foundation_deposits" /\
  TestSchema.normalize_table_name
    (TestSchema.normalize_table_name "foundation.v2.deposits")
  <> TestSchema.normalize_table_name "foundation.v2.deposits".
Proof. vm_compute. repeat split. discriminate. Qed.

(** C5, amended. [data_dictionaries_schema.normalize_table_name] is
    idempotent on every name. [TestSchema.normalize_table_name] returns
    its own result on every canonical name in which no [_v<digit>] and no
    [_enriched] is left. *)
Theorem normalize_table_name_idempotent (x : string) :
  DataDictionaries.normalize_table_name (DataDictionaries.normalize_table_name x) =
  DataDictionaries.normalize_table_name x /\
  (TestSchema.has_version (TestSchema.normalize_table_name x) = false ->
   contains "_enriched" (TestSchema.normalize_table_name x) = false ->
   TestSchema.normalize_table_name (TestSchema.normalize_table_name x) =
   TestSchema.normalize_table_name x).
Proof.
  split; [apply datadict_idempotent | apply testschema_idempotent_when_clean].
Qed.

Lemma normalize_table_name_idempotent_witness :
  TestSchema.normalize_table_name
    (TestSchema.normalize_table_name "foundation.financial.deposits_enriched_v1") =
  TestSchema.normalize_table_name "foundation.financial.deposits_enriched_v1".
Proof.
  apply (proj2 (normalize_table_name_idempotent
                  "foundation.financial.deposits_enriched_v1")); reflexivity.
Defined.

(** The ten names of [raw_metadata] are among those: on each of them
    [TestSchema.normalize_table_name] is idempotent. *)
Lemma testschema_idempotent_on_fixture :
  Forall (fun t =>
            TestSchema.normalize_table_name
              (TestSchema.normalize_table_name (TestSchema.raw_table_name t)) =
            TestSchema.normalize_table_name (TestSchema.raw_table_name t))
         TestSchema.raw_metadata.
Proof.
  unfold TestSchema.raw_metadata.
  repeat (constructor; [vm_compute; reflexivity|]). constructor.
Qed.

(** C6, as the claim has it, fails for
    [data_dictionaries_schema.normalize_table_name]: a name that holds none
    of the eight target tables keeps its suffix, and [ledger_lines] is a
    target only with [_enriched] after it, so the two names below, which
    differ only by their suffixes, get two canonical names. *)
Lemma datadict_suffix_kept :
  DataDictionaries.normalize_table_name "foundation.financial.ledger_lines_v4"
    = "ledger_lines_v4" /\
  DataDictionaries.normalize_table_name "foundation.financial.ledger_lines_enriched_v1"
    = "ledger_lines" /\
  DataDictionaries.normalize_table_name "foundation.financial.ledger_lines_v4" <>
  DataDictionaries.normalize_table_name "foundation.financial.ledger_lines_enriched_v1".
Proof. vm_compute. repeat split. discriminate. Qed.

(** C6, amended. [TestSchema.normalize_table_name] gives a name followed
    by [_enriched], by a version [_v<digits>], or by both, the canonical
    name of the name alone. Both normalizers give the raw and the enriched
    deposits name one canonical name.
    [data_dictionaries_schema.normalize_table_name] strips no suffix: it
    looks for the entries of [TARGET_TABLES], in their order, in the last
    segment of the name, in lower case and without quotes, and gives the
    name the first entry found, without its own [_v1] and [_enriched],
    whatever comes before or after the entry; [deposits_enriched] is
    never the first found, since [deposits] is looked for before it. A
    name with no entry in its last segment keeps that segment as it is,
    suffixes included. So [withdrawals_v4] and [withdrawals_enriched_v4]
    get one name, and so do [ledger_lines] and [ledger_lines_enriched_v1],
    while [ledger_lines_v4] keeps its own. *)
Theorem normalize_table_name_stable :
  (forall b e v,
     TestSchema.enriched_marker e -> TestSchema.version_suffix v ->
     TestSchema.normalize_table_name (b +:+ e +:+ v) =
     TestSchema.normalize_table_name b) /\
  TestSchema.normalize_table_name "foundation.financial.deposits_v4" =
  TestSchema.normalize_table_name "foundation.financial.deposits_enriched_v1" /\
  DataDictionaries.normalize_table_name "foundation.financial.deposits_v4" =
  DataDictionaries.normalize_table_name "foundation.financial.deposits_enriched_v1" /\
  (forall x,
     let n := DataDictionaries.bare_name x in
     DataDictionaries.normalize_table_name x =
     if contains "deposits" n then "deposits"
     else if contains "ledger_account_balances_v1" n then "ledger_account_balances"
     else if contains "ledger_lines_enriched" n then "ledger_lines"
     else if contains "verification_attempt" n then "verification_attempt"
     else if contains "verified_user_details" n then "verified_user_details"
     else if contains "withdrawals" n then "withdrawals"
     else if contains "worldpay_transactions" n then "worldpay_transactions"
     else n) /\
  DataDictionaries.normalize_table_name "foundation.financial.withdrawals_v4" =
  DataDictionaries.normalize_table_name "foundation.financial.withdrawals_enriched_v4" /\
  DataDictionaries.normalize_table_name "foundation.financial.ledger_lines" =
  DataDictionaries.normalize_table_name "foundation.financial.ledger_lines_enriched_v1".
Proof.
  split; [exact testschema_suffix_stable|].
  split; [vm_compute; reflexivity|]. split; [vm_compute; reflexivity|].
  split; [|split; vm_compute; reflexivity].
  intros x n. subst n. destruct (bare_name_fixed x) as [_ Hdot].
  unfold DataDictionaries.normalize_table_name.
  fold (DataDictionaries.bare_name x).
  set (n := DataDictionaries.bare_name x) in *.
  unfold first_match, DataDictionaries.TARGET_TABLES. cbn [find].
  destruct (contains "deposits" n) eqn:E1; [vm_compute; reflexivity|].
  destruct (contains "deposits_enriched" n) eqn:E2.
  { apply (contains_app_l "deposits" "_enriched") in E2. congruence. }
  destruct (contains "ledger_account_balances_v1" n); [vm_compute; reflexivity|].
  destruct (contains "ledger_lines_enriched" n); [vm_compute; reflexivity|].
  destruct (contains "verification_attempt" n); [vm_compute; reflexivity|].
  destruct (contains "verified_user_details" n); [vm_compute; reflexivity|].
  destruct (contains "withdrawals" n); [vm_compute; reflexivity|].
  destruct (contains "worldpay_transactions" n); [vm_compute; reflexivity|].
  exact Hdot.
Qed.

Lemma normalize_table_name_stable_witness :
  TestSchema.normalize_table_name
    ("foundation.financial.deposits" +:+ "_enriched" +:+ "_v1") =
  TestSchema.normalize_table_name "foundation.financial.deposits".
Proof.
  apply (proj1 normalize_table_name_stable).
  - constructor.
  - apply (TestSchema.versioned "1" ""); reflexivity.
Defined.

End Normalizer.

(** ** The model-output contract *)

Module ModelOutput.
Import RunPromptGeneration.

(** C3, as the claim has it, fails: [governanceMarkdown] is not one of the
    aliases of the governance key, and the call raises. *)
Lemma governanceMarkdown_not_an_alias :
  normalize_model_output (raw_response "governanceMarkdown") "deposits" =
  RuntimeError "Missing governance_doc_markdown in model output for table deposits".
Proof. vm_compute. reflexivity. Qed.

(** C3, amended. Given the raw response with the governance text under
    the alias [governanceDocMarkdown] and the terms under [addedTerms],
    the call returns the record with the text, the sentinel delta and the
    terms; with the text under [governanceMarkdown] it raises. *)
Theorem normalize_model_output_aliases (table_name : string) :
  normalize_model_output (raw_response "governanceDocMarkdown") table_name =
  Return expected /\
  normalize_model_output (raw_response "governanceMarkdown") table_name =
  RuntimeError ("Missing governance_doc_markdown in model output for table " +:+ table_name).
Proof. split; vm_compute; reflexivity. Qed.

End ModelOutput.

(** ** Facts about the model-output contract *)

Module OutputContractFacts.
Import Py RunPromptGeneration OutputContract.

Lemma record_eq (m : gmap string value) g d t :
  m !! "governance_doc_markdown" = Some g ->
  m !! "delta_ontology_ttl" = Some d ->
  m !! "new_terms" = Some t ->
  (forall k, k <> "governance_doc_markdown" -> k <> "delta_ontology_ttl" ->
             k <> "new_terms" -> m !! k = None) ->
  m = record g d t.
Proof.
  intros Hg Hd Ht Hk. apply map_eq. intros k. unfold record.
  destruct (decide (k = "governance_doc_markdown")) as [->|H1].
  { now rewrite lookup_insert_eq. }
  rewrite lookup_insert_ne by congruence.
  destruct (decide (k = "delta_ontology_ttl")) as [->|H2].
  { now rewrite lookup_insert_eq. }
  rewrite lookup_insert_ne by congruence.
  destruct (decide (k = "new_terms")) as [->|H3].
  { now rewrite lookup_insert_eq. }
  rewrite lookup_insert_ne by congruence. rewrite lookup_empty. now apply Hk.
Qed.

(** Rewrites the lookups of the three required keys in a map built by
    inserting them. *)
Ltac required_keys :=
  repeat first
    [ rewrite lookup_insert_eq
    | rewrite lookup_insert_ne by discriminate
    | rewrite lookup_empty ].

(** [normalize_model_output] in closed form: it raises, naming the
    table, when no alias of the governance key is a key of the response
    or the first one that is has a blank text; otherwise it returns the
    record of exactly three keys, with the governance text found, the
    delta found or the sentinel, and the terms found as a list. *)
Lemma normalize_model_output_closed_form (output : gmap string value) (table_name : string) :
  normalize_model_output output table_name =
  match governance_of output with
  | Some g =>
      if blank g then missing table_name
      else Return (record g (delta_of output) (terms_of output))
  | None => missing table_name
  end.
Proof.
  unfold normalize_model_output, governance_of, delta_of, terms_of, missing.
  unfold variants_of, key_map, first_match.
  cbn [fold_left find fst snd String.eqb Ascii.eqb Bool.eqb].
  generalize (first_variant output
                ["governance_doc_markdown"; "governance_markdown"; "governanceDocMarkdown"]).
  generalize (first_variant output
                ["delta_ontology_ttl"; "delta_ontology"; "deltaOntologyTtl"; "delta_ttl";
                 "deltaOntologyTTL"]).
  generalize (first_variant output ["new_terms"; "newTerms"; "added_terms"; "addedTerms"]).
  intros on od og. unfold missing_or.
  destruct og as [g|], od as [d|], on as [n|]; required_keys;
    repeat match goal with
           | |- context [is_none ?v] => destruct (is_none v) eqn:?; required_keys
           | |- context [blank ?v] => destruct (blank v) eqn:?; required_keys
           | |- context [is_list ?v] => destruct (is_list v) eqn:?; required_keys
           end;
    try reflexivity; try (simpl in *; discriminate);
    f_equal; apply record_eq; required_keys; try reflexivity;
    intros; repeat (rewrite lookup_insert_ne by congruence); apply lookup_empty.
Qed.

Lemma delta_of_not_blank output : blank (delta_of output) = false.
Proof.
  unfold delta_of.
  destruct (first_variant output _) as [v|]; [|reflexivity].
  destruct (blank v) eqn:E; [reflexivity | exact E].
Qed.

Lemma terms_of_list output : exists items, terms_of output = VList items.
Proof.
  unfold terms_of.
  destruct (first_variant output _) as [v|]; [|now exists []].
  destruct (is_none v); [now exists []|].
  destruct v; cbn [is_list]; eauto.
Qed.

Lemma returned_record output table_name d :
  normalize_model_output output table_name = Return d ->
  exists g, governance_of output = Some g /\ blank g = false /\
            d = record g (delta_of output) (terms_of output).
Proof.
  rewrite normalize_model_output_closed_form. unfold missing.
  destruct (governance_of output) as [g|]; [|discriminate].
  destruct (blank g) eqn:E; [discriminate|].
  intros [= <-]. now exists g.
Qed.

(** X1. A record the call returns has the three required keys and no
    other; its governance text and its delta are not blank, and its terms
    are a list. *)
Theorem normalize_model_output_shape
    (output : gmap string value) (table_name : string) (d : gmap string value) :
  normalize_model_output output table_name = Return d ->
  dom d = {["governance_doc_markdown"; "delta_ontology_ttl"; "new_terms"]} /\
  (exists g, d !! "governance_doc_markdown" = Some g /\ blank g = false) /\
  (exists t, d !! "delta_ontology_ttl" = Some t /\ blank t = false) /\
  (exists items, d !! "new_terms" = Some (VList items)).
Proof.
  intros (g & _ & Hg & ->)%returned_record.
  destruct (terms_of_list output) as [items Hitems].
  unfold record. split; [|split; [|split]].
  - rewrite !dom_insert_L, dom_empty_L. set_solver.
  - exists g. now required_keys.
  - exists (delta_of output). required_keys. split; [reflexivity | apply delta_of_not_blank].
  - exists items. required_keys. now rewrite Hitems.
Qed.

Lemma normalize_model_output_shape_witness :
  dom expected = {["governance_doc_markdown"; "delta_ontology_ttl"; "new_terms"]} /\
  (exists g, expected !! "governance_doc_markdown" = Some g /\ blank g = false) /\
  (exists t, expected !! "delta_ontology_ttl" = Some t /\ blank t = false) /\
  (exists items, expected !! "new_terms" = Some (VList items)).
Proof.
  apply (normalize_model_output_shape (raw_response "governanceDocMarkdown") "deposits").
  vm_compute. reflexivity.
Defined.

Lemma first_variant_head (m : gmap string value) k ks v :
  m !! k = Some v -> first_variant m (k :: ks) = Some v.
Proof.
  intros H. unfold first_variant, first_match. cbn [find].
  rewrite bool_decide_eq_true_2 by (rewrite H; eauto). exact H.
Qed.

(** X2. The call is idempotent: a record it returns is returned as it is
    when it is given back to the call, for any table name. *)
Theorem normalize_model_output_idempotent
    (output : gmap string value) (table_name again : string) (d : gmap string value) :
  normalize_model_output output table_name = Return d ->
  normalize_model_output d again = Return d.
Proof.
  intros (g & _ & Hg & ->)%returned_record.
  destruct (terms_of_list output) as [items Hitems].
  pose proof (delta_of_not_blank output) as Hd.
  rewrite Hitems. revert Hd. generalize (delta_of output) as t. intros t Ht.
  rewrite normalize_model_output_closed_form.
  unfold governance_of, delta_of, terms_of, variants_of, key_map, first_match.
  cbn [find fst snd String.eqb Ascii.eqb Bool.eqb].
  rewrite (first_variant_head _ _ _ g) by (unfold record; now required_keys).
  rewrite (first_variant_head _ _ _ t) by (unfold record; now required_keys).
  rewrite (first_variant_head _ _ _ (VList items)) by (unfold record; now required_keys).
  rewrite Hg, Ht. reflexivity.
Qed.

Lemma normalize_model_output_idempotent_witness :
  normalize_model_output expected "withdrawals" = Return expected.
Proof.
  apply (normalize_model_output_idempotent
           (raw_response "governanceDocMarkdown") "deposits" "withdrawals").
  vm_compute. reflexivity.
Defined.

Lemma first_variant_insert_other (m : gmap string value) k v ks :
  ~ In k ks -> first_variant (<[k := v]> m) ks = first_variant m ks.
Proof.
  intros Hk. unfold first_variant, first_match.
  induction ks as [|a ks IH]; [reflexivity|].
  cbn [find]. assert (Hne : k <> a) by (intros ->; apply Hk; now left).
  rewrite lookup_insert_ne by exact Hne.
  destruct (bool_decide (is_Some (m !! a))).
  - now rewrite lookup_insert_ne.
  - apply IH. intros H. apply Hk. now right.
Qed.

(** X3. A key of the response that is none of the spellings of
    [key_map] has no effect: with it set to any value, the call returns or
    raises what it does without it. *)
Theorem normalize_model_output_ignores_unknown
    (output : gmap string value) (table_name k : string) (v : value) :
  ~ In k known_spellings ->
  normalize_model_output (<[k := v]> output) table_name =
  normalize_model_output output table_name.
Proof.
  intros Hk. rewrite !normalize_model_output_closed_form.
  unfold governance_of, delta_of, terms_of.
  rewrite !first_variant_insert_other; [reflexivity|..];
    intros H; apply Hk; revert H; vm_compute; tauto.
Qed.

Lemma normalize_model_output_ignores_unknown_witness :
  normalize_model_output
    (<["confidence" := VFloat "0.9"]> (raw_response "governanceDocMarkdown")) "deposits" =
  normalize_model_output (raw_response "governanceDocMarkdown") "deposits".
Proof.
  apply normalize_model_output_ignores_unknown.
  vm_compute. intros H. repeat (destruct H as [H|H]; [discriminate H|]). exact H.
Defined.

Lemma first_variant_insert_later (m : gmap string value) k ks a v w :
  m !! k = Some v -> a <> k ->
  first_variant (<[a := w]> m) (k :: ks) = first_variant m (k :: ks).
Proof.
  intros Hk Hne.
  rewrite (first_variant_head m k ks v Hk).
  apply first_variant_head. now rewrite lookup_insert_ne.
Qed.

(** X4. The required key itself comes first: when the response has it,
    what the response holds under another alias of that key has no
    effect. *)
Theorem normalize_model_output_prefers_required_key
    (output : gmap string value) (table_name key alias : string) (v w : value) :
  In key ["governance_doc_markdown"; "delta_ontology_ttl"; "new_terms"] ->
  In alias (variants_of key) -> alias <> key ->
  output !! key = Some v ->
  normalize_model_output (<[alias := w]> output) table_name =
  normalize_model_output output table_name.
Proof.
  intros Hkey Halias Hne Hv. rewrite !normalize_model_output_closed_form.
  unfold governance_of, delta_of, terms_of.
  assert (Hother : forall key', In key' ["governance_doc_markdown"; "delta_ontology_ttl"; "new_terms"] ->
            key' <> key -> ~ In alias (variants_of key')).
  { intros key' Hk' Hd Hin.
    repeat (destruct Hkey as [<-|Hkey]; [|]); try destruct Hkey;
    repeat (destruct Hk' as [<-|Hk']; [|]); try destruct Hk'; try congruence;
    vm_compute in Halias, Hin;
    repeat (destruct Halias as [<-|Halias]; [|]); try destruct Halias;
    repeat (destruct Hin as [Hin|Hin]; [discriminate Hin|]); destruct Hin. }
  assert (Hsame : first_variant (<[alias := w]> output) (variants_of key) =
                  first_variant output (variants_of key)).
  { repeat (destruct Hkey as [<-|Hkey]; [|]); try destruct Hkey;
      now apply (first_variant_insert_later _ _ _ _ v). }
  destruct Hkey as [<-|[<-|[<-|[]]]].
  - rewrite Hsame.
    rewrite !first_variant_insert_other by (apply Hother; [simpl; tauto | discriminate]).
    reflexivity.
  - rewrite Hsame.
    rewrite !first_variant_insert_other by (apply Hother; [simpl; tauto | discriminate]).
    reflexivity.
  - rewrite Hsame.
    rewrite !first_variant_insert_other by (apply Hother; [simpl; tauto | discriminate]).
    reflexivity.
Qed.

Lemma normalize_model_output_prefers_required_key_witness :
  normalize_model_output
    (<["newTerms" := VStr "ignored"]>
       (<["new_terms" := VList [VStr "a"]]> (raw_response "governanceDocMarkdown")))
    "deposits" =
  normalize_model_output
    (<["new_terms" := VList [VStr "a"]]> (raw_response "governanceDocMarkdown")) "deposits".
Proof.
  apply (normalize_model_output_prefers_required_key _ _ "new_terms" "newTerms"
           (VList [VStr "a"])).
  - vm_compute. tauto.
  - vm_compute. tauto.
  - discriminate.
  - vm_compute. reflexivity.
Defined.

End OutputContractFacts.

(** ** Facts about the rows and the graph *)

Module IngestFacts.
Import Py PyFacts DataDictionaries DiscoveryFacts GraphFacts GraphNotions.

Lemma has_key_in k d : has_key k d = true <-> In k (map fst d).
Proof.
  induction d as [|[k' e] d IH]; cbn [has_key map fst In]; [split; [discriminate | tauto]|].
  rewrite orb_true_iff, IH, String.eqb_eq. split; intros [H|H]; auto.
Qed.

Lemma update_keys k f d : map fst (update k f d) = map fst d.
Proof.
  induction d as [|[k' e] d IH]; [reflexivity|]. cbn [update].
  destruct (String.eqb k k'); cbn [map fst]; [reflexivity | now rewrite IH].
Qed.

Lemma update_desc_listed k v d :
  listed_columns
    (update k (fun e => {| phys := phys e; e_cols := e_cols e; desc := v |}) d)
  = listed_columns d.
Proof.
  unfold listed_columns.
  induction d as [|[k' e] d IH]; [reflexivity|]. cbn [update].
  destruct (String.eqb k k'); cbn [flat_map snd e_cols]; [reflexivity | now rewrite IH].
Qed.

Lemma ensured_has_key k p d : has_key k (ensured k p d) = true.
Proof.
  unfold ensured. destruct (has_key k d) eqn:E; [exact E|].
  apply has_key_in. rewrite map_app, in_app_iff. right. now left.
Qed.

Lemma ensured_listed k p d : listed_columns (ensured k p d) = listed_columns d.
Proof.
  unfold ensured, listed_columns. destruct (has_key k d); [reflexivity|].
  rewrite flat_map_app. cbn. now rewrite app_nil_r.
Qed.

(** [process_row], with the skip test and the entries named. *)
Lemma process_row_cases g row :
  process_row g row =
  if well_keyed row
  then
    let k := normalize_table_name (phys_of row) in
    let d := ensured k (phys_of row) (all_tables g) in
    if contains "otype=table" (al_datadict_item_properties row)
    then {| store := store g; next_col := next_col g;
            all_tables :=
              update k (fun e => {| phys := phys e; e_cols := e_cols e;
                                    desc := row_description row |}) d |}
    else {| store := put_col (next_col g) (new_column k row) (store g);
            next_col := S (next_col g);
            all_tables :=
              update k (fun e => {| phys := phys e; e_cols := e_cols e ++ [next_col g];
                                    desc := desc e |}) d |}
  else g.
Proof.
  unfold process_row, well_keyed, phys_of, ensured.
  destruct (String.eqb (key row) "" || negb (contains "." (key row))); reflexivity.
Qed.

Lemma lower_char_not_dot c : is_not "." c = true -> is_not "." (lower_char c) = true.
Proof. destruct c as [[] [] [] [] [] [] [] []]; vm_compute; congruence. Qed.

Lemma all_chars_lower_undotted s :
  all_chars (is_not ".") s = true -> all_chars (is_not ".") (lower s) = true.
Proof.
  induction s as [|c r IH]; [reflexivity|]. cbn [all_chars lower].
  intros [Hc Hr]%andb_true_iff. now rewrite (lower_char_not_dot c Hc), IH.
Qed.

Lemma all_chars_lstrip P s : all_chars P s = true -> all_chars P (lstrip s) = true.
Proof.
  induction s as [|c r IH]; [reflexivity|]. cbn [all_chars lstrip].
  intros H. destruct (is_space c); [|exact H].
  apply andb_true_iff in H as [_ H]. auto.
Qed.

Lemma all_chars_rstrip P s : all_chars P s = true -> all_chars P (rstrip s) = true.
Proof.
  induction s as [|c r IH]; [reflexivity|]. cbn [all_chars rstrip].
  intros [Hc Hr]%andb_true_iff. specialize (IH Hr).
  destruct (rstrip r) as [|c' r'].
  - destruct (is_space c); [reflexivity|]. cbn [all_chars]. now rewrite Hc.
  - cbn [all_chars] in *. now rewrite Hc, IH.
Qed.

Lemma all_chars_strip P s : all_chars P s = true -> all_chars P (strip s) = true.
Proof. intros H. now apply all_chars_rstrip, all_chars_lstrip. Qed.

Lemma all_chars_true s : all_chars (fun _ => true) s = true.
Proof. induction s as [|c r IH]; [reflexivity | exact IH]. Qed.

Lemma new_column_fresh k row : fresh_column_of k (new_column k row).
Proof.
  split; [reflexivity|]. split; [|reflexivity].
  cbn [new_column name]. unfold normalize_column_name.
  apply all_chars_lower_undotted, all_chars_strip.
  apply (last_part_split (fun _ => true)), all_chars_true.
Qed.

Lemma process_row_well_formed g row : well_formed g -> well_formed (process_row g row).
Proof.
  intros (Hnd & Hfk & Hent). rewrite process_row_cases.
  destruct (well_keyed row); [|exact (conj Hnd (conj Hfk Hent))].
  cbv zeta.
  set (k := normalize_table_name (phys_of row)).
  assert (Hd : NoDup (map fst (ensured k (phys_of row) (all_tables g))) /\
               forall k' e, In (k', e) (ensured k (phys_of row) (all_tables g)) ->
                 k' = normalize_table_name (phys e) /\
                 forall l, In l (e_cols e) ->
                   l < next_col g /\ fresh_column_of k' (cols (store g) l)).
  { unfold ensured. destruct (has_key k (all_tables g)) eqn:E; [now split|]. split.
    - rewrite map_app. cbn [map fst]. apply NoDup_app. split; [exact Hnd|]. split.
      + intros x Hx [<-|[]]%list_elem_of_In. apply list_elem_of_In in Hx.
        apply has_key_in in Hx. congruence.
      + apply NoDup_singleton.
    - intros k' e [Hin|[Hin|[]]]%in_app_or; [now apply Hent|].
      injection Hin as <- <-. cbn [phys e_cols]. split; [reflexivity | intros l []]. }
  destruct Hd as [Hnd' Hent'].
  set (d := ensured k (phys_of row) (all_tables g)) in *. clearbody d.
  destruct (contains "otype=table" (al_datadict_item_properties row)).
  - split; [|split]; cbn [all_tables store next_col].
    + now rewrite update_keys.
    + exact Hfk.
    + intros k' e (e0 & Hin & [->|[-> ->]])%in_update; exact (Hent' _ _ Hin).
  - split; [|split]; cbn [all_tables store next_col put_col cols].
    + now rewrite update_keys.
    + intros l. destruct (Nat.eqb l (next_col g)); [reflexivity | apply Hfk].
    + intros k' e (e0 & Hin & Hor)%in_update.
      destruct (Hent' _ _ Hin) as [Hk Hcols].
      assert (Hold : forall l, In l (e_cols e0) ->
                S (next_col g) > l /\
                fresh_column_of k' (if Nat.eqb l (next_col g)
                                    then new_column k row else cols (store g) l)).
      { intros l Hl. destruct (Hcols l Hl) as [Hlt Hfresh]. split; [lia|].
        destruct (Nat.eqb_spec l (next_col g)); [lia | exact Hfresh]. }
      destruct Hor as [->|[-> ->]]; cbn [phys e_cols].
      * split; [exact Hk|]. intros l Hl. destruct (Hold l Hl). split; [lia | assumption].
      * split; [exact Hk|]. intros l [Hl|[<-|[]]]%in_app_or.
        -- destruct (Hold l Hl). split; [lia | assumption].
        -- split; [lia|]. rewrite Nat.eqb_refl. apply new_column_fresh.
Qed.

Lemma fold_rows_well_formed rows g :
  well_formed g -> well_formed (fold_left process_row rows g).
Proof.
  revert g. induction rows as [|row rows IH]; intros g Hg; [exact Hg|].
  cbn [fold_left]. apply IH, process_row_well_formed, Hg.
Qed.

Lemma ingest_well_formed files : well_formed (ingest files).
Proof.
  unfold ingest.
  assert (H0 : well_formed {| store := empty_store; next_col := 0; all_tables := [] |}).
  { split; [constructor|]. split; [reflexivity | intros k e []]. }
  revert H0. generalize {| store := empty_store; next_col := 0; all_tables := [] |}.
  induction files as [|file files IH]; intros g Hg; [exact Hg|].
  cbn [fold_left]. apply IH, fold_rows_well_formed, Hg.
Qed.

(** The graph [process_csv_files] returns, against what the row loops
    left: the tables are the entries turned into tables, in order, and
    the store is the loops' store with the discovered columns flagged. *)
Lemma graph_of_ingest files :
  let '(s, g) := process_csv_files files in
  Forall2 (fun t ke => tabs s t = new_table (fst ke) (snd ke))
          (md_tables g) (all_tables (ingest files)) /\
  exists s1,
    (forall l, cols s1 l = cols (store (ingest files)) l) /\
    md_relationships g = map snd (trace s1 (md_tables g)) /\
    flagged (map fst (trace s1 (md_tables g))) s1 s.
Proof.
  unfold process_csv_files. fold (ingest files).
  pose proof (convert_tables (all_tables (ingest files)) 0 (store (ingest files))) as Hconv.
  destruct (convert 0 (all_tables (ingest files)) (store (ingest files))) as [s1 objs].
  destruct Hconv as (Hcols & _ & _ & Hall).
  pose proof (discover_relationships_trace objs s1) as [Hrels Hflag].
  destruct (discover_relationships objs s1) as [s' rels]. cbn [fst snd md_tables md_relationships] in *.
  split.
  - destruct Hflag as [Htabs _].
    apply (Forall2_impl _ _ _ _ Hall). intros t ke H. now rewrite Htabs.
  - exists s1. auto.
Qed.

Lemma ingest_concat files :
  ingest files =
  fold_left process_row (concat files)
    {| store := empty_store; next_col := 0; all_tables := [] |}.
Proof.
  unfold ingest. generalize {| store := empty_store; next_col := 0; all_tables := [] |}.
  induction files as [|file files IH]; intros g; [reflexivity|].
  cbn [fold_left concat]. now rewrite fold_left_app, IH.
Qed.

Lemma process_row_keeps_keys g row k :
  In k (map fst (all_tables g)) -> In k (map fst (all_tables (process_row g row))).
Proof.
  intros Hk. rewrite process_row_cases.
  destruct (well_keyed row); [|exact Hk]. cbv zeta.
  assert (In k (map fst (ensured (normalize_table_name (phys_of row)) (phys_of row)
                           (all_tables g)))).
  { unfold ensured. destruct (has_key _ _); [exact Hk|].
    rewrite map_app, in_app_iff. now left. }
  destruct (contains "otype=table" _); cbn [all_tables]; now rewrite update_keys.
Qed.

Lemma process_row_adds_key g row :
  well_keyed row = true ->
  In (normalize_table_name (phys_of row)) (map fst (all_tables (process_row g row))).
Proof.
  intros Hw. rewrite process_row_cases, Hw. cbv zeta.
  destruct (contains "otype=table" _); cbn [all_tables]; rewrite update_keys;
    apply has_key_in, ensured_has_key.
Qed.

Lemma fold_rows_keeps_keys rows g k :
  In k (map fst (all_tables g)) ->
  In k (map fst (all_tables (fold_left process_row rows g))).
Proof.
  revert g. induction rows as [|row rows IH]; intros g Hk; [exact Hk|].
  cbn [fold_left]. now apply IH, process_row_keeps_keys.
Qed.

Lemma fold_rows_covers rows g row :
  In row rows -> well_keyed row = true ->
  In (normalize_table_name (phys_of row))
     (map fst (all_tables (fold_left process_row rows g))).
Proof.
  revert g. induction rows as [|row' rows IH]; intros g Hin Hw; [destruct Hin|].
  cbn [fold_left]. destruct Hin as [<-|Hin].
  - now apply fold_rows_keeps_keys, process_row_adds_key.
  - now apply IH.
Qed.

Lemma process_row_origin g row k e :
  In (k, e) (all_tables (process_row g row)) ->
  (exists e0, In (k, e0) (all_tables g) /\ phys e = phys e0) \/
  (well_keyed row = true /\ phys e = phys_of row).
Proof.
  rewrite process_row_cases.
  destruct (well_keyed row); [|intros H; left; now exists e]. cbv zeta.
  assert (Hens : forall e1,
            In (k, e1) (ensured (normalize_table_name (phys_of row)) (phys_of row)
                          (all_tables g)) ->
            (exists e0, In (k, e0) (all_tables g) /\ phys e1 = phys e0) \/
            (true = true /\ phys e1 = phys_of row)).
  { intros e1. unfold ensured. destruct (has_key _ _).
    - intros H. left. now exists e1.
    - intros [H|[H|[]]]%in_app_or; [left; now exists e1|].
      injection H as <- <-. now right. }
  destruct (contains "otype=table" _); cbn [all_tables];
    intros (e1 & Hin & [->|[-> ->]])%in_update; exact (Hens _ Hin).
Qed.

Lemma fold_rows_origin rows g k e :
  In (k, e) (all_tables (fold_left process_row rows g)) ->
  (exists e0, In (k, e0) (all_tables g) /\ phys e = phys e0) \/
  (exists row, In row rows /\ well_keyed row = true /\ phys e = phys_of row).
Proof.
  revert g. induction rows as [|row rows IH]; intros g; cbn [fold_left].
  - intros H. left. now exists e.
  - intros [(e1 & Hin & Heq)|(row' & Hin & Hw & Heq)]%IH.
    + apply process_row_origin in Hin as [(e0 & Hin & Heq')|[Hw Heq']].
      * left. exists e0. split; [exact Hin | congruence].
      * right. exists row. split; [now left|]. split; [exact Hw | congruence].
    + right. exists row'. split; [now right | auto].
Qed.

Lemma split_from_undotted sep b :
  all_chars (is_not sep) b = true -> split_from sep b = (b, []).
Proof.
  induction b as [|c r IH]; [reflexivity|]. cbn [all_chars split_from].
  intros [Hc Hr]%andb_true_iff. rewrite (IH Hr).
  unfold is_not in Hc. rewrite Ascii.eqb_sym in Hc.
  apply negb_true_iff in Hc. now rewrite Hc.
Qed.

(** Two dot-free parts joined by a dot split into the two parts. *)
Lemma split_pair sep a b :
  all_chars (is_not sep) a = true -> all_chars (is_not sep) b = true ->
  split sep (a +:+ String sep b) = [a; b].
Proof.
  intros Ha Hb. unfold split.
  assert (H : split_from sep (a +:+ String sep b) = (a, [b])).
  { induction a as [|c r IH]; cbn [String.append split_from].
    - rewrite (split_from_undotted sep b Hb), Ascii.eqb_refl. reflexivity.
    - cbn [all_chars] in Ha. apply andb_true_iff in Ha as [Hc Hr].
      rewrite (IH Hr). unfold is_not in Hc. rewrite Ascii.eqb_sym in Hc.
      apply negb_true_iff in Hc. now rewrite Hc. }
  now rewrite H.
Qed.

Lemma datadict_name_undotted x :
  all_chars (is_not ".") (normalize_table_name x) = true.
Proof.
  unfold normalize_table_name.
  destruct (first_match _ TARGET_TABLES) as [t|] eqn:E.
  - apply find_some in E as [Hin _].
    repeat (destruct Hin as [<-|Hin]; [vm_compute; reflexivity|]). destruct Hin.
  - rewrite (NormalizerFacts.replace_nonempty "." ""). now apply replace_char_gone.
Qed.

Lemma Linked_same_keys s0 s tables src col tgt tcol :
  same_keys s0 s ->
  Linked s tables src col tgt tcol <-> Linked s0 tables src col tgt tcol.
Proof.
  intros [Ht Hk]. unfold Linked.
  now rewrite !Ht, (proj1 (Hk col)), (proj1 (Hk tcol)).
Qed.

Lemma in_hits_existsb (hits : list Hit) l r :
  In (l, r) hits -> existsb (Nat.eqb l) (map fst hits) = true.
Proof.
  intros H. apply existsb_exists. exists l. split; [|apply Nat.eqb_refl].
  apply in_map_iff. now exists (l, r).
Qed.

Lemma tables_of_entries s objs (d : Entries) :
  Forall2 (fun t ke => tabs s t = new_table (fst ke) (snd ke)) objs d ->
  map (fun t => t_canonical_id (tabs s t)) objs = map fst d /\
  flat_map (fun t => columns (tabs s t)) objs = listed_columns d /\
  forall t, In t objs -> exists k e, In (k, e) d /\ tabs s t = new_table k e.
Proof.
  induction 1 as [|t [k e] objs d H0 _ (IH1 & IH2 & IH3)].
  - repeat split. intros t [].
  - cbn [fst snd] in H0. cbn [map flat_map fst]. unfold listed_columns in *.
    cbn [flat_map snd]. rewrite IH1, IH2, H0. cbn [new_table t_canonical_id columns].
    repeat split. intros t' [<-|Hin].
    + exists k, e. split; [now left | exact H0].
    + destruct (IH3 t' Hin) as (k' & e' & Hin' & Heq). exists k', e'. split; [now right | exact Heq].
Qed.

End IngestFacts.

(** ** The graph built from rows *)

Module GraphProperties.
Import Py PyFacts DataDictionaries DiscoveryFacts GraphNotions IngestFacts.

(** X5. The tables of the graph have pairwise different canonical ids:
    the rows of every file that share a normalized table name are merged
    into one table. *)
Theorem graph_table_ids_distinct (files : list (list Row)) :
  let '(s, g) := process_csv_files files in NoDup (graph_table_ids s g).
Proof.
  pose proof (graph_of_ingest files) as H.
  destruct (process_csv_files files) as [s g]. destruct H as [Hall _].
  unfold graph_table_ids. rewrite (proj1 (tables_of_entries _ _ _ Hall)).
  apply ingest_well_formed.
Qed.

(** X6. The name and the canonical id of every table of the graph are
    the normalized form of the physical name the table keeps. *)
Theorem graph_table_names (files : list (list Row)) :
  let '(s, g) := process_csv_files files in
  forall t, In t (md_tables g) ->
    table_name (tabs s t) = normalize_table_name (physical_name (tabs s t)) /\
    t_canonical_id (tabs s t) = normalize_table_name (physical_name (tabs s t)).
Proof.
  pose proof (graph_of_ingest files) as H.
  destruct (process_csv_files files) as [s g]. destruct H as [Hall _].
  intros t Ht.
  destruct (proj2 (proj2 (tables_of_entries _ _ _ Hall)) t Ht) as (k & e & Hin & ->).
  destruct (ingest_well_formed files) as (_ & _ & Hent).
  destruct (Hent k e Hin) as [Hk _]. cbn [new_table table_name t_canonical_id physical_name].
  now split.
Qed.

Lemma graph_table_names_witness :
  let files := [[column_row "foundation.financial.Deposits_v4.user_id"]] in
  table_name (tabs (fst (process_csv_files files)) 0) =
    normalize_table_name (physical_name (tabs (fst (process_csv_files files)) 0)) /\
  t_canonical_id (tabs (fst (process_csv_files files)) 0) =
    normalize_table_name (physical_name (tabs (fst (process_csv_files files)) 0)).
Proof.
  exact (graph_table_names [[column_row "foundation.financial.Deposits_v4.user_id"]] 0
           (or_introl eq_refl)).
Defined.

(** X7. The canonical id of every column of the graph is the canonical
    id of its table, a dot, and the name of the column, and it splits at
    the dot into these two. *)
Theorem graph_column_ids (files : list (list Row)) :
  let '(s, g) := process_csv_files files in
  forall t l, In t (md_tables g) -> In l (columns (tabs s t)) ->
    canonical_id (cols s l) = t_canonical_id (tabs s t) +:+ "." +:+ name (cols s l) /\
    split "." (canonical_id (cols s l)) = [t_canonical_id (tabs s t); name (cols s l)].
Proof.
  pose proof (graph_of_ingest files) as H.
  destruct (process_csv_files files) as [s g].
  destruct H as [Hall (s1 & Hcols & _ & Hflag)].
  intros t l Ht Hl.
  destruct (proj2 (proj2 (tables_of_entries _ _ _ Hall)) t Ht) as (k & e & Hin & Htab).
  rewrite Htab in Hl |- *. cbn [new_table columns t_canonical_id] in Hl |- *.
  destruct (ingest_well_formed files) as (_ & _ & Hent).
  destruct (Hent k e Hin) as [Hk Hfresh].
  destruct (Hfresh l Hl) as [_ (Hid & Hdot & _)].
  destruct (flagged_same_keys s1 _ s1 s (same_keys_refl s1) Hflag) as [_ Hkeys].
  destruct (Hkeys l) as [Hn Hc]. rewrite Hn, Hc, !Hcols, Hid.
  split; [reflexivity|].
  apply split_pair; [|exact Hdot]. rewrite Hk. apply datadict_name_undotted.
Qed.

Lemma graph_column_ids_witness :
  let files := [[column_row "foundation.financial.deposits_v4.User_ID"]] in
  canonical_id (cols (fst (process_csv_files files)) 0) =
    t_canonical_id (tabs (fst (process_csv_files files)) 0) +:+ "." +:+
    name (cols (fst (process_csv_files files)) 0) /\
  split "." (canonical_id (cols (fst (process_csv_files files)) 0)) =
    [t_canonical_id (tabs (fst (process_csv_files files)) 0);
     name (cols (fst (process_csv_files files)) 0)].
Proof.
  exact (graph_column_ids [[column_row "foundation.financial.deposits_v4.User_ID"]] 0 0
           (or_introl eq_refl) (or_introl eq_refl)).
Defined.

(** X8. In the graph, a column is flagged as a foreign key exactly when
    it is a column of a table of the graph that the scan links to a
    column of another table: same name, with [id] in it. *)
Theorem graph_foreign_keys (files : list (list Row)) :
  let '(s, g) := process_csv_files files in
  forall l,
    is_foreign_key (cols s l) = true <->
    exists src tgt tcol, Linked s (md_tables g) src l tgt tcol.
Proof.
  pose proof (graph_of_ingest files) as H.
  destruct (process_csv_files files) as [s g].
  destruct H as [_ (s1 & Hcols & _ & Hflag)].
  pose proof (flagged_same_keys s1 _ s1 s (same_keys_refl s1) Hflag) as Hkeys.
  destruct (ingest_well_formed files) as (_ & Hfk & _).
  intros l. rewrite (proj2 Hflag l).
  split.
  - destruct (existsb (Nat.eqb l) (map fst (trace s1 (md_tables g)))) eqn:E.
    + intros _. apply RelationshipInference.flagged_existsb in E as [r Hin].
      apply in_trace in Hin as (src & tgt & tcol & HL & _).
      exists src, tgt, tcol. now apply (Linked_same_keys s1 s).
    + rewrite Hcols, Hfk. discriminate.
  - intros (src & tgt & tcol & HL). apply (Linked_same_keys s1 s) in HL; [|exact Hkeys].
    rewrite (in_hits_existsb _ l (link s1 src l tgt tcol)); [reflexivity|].
    apply in_trace. now exists src, tgt, tcol.
Qed.

Lemma graph_foreign_keys_witness :
  let files := [[column_row "foundation.financial.deposits_v4.user_id";
                 column_row "foundation.account.verified_user_details.user_id"]] in
  is_foreign_key (cols (fst (process_csv_files files)) 0) = true.
Proof.
  intros files. pose proof (graph_foreign_keys files) as H.
  rewrite (surjective_pairing (process_csv_files files)) in H.
  apply H. exists 0, 1, 1. vm_compute. repeat split; auto. discriminate.
Defined.

(** X10. Every well-keyed row has its table in the graph, under the
    normalized form of the physical name read off its key; and every
    table of the graph keeps the physical name read off the key of a
    well-keyed row. Rows with an empty key or a key without a dot make no
    table. *)
Theorem graph_tables_from_rows (files : list (list Row)) :
  let '(s, g) := process_csv_files files in
  (forall row, In row (concat files) -> well_keyed row = true ->
     In (normalize_table_name (phys_of row)) (graph_table_ids s g)) /\
  (forall t, In t (md_tables g) ->
     exists row, In row (concat files) /\ well_keyed row = true /\
                 physical_name (tabs s t) = phys_of row).
Proof.
  pose proof (graph_of_ingest files) as H.
  destruct (process_csv_files files) as [s g]. destruct H as [Hall _].
  destruct (tables_of_entries _ _ _ Hall) as (Hids & _ & Htabs).
  split.
  - intros row Hin Hw. unfold graph_table_ids. rewrite Hids, ingest_concat.
    now apply fold_rows_covers.
  - intros t Ht. destruct (Htabs t Ht) as (k & e & Hin & ->).
    rewrite ingest_concat in Hin.
    apply fold_rows_origin in Hin as [(e0 & [] & _)|(row & Hin & Hw & Heq)].
    exists row. cbn [new_table physical_name]. auto.
Qed.

Lemma graph_tables_from_rows_witness :
  let files := [[column_row "foundation.financial.deposits_v4.user_id"]] in
  In (normalize_table_name (phys_of (column_row "foundation.financial.deposits_v4.user_id")))
     (graph_table_ids (fst (process_csv_files files)) (snd (process_csv_files files))).
Proof.
  apply (proj1 (graph_tables_from_rows
                  [[column_row "foundation.financial.deposits_v4.user_id"]])).
  - left. reflexivity.
  - vm_compute. reflexivity.
Defined.

End GraphProperties.

(** ** Facts about the columns of the graph *)

Module ColumnFacts.
Import Py PyFacts DataDictionaries DiscoveryFacts GraphFacts GraphNotions IngestFacts ColumnNotions.

Lemma in_listed l (d : Entries) :
  In l (listed_columns d) <-> exists k e, In (k, e) d /\ In l (e_cols e).
Proof.
  unfold listed_columns. rewrite in_flat_map. split.
  - intros ([k e] & Hin & Hl). now exists k, e.
  - intros (k & e & Hin & Hl). now exists (k, e).
Qed.

Lemma rows_of_app k rows rows' : rows_of k (rows ++ rows') = rows_of k rows ++ rows_of k rows'.
Proof. apply List.filter_app. Qed.

Lemma rows_of_none k rows :
  (forall row, In row rows -> well_keyed row = true ->
               normalize_table_name (phys_of row) <> k) ->
  rows_of k rows = [].
Proof.
  intros H. unfold rows_of. induction rows as [|row rows IH]; [reflexivity|].
  cbn [List.filter]. rewrite IH by (intros r Hr; apply H; now right).
  unfold is_column_row. destruct (well_keyed row) eqn:Hw; [|reflexivity].
  destruct (String.eqb_spec (normalize_table_name (phys_of row)) k) as [Heq|_].
  - destruct (H row (or_introl eq_refl) Hw Heq).
  - now rewrite andb_false_r.
Qed.

(** The entries with the table of the row made sure of keep what the
    rows read so far gave. *)
Lemma ensured_tracks rows g k p :
  tracks rows g ->
  NoDup (map fst (ensured k p (all_tables g))) /\
  listed_columns (ensured k p (all_tables g)) = listed_columns (all_tables g) /\
  (forall row, In row rows -> well_keyed row = true ->
     has_key (normalize_table_name (phys_of row)) (ensured k p (all_tables g)) = true) /\
  (forall k' e, In (k', e) (ensured k p (all_tables g)) ->
     map (cols (store g)) (e_cols e) = map (new_column k') (rows_of k' rows)).
Proof.
  intros (Hnd & _ & _ & Hcov & Hcols).
  split; [|split; [apply ensured_listed|split]].
  - unfold ensured. destruct (has_key k (all_tables g)) eqn:E; [exact Hnd|].
    rewrite map_app. cbn [map fst]. apply NoDup_app. split; [exact Hnd|]. split.
    + intros x Hx [<-|[]]%list_elem_of_In. apply list_elem_of_In in Hx.
      apply has_key_in in Hx. congruence.
    + apply NoDup_singleton.
  - intros row Hin Hw. specialize (Hcov row Hin Hw). unfold ensured.
    destruct (has_key k (all_tables g)); [exact Hcov|].
    apply has_key_in. rewrite map_app, in_app_iff. left. now apply has_key_in.
  - intros k' e. unfold ensured. destruct (has_key k (all_tables g)) eqn:E; [apply Hcols|].
    intros [Hin|[Hin|[]]]%in_app_or; [now apply Hcols|].
    injection Hin as <- <-. cbn [e_cols map].
    rewrite rows_of_none; [reflexivity|].
    intros row Hin Hw Heq. specialize (Hcov row Hin Hw). congruence.
Qed.

Lemma update_unique k f (d : Entries) k' e' :
  NoDup (map fst d) -> In (k', e') (update k f d) ->
  exists e0, In (k', e0) d /\ e' = if String.eqb k k' then f e0 else e0.
Proof.
  induction d as [|[k0 e0] d IH]; cbn [update]; [intros _ []|].
  intros Hnd. apply NoDup_cons in Hnd as [Hk0 Hnd]. cbn [map fst] in Hk0.
  rewrite list_elem_of_In in Hk0.
  destruct (String.eqb_spec k k0) as [->|Hne].
  - intros [H|H].
    + injection H as <- <-. exists e0. rewrite String.eqb_refl. split; [now left | reflexivity].
    + exists e'. split; [now right|].
      destruct (String.eqb_spec k0 k') as [<-|_]; [|reflexivity].
      destruct Hk0. apply in_map_iff. now exists (k0, e').
  - intros [H|H].
    + injection H as <- <-. exists e0. split; [now left|].
      now destruct (String.eqb_spec k k0).
    + destruct (IH Hnd H) as (e1 & Hin & Heq). exists e1. split; [now right | exact Heq].
Qed.

Lemma update_desc_cols k v (d : Entries) k' e' :
  In (k', e') (update k (fun e => {| phys := phys e; e_cols := e_cols e; desc := v |}) d) ->
  exists e0, In (k', e0) d /\ e_cols e' = e_cols e0.
Proof.
  intros (e0 & Hin & [->|[_ ->]])%in_update; exists e0; now split.
Qed.

Lemma in_listed_append k l (d : Entries) x :
  In x (listed_columns
          (update k (fun e => {| phys := phys e; e_cols := e_cols e ++ [l]; desc := desc e |}) d)) ->
  x = l \/ In x (listed_columns d).
Proof.
  rewrite in_listed. intros (k' & e' & Hin & Hx).
  apply in_update in Hin as (e0 & Hin & [->|[_ ->]]).
  - right. apply in_listed. now exists k', e0.
  - cbn [e_cols] in Hx. apply in_app_or in Hx as [Hx|[<-|[]]]; [|now left].
    right. apply in_listed. now exists k', e0.
Qed.

Lemma listed_append_nodup k l (d : Entries) :
  ~ In l (listed_columns d) -> NoDup (listed_columns d) ->
  NoDup (listed_columns
           (update k (fun e => {| phys := phys e; e_cols := e_cols e ++ [l]; desc := desc e |}) d)).
Proof.
  induction d as [|[k' e] d IH]; [intros _ H; exact H|].
  unfold listed_columns in *.
  cbn [flat_map snd update]. intros Hl Hnd.
  destruct (String.eqb k k'); cbn [flat_map snd e_cols].
  - rewrite <- app_assoc. cbn [app].
    rewrite <- Permutation_middle. apply NoDup_cons.
    split; [now rewrite list_elem_of_In | exact Hnd].
  - apply NoDup_app in Hnd as (He & Hdis & Hd).
    apply NoDup_app. split; [exact He|]. split.
    + intros x Hx Hx'. apply list_elem_of_In in Hx'.
      apply (in_listed_append k l d x) in Hx' as [->|Hx'].
      * apply Hl. apply in_or_app. left. now apply list_elem_of_In.
      * apply (Hdis x Hx). now apply list_elem_of_In.
    + apply IH; [|exact Hd]. intros H. apply Hl. apply in_or_app. now right.
Qed.

Lemma map_cols_put (s : Store) n c (ls : list loc) :
  (forall l, In l ls -> l < n) ->
  map (cols (put_col n c s)) ls = map (cols s) ls.
Proof.
  intros H. apply map_ext_in. intros l Hl. cbn [put_col cols].
  destruct (Nat.eqb_spec l n) as [->|_]; [|reflexivity].
  specialize (H n Hl). lia.
Qed.

Lemma process_row_tracks rows g row :
  tracks rows g -> tracks (rows ++ [row]) (process_row g row).
Proof.
  intros Hg. pose proof Hg as (Hnd & Hndl & Hlt & Hcov & Hcols).
  rewrite process_row_cases. cbv zeta.
  set (k := normalize_table_name (phys_of row)).
  assert (Hrow : forall k', rows_of k' [row] =
            if is_column_row row && String.eqb k k' then [row] else []).
  { intros k'. unfold rows_of. cbn [List.filter]. fold k. now destruct (_ && _). }
  destruct (well_keyed row) eqn:Hw.
  2:{ assert (Hc : is_column_row row = false) by (unfold is_column_row; now rewrite Hw).
      split; [exact Hnd|]. split; [exact Hndl|]. split; [exact Hlt|]. split.
      - intros r [Hr|[<-|[]]]%in_app_or Hr'; [now apply Hcov | congruence].
      - intros k' e Hin. rewrite rows_of_app, (Hcols k' e Hin), Hrow, Hc.
        cbn [andb]. now rewrite app_nil_r. }
  destruct (ensured_tracks rows g k (phys_of row) Hg) as (Hnd' & Hlist' & Hcov' & Hcols').
  pose proof (ensured_has_key k (phys_of row) (all_tables g)) as Hk.
  set (d := ensured k (phys_of row) (all_tables g)) in *. clearbody d.
  destruct (contains "otype=table" (al_datadict_item_properties row)) eqn:Ht.
  - assert (Hc : is_column_row row = false).
    { unfold is_column_row. now rewrite Ht, andb_false_r. }
    split; [|split; [|split; [|split]]]; cbn [all_tables store next_col].
    + now rewrite update_keys.
    + now rewrite update_desc_listed, Hlist'.
    + intros l. rewrite update_desc_listed, Hlist'. apply Hlt.
    + intros r [Hr|[<-|[]]]%in_app_or Hr'; apply has_key_in; rewrite update_keys;
        apply has_key_in; [now apply Hcov' | exact Hk].
    + intros k' e (e0 & Hin & ->)%update_desc_cols.
      rewrite rows_of_app, Hrow, Hc. cbn [andb]. rewrite app_nil_r. now apply Hcols'.
  - assert (Hc : is_column_row row = true).
    { unfold is_column_row. now rewrite Hw, Ht. }
    assert (Hfresh : ~ In (next_col g) (listed_columns d)).
    { rewrite Hlist'. intros H. specialize (Hlt _ H). lia. }
    split; [|split; [|split; [|split]]]; cbn [all_tables store next_col].
    + now rewrite update_keys.
    + apply listed_append_nodup; [exact Hfresh | now rewrite Hlist'].
    + intros l [->|Hl]%in_listed_append; [lia|].
      rewrite Hlist' in Hl. specialize (Hlt l Hl). lia.
    + intros r [Hr|[<-|[]]]%in_app_or Hr'; apply has_key_in; rewrite update_keys;
        apply has_key_in; [now apply Hcov' | exact Hk].
    + intros k' e (e0 & Hin & ->)%(update_unique _ _ _ _ _ Hnd').
      assert (Hold : forall l, In l (e_cols e0) -> l < next_col g).
      { intros l Hl. apply Hlt. rewrite <- Hlist'. apply in_listed. now exists k', e0. }
      rewrite rows_of_app, Hrow, Hc. cbn [andb].
      destruct (String.eqb_spec k k') as [<-|Hne]; cbn [e_cols].
      * rewrite !map_app. cbn [map put_col cols]. rewrite Nat.eqb_refl.
        f_equal. rewrite <- (Hcols' k e0 Hin). now apply (map_cols_put (store g)).
      * rewrite app_nil_r, <- (Hcols' k' e0 Hin). now apply (map_cols_put (store g)).
Qed.

Lemma fold_rows_tracks rows0 rows g :
  tracks rows0 g -> tracks (rows0 ++ rows) (fold_left process_row rows g).
Proof.
  revert rows0 g. induction rows as [|row rows IH]; intros rows0 g Hg; cbn [fold_left].
  - now rewrite app_nil_r.
  - replace (rows0 ++ row :: rows) with ((rows0 ++ [row]) ++ rows)
      by (rewrite <- app_assoc; reflexivity).
    apply IH, process_row_tracks, Hg.
Qed.

Lemma ingest_tracks files : tracks (concat files) (ingest files).
Proof.
  rewrite ingest_concat. apply (fold_rows_tracks [] (concat files)).
  split; [constructor|]. split; [constructor|].
  split; [intros l []|]. split; [intros row []|intros k e []].
Qed.

Lemma unflagged_flag c : unflagged (flag_foreign_key c) = unflagged c.
Proof. reflexivity. Qed.

Lemma unflagged_new_column k row : unflagged (new_column k row) = new_column k row.
Proof. reflexivity. Qed.

End ColumnFacts.

Module GraphColumns.
Import Py PyFacts DataDictionaries DiscoveryFacts GraphNotions IngestFacts ColumnNotions ColumnFacts.

(** X9. Every row with a non-empty dotted key that is not marked as a
    table gives one column object of its own, and the graph has no
    other: no column object is listed twice in the graph, and the columns
    of each table are, in the order the rows are read over all files, the
    columns made from the rows of that table, with the fields the row
    gives; the foreign-key flag apart, which discovery sets. *)
Theorem graph_columns_from_rows (files : list (list Row)) :
  let '(s, g) := process_csv_files files in
  NoDup (graph_columns s g) /\
  forall t, In t (md_tables g) ->
    map (fun l => unflagged (cols s l)) (columns (tabs s t)) =
    map (new_column (t_canonical_id (tabs s t)))
        (rows_of (t_canonical_id (tabs s t)) (concat files)).
Proof.
  pose proof (graph_of_ingest files) as H.
  destruct (process_csv_files files) as [s g].
  destruct H as [Hall (s1 & Hcols & _ & Hflag)].
  destruct (ingest_tracks files) as (_ & Hnd & _ & _ & Hrows).
  destruct (tables_of_entries _ _ _ Hall) as (_ & Hlisted & Htabs).
  split.
  - unfold graph_columns. now rewrite Hlisted.
  - intros t Ht. destruct (Htabs t Ht) as (k & e & Hin & ->).
    cbn [new_table columns t_canonical_id].
    transitivity (map unflagged (map (cols (store (ingest files))) (e_cols e))).
    + rewrite map_map. apply map_ext. intros l. rewrite (proj2 Hflag l), Hcols.
      now destruct (existsb _ _).
    + rewrite (Hrows k e Hin), map_map. apply map_ext. intros row.
      apply unflagged_new_column.
Qed.

Lemma graph_columns_from_rows_witness :
  let files := [[column_row "foundation.financial.deposits_v4.user_id"];
                [column_row "foundation.financial.deposits_enriched_v1.User_ID"]] in
  map (fun l => unflagged (cols (fst (process_csv_files files)) l))
      (columns (tabs (fst (process_csv_files files)) 0)) =
  map (new_column (t_canonical_id (tabs (fst (process_csv_files files)) 0)))
      (rows_of (t_canonical_id (tabs (fst (process_csv_files files)) 0)) (concat files)).
Proof.
  exact (proj2 (graph_columns_from_rows
                  [[column_row "foundation.financial.deposits_v4.user_id"];
                   [column_row "foundation.financial.deposits_enriched_v1.User_ID"]])
               0 (or_introl eq_refl)).
Defined.

End GraphColumns.

(** ** Facts about trimming *)

Module StripFacts.
Import Py PyFacts NameNotions.

Lemma lstrip_fixed s : unspaced (head_char s) = true -> lstrip s = s.
Proof.
  destruct s as [|c r]; [reflexivity|]. cbn [head_char unspaced lstrip].
  now intros ->%negb_true_iff.
Qed.

Lemma rstrip_fixed s : unspaced (last_char s) = true -> rstrip s = s.
Proof.
  induction s as [|c r IH]; [reflexivity|]. cbn [last_char rstrip].
  destruct (last_char r) as [d|] eqn:E.
  - intros H. rewrite (IH H). destruct r; [discriminate E | reflexivity].
  - cbn [unspaced]. intros ->%negb_true_iff.
    destruct r as [|c' r']; [reflexivity|].
    cbn [last_char] in E. destruct (last_char r'); discriminate E.
Qed.

Lemma lstrip_head s : unspaced (head_char (lstrip s)) = true.
Proof.
  induction s as [|c r IH]; [reflexivity|]. cbn [lstrip].
  destruct (is_space c) eqn:E; [exact IH|]. cbn [head_char unspaced]. now rewrite E.
Qed.

Lemma rstrip_last s : unspaced (last_char (rstrip s)) = true.
Proof.
  induction s as [|c r IH]; [reflexivity|]. cbn [rstrip].
  destruct (rstrip r) as [|c' r'] eqn:E.
  - destruct (is_space c) eqn:Ec; [reflexivity|].
    cbn [last_char unspaced]. now rewrite Ec.
  - change (last_char (String c (String c' r'))) with
      (match last_char (String c' r') with Some d => Some d | None => Some c end).
    destruct (last_char (String c' r')) as [d|] eqn:El; [exact IH|].
    cbn [last_char] in El. destruct (last_char r'); discriminate El.
Qed.

Lemma rstrip_head s :
  unspaced (head_char s) = true -> unspaced (head_char (rstrip s)) = true.
Proof.
  destruct s as [|c r]; [reflexivity|]. cbn [head_char unspaced rstrip].
  intros H. destruct (rstrip r).
  - apply negb_true_iff in H. rewrite H. cbn [head_char unspaced]. now rewrite H.
  - exact H.
Qed.

(** What [strip] returns has no space at either end, and a string with
    no space at either end is returned as it is. *)
Lemma strip_ends s :
  unspaced (head_char (strip s)) = true /\ unspaced (last_char (strip s)) = true.
Proof.
  unfold strip. split; [apply rstrip_head, lstrip_head | apply rstrip_last].
Qed.

Lemma strip_fixed s :
  unspaced (head_char s) = true -> unspaced (last_char s) = true -> strip s = s.
Proof.
  intros Hh Hl. unfold strip. rewrite (lstrip_fixed s Hh). now apply rstrip_fixed.
Qed.

Lemma strip_idem s : strip (strip s) = strip s.
Proof. apply strip_fixed; apply strip_ends. Qed.

Lemma lower_as_map s : lower s = map_chars lower_char s.
Proof. induction s as [|c r IH]; [reflexivity|]. cbn [lower map_chars]. now rewrite IH. Qed.

Lemma undot_as_map s : replace "." "_" s = map_chars undot s.
Proof.
  rewrite NormalizerFacts.replace_nonempty.
  induction s as [|c r IH]; [reflexivity|].
  cbn [replace_from startswith String.length Nat.sub map_chars].
  unfold undot at 1. rewrite Ascii.eqb_sym.
  destruct (Ascii.eqb c "."); cbn [andb String.append]; now rewrite IH.
Qed.

Lemma head_map f s : head_char (map_chars f s) = option_map f (head_char s).
Proof. destruct s; reflexivity. Qed.

Lemma last_map f s : last_char (map_chars f s) = option_map f (last_char s).
Proof.
  induction s as [|c r IH]; [reflexivity|]. cbn [map_chars last_char].
  rewrite IH. destruct (last_char r); reflexivity.
Qed.

Lemma unspaced_map f o :
  (forall c, is_space (f c) = is_space c) ->
  unspaced (option_map f o) = unspaced o.
Proof. intros Hf. destruct o as [c|]; [|reflexivity]. cbn. now rewrite Hf. Qed.

Lemma lower_char_space c : is_space (lower_char c) = is_space c.
Proof. destruct c as [[] [] [] [] [] [] [] []]; reflexivity. Qed.

Lemma undot_space c : is_space (undot c) = is_space c.
Proof. destruct c as [[] [] [] [] [] [] [] []]; reflexivity. Qed.

(** A change of characters that keeps spaces spaces and the rest not
    spaces leaves a trimmed string trimmed. *)
Lemma strip_map_fixed f s :
  (forall c, is_space (f c) = is_space c) ->
  strip (map_chars f (strip s)) = map_chars f (strip s).
Proof.
  intros Hf. apply strip_fixed.
  - rewrite head_map, (unspaced_map f _ Hf). apply strip_ends.
  - rewrite last_map, (unspaced_map f _ Hf). apply strip_ends.
Qed.

Lemma map_chars_twice f s :
  (forall c, f (f c) = f c) -> map_chars f (map_chars f s) = map_chars f s.
Proof.
  intros Hf. induction s as [|c r IH]; [reflexivity|].
  cbn [map_chars]. now rewrite Hf, IH.
Qed.

Lemma map_chars_compose f g s :
  map_chars f (map_chars g s) = map_chars (fun c => f (g c)) s.
Proof. induction s as [|c r IH]; [reflexivity|]. cbn [map_chars]. now rewrite IH. Qed.

End StripFacts.

(** ** The column-name and the lookup-name normalizers *)

Module NameProperties.
Import Py PyFacts NameNotions StripFacts.

(** X11. [data_dictionaries_schema.normalize_column_name] is idempotent,
    and what it returns is in lower case with no space at either end. *)
Theorem datadict_column_name_idempotent (x : string) :
  DataDictionaries.normalize_column_name (DataDictionaries.normalize_column_name x) =
  DataDictionaries.normalize_column_name x /\
  lower (DataDictionaries.normalize_column_name x) = DataDictionaries.normalize_column_name x /\
  strip (DataDictionaries.normalize_column_name x) = DataDictionaries.normalize_column_name x.
Proof.
  unfold DataDictionaries.normalize_column_name.
  assert (Hs : strip (lower (strip x)) = lower (strip x)).
  { rewrite lower_as_map. apply strip_map_fixed, lower_char_space. }
  split; [|split].
  - now rewrite Hs, lower_idem.
  - apply lower_idem.
  - exact Hs.
Qed.

Lemma undot_lower_twice c : undot (lower_char (undot (lower_char c))) = undot (lower_char c).
Proof. destruct c as [[] [] [] [] [] [] [] []]; reflexivity. Qed.

Lemma undot_lower_space c : is_space (undot (lower_char c)) = is_space c.
Proof. now rewrite undot_space, lower_char_space. Qed.

(** X12. [run_prompt_generation.normalize_table_name], the key under
    which the textual context of a table is stored and looked up, is
    idempotent, and the key it gives has no dot. *)
Theorem lookup_name_idempotent (x : string) :
  RunPromptGeneration.normalize_table_name (RunPromptGeneration.normalize_table_name x) =
  RunPromptGeneration.normalize_table_name x /\
  contains "." (RunPromptGeneration.normalize_table_name x) = false.
Proof.
  unfold RunPromptGeneration.normalize_table_name. split.
  - rewrite !undot_as_map, !lower_as_map, !map_chars_compose.
    rewrite (strip_map_fixed _ x undot_lower_space).
    apply map_chars_twice, undot_lower_twice.
  - apply absent_char. rewrite NormalizerFacts.replace_nonempty. now apply replace_char_gone.
Qed.

End NameProperties.

(** ** Facts about the camel-case normalizer *)

Module CamelFacts.
Import Py PyFacts NameNotions StripFacts.

Lemma last_cons c s :
  last_char (String c s) = match last_char s with Some d => Some d | None => Some c end.
Proof. reflexivity. Qed.

(** The three substitutions keep the first character. *)
Lemma camel_word_head s : head_char (TestSchema.sub_camel_word false s) = head_char s.
Proof.
  destruct s as [|c r]; [reflexivity|]. cbn [TestSchema.sub_camel_word andb].
  destruct r as [|u [|l r']]; try reflexivity.
  destruct (negb (Ascii.eqb c "010") && is_upper u && is_lower l); reflexivity.
Qed.

Lemma camel_boundary_head s : head_char (TestSchema.sub_camel_boundary s) = head_char s.
Proof.
  destruct s as [|c r]; [reflexivity|]. cbn [TestSchema.sub_camel_boundary].
  destruct r as [|u r']; [reflexivity|].
  destruct ((is_lower c || is_digit c) && is_upper u); reflexivity.
Qed.

Lemma underscores_head s : head_char (TestSchema.sub_underscores false s) = head_char s.
Proof.
  destruct s as [|c r]; [reflexivity|]. cbn [TestSchema.sub_underscores andb].
  destruct r as [|c2 r']; [reflexivity|].
  destruct (Ascii.eqb_spec c "_") as [->|]; [|reflexivity].
  destruct (Ascii.eqb c2 "_"); reflexivity.
Qed.

(** The three substitutions keep the last character. *)
Lemma camel_word_last s : forall b,
  last_char (TestSchema.sub_camel_word b s) = last_char s.
Proof.
  induction s as [s IH] using string_length_ind. intros b.
  destruct s as [|c r]; [reflexivity|]. cbn [TestSchema.sub_camel_word].
  assert (Hkeep : forall b', last_char (String c (TestSchema.sub_camel_word b' r)) =
                             last_char (String c r)).
  { intros b'. rewrite !last_cons, IH by (simpl; lia). reflexivity. }
  destruct (b && is_lower c); [apply Hkeep|].
  destruct r as [|u [|l r']]; try apply Hkeep.
  destruct (negb (Ascii.eqb c "010") && is_upper u && is_lower l); [|apply Hkeep].
  cbn [last_char]. rewrite IH by (simpl; lia). destruct (last_char r'); reflexivity.
Qed.

Lemma camel_boundary_last s :
  last_char (TestSchema.sub_camel_boundary s) = last_char s.
Proof.
  induction s as [s IH] using string_length_ind.
  destruct s as [|c r]; [reflexivity|]. cbn [TestSchema.sub_camel_boundary].
  destruct r as [|u r']; [reflexivity|].
  destruct ((is_lower c || is_digit c) && is_upper u).
  - cbn [last_char]. rewrite IH by (simpl; lia). destruct (last_char r'); reflexivity.
  - rewrite (last_cons c (String u r')), last_cons, IH by (simpl; lia). reflexivity.
Qed.

(** Past a character that is not an underscore the scan is out of any run. *)
Lemma underscores_restart c r :
  Ascii.eqb c "_" = false ->
  TestSchema.sub_underscores true (String c r) =
  TestSchema.sub_underscores false (String c r).
Proof. intros H. cbn [TestSchema.sub_underscores]. now rewrite H. Qed.

Lemma underscores_last s :
  last_char (TestSchema.sub_underscores false s) = last_char s /\
  last_char (String "_" (TestSchema.sub_underscores true s)) = last_char (String "_" s).
Proof.
  induction s as [s IH] using string_length_ind.
  assert (Hfalse : last_char (TestSchema.sub_underscores false s) = last_char s).
  { destruct s as [|c r]; [reflexivity|]. cbn [TestSchema.sub_underscores andb].
    destruct r as [|c2 r']; [reflexivity|].
    destruct (Ascii.eqb_spec c "_") as [->|]; cbn [andb].
    - destruct (Ascii.eqb_spec c2 "_") as [->|].
      + rewrite (proj2 (IH r' ltac:(simpl; lia))).
        rewrite (last_cons "_" (String "_" r')), !last_cons.
        destruct (last_char r'); reflexivity.
      + rewrite (last_cons "_" (String c2 r')), last_cons.
        now rewrite (proj1 (IH (String c2 r') ltac:(simpl; lia))).
    - rewrite (last_cons c (String c2 r')), last_cons.
      now rewrite (proj1 (IH (String c2 r') ltac:(simpl; lia))). }
  split; [exact Hfalse|].
  destruct s as [|c r]; [reflexivity|].
  destruct (Ascii.eqb c "_") eqn:Ec.
  - apply Ascii.eqb_eq in Ec. subst c. cbn [TestSchema.sub_underscores andb].
    change (Ascii.eqb "_" "_") with true. cbn iota.
    rewrite (proj2 (IH r ltac:(simpl; lia))).
    rewrite (last_cons "_" (String "_" r)), !last_cons. destruct (last_char r); reflexivity.
  - rewrite (underscores_restart c r Ec), last_cons, Hfalse, <- last_cons. reflexivity.
Qed.

(** A string without upper-case letters is left as it is by the two
    camel-case substitutions. *)
Lemma camel_word_fixed s : forall b,
  all_chars not_upper s = true -> TestSchema.sub_camel_word b s = s.
Proof.
  induction s as [|c r IH]; [reflexivity|]. intros b.
  cbn [all_chars]. intros [Hc Hr]%andb_true_iff.
  cbn [TestSchema.sub_camel_word].
  destruct (b && is_lower c); [now rewrite IH|].
  destruct r as [|u [|l r']]; try now rewrite IH.
  cbn [all_chars] in Hr. apply andb_true_iff in Hr as [Hu Hr'].
  unfold not_upper in Hu. apply negb_true_iff in Hu. rewrite Hu, andb_false_r.
  cbn [andb]. rewrite IH; [reflexivity|]. cbn [all_chars]. unfold not_upper at 1.
  now rewrite Hu, Hr'.
Qed.

Lemma camel_boundary_fixed s :
  all_chars not_upper s = true -> TestSchema.sub_camel_boundary s = s.
Proof.
  induction s as [|c r IH]; [reflexivity|].
  cbn [all_chars]. intros [Hc Hr]%andb_true_iff.
  cbn [TestSchema.sub_camel_boundary].
  destruct r as [|u r']; [reflexivity|].
  pose proof Hr as Hr0. cbn [all_chars] in Hr. apply andb_true_iff in Hr as [Hu _].
  unfold not_upper in Hu. apply negb_true_iff in Hu. rewrite Hu, andb_false_r.
  now rewrite (IH Hr0).
Qed.

Lemma lowered_not_upper c : lowered c = true -> not_upper c = true.
Proof. destruct c as [[] [] [] [] [] [] [] []]; vm_compute; congruence. Qed.

Lemma all_chars_underscores P s : forall b,
  all_chars P s = true -> all_chars P (TestSchema.sub_underscores b s) = true.
Proof.
  induction s as [s IH] using string_length_ind. intros b.
  destruct s as [|c r]; [reflexivity|].
  cbn [all_chars]. intros [Hc Hr]%andb_true_iff.
  cbn [TestSchema.sub_underscores].
  destruct (b && Ascii.eqb c "_"); [apply IH; [simpl; lia | exact Hr]|].
  destruct r as [|c2 r']; [cbn [all_chars]; now rewrite Hc|].
  destruct (Ascii.eqb_spec c "_") as [->|]; cbn [andb].
  - destruct (Ascii.eqb c2 "_").
    + cbn [all_chars] in Hr |- *. apply andb_true_iff in Hr as [_ Hr'].
      rewrite Hc. apply IH; [simpl; lia | exact Hr'].
    + cbn [all_chars]. rewrite Hc. apply IH; [simpl; lia | exact Hr].
  - cbn [all_chars]. rewrite Hc. apply IH; [simpl; lia | exact Hr].
Qed.

(** What the underscore substitution returns has no two underscores side
    by side, and a string that has none is left as it is. *)
Lemma underscores_single s :
  single_underscores (TestSchema.sub_underscores false s) = true /\
  single_underscores (String "_" (TestSchema.sub_underscores true s)) = true.
Proof.
  induction s as [s IH] using string_length_ind.
  assert (Hfalse : single_underscores (TestSchema.sub_underscores false s) = true).
  { destruct s as [|c r]; [reflexivity|]. cbn [TestSchema.sub_underscores andb].
    destruct r as [|c2 r']; [reflexivity|].
    destruct (Ascii.eqb c "_" && Ascii.eqb c2 "_") eqn:E.
    - apply (proj2 (IH r' ltac:(simpl; lia))).
    - pose proof (proj1 (IH (String c2 r') ltac:(simpl; lia))) as H.
      pose proof (underscores_head (String c2 r')) as Hh.
      destruct (TestSchema.sub_underscores false (String c2 r')) as [|h t];
        [discriminate Hh|].
      cbn [head_char] in Hh. injection Hh as ->.
      cbn [single_underscores]. rewrite E. exact H. }
  split; [exact Hfalse|].
  destruct s as [|c r]; [reflexivity|].
  destruct (Ascii.eqb c "_") eqn:Ec.
  - cbn [TestSchema.sub_underscores andb]. rewrite Ec.
    apply (proj2 (IH r ltac:(simpl; lia))).
  - rewrite (underscores_restart c r Ec).
    pose proof (underscores_head (String c r)) as Hh.
    destruct (TestSchema.sub_underscores false (String c r)) as [|h t] eqn:Eo;
      [discriminate Hh|].
    cbn [head_char] in Hh. injection Hh as ->.
    change (single_underscores (String "_" (String c t))) with
      (negb (Ascii.eqb "_" "_" && Ascii.eqb c "_") && single_underscores (String c t)).
    rewrite Ec, Hfalse. reflexivity.
Qed.

Lemma underscores_fixed s :
  single_underscores s = true -> TestSchema.sub_underscores false s = s.
Proof.
  induction s as [|c r IH]; [reflexivity|].
  cbn [single_underscores TestSchema.sub_underscores andb].
  destruct r as [|c2 r']; [reflexivity|].
  intros [Hpair Hr]%andb_true_iff. apply negb_true_iff in Hpair.
  rewrite Hpair. now rewrite (IH Hr).
Qed.

(** The shape of what [TestSchema.normalize_column_name] returns. *)
Lemma column_name_shape (x : string) :
  let y := TestSchema.normalize_column_name x in
  lower y = y /\ all_chars not_upper y = true /\
  single_underscores y = true /\ strip y = y.
Proof.
  intros y. subst y. unfold TestSchema.normalize_column_name.
  set (s2 := TestSchema.sub_camel_boundary (TestSchema.sub_camel_word false (strip x))).
  assert (Hl : all_chars lowered (TestSchema.sub_underscores false (lower s2)) = true)
    by apply all_chars_underscores, all_lowered_lower.
  split; [now apply lower_fixed|].
  split; [revert Hl; apply all_chars_impl, lowered_not_upper|].
  split; [apply underscores_single|].
  destruct (strip_ends x) as [Hh Ht].
  apply strip_fixed.
  - rewrite underscores_head, lower_as_map, head_map, (unspaced_map _ _ lower_char_space).
    subst s2. now rewrite camel_boundary_head, camel_word_head.
  - rewrite (proj1 (underscores_last _)), lower_as_map, last_map,
      (unspaced_map _ _ lower_char_space).
    subst s2. now rewrite camel_boundary_last, camel_word_last.
Qed.

End CamelFacts.

(** ** The camel-case column-name normalizer *)

Module CamelProperties.
Import Py PyFacts NameNotions StripFacts CamelFacts.

(** X13. What [TestSchema.normalize_column_name] returns is in lower
    case, has none of the letters A-Z, has no two underscores side by
    side and no space at either end. *)
Theorem testschema_column_name_shape (x : string) :
  let y := TestSchema.normalize_column_name x in
  lower y = y /\ all_chars not_upper y = true /\
  single_underscores y = true /\ strip y = y.
Proof. exact (column_name_shape x). Qed.

(** X14. [TestSchema.normalize_column_name] is idempotent. *)
Theorem testschema_column_name_idempotent (x : string) :
  TestSchema.normalize_column_name (TestSchema.normalize_column_name x) =
  TestSchema.normalize_column_name x.
Proof.
  destruct (column_name_shape x) as (Hl & Hu & Hs & Ht).
  set (y := TestSchema.normalize_column_name x) in *.
  unfold TestSchema.normalize_column_name.
  rewrite Ht, (camel_word_fixed y false Hu), (camel_boundary_fixed y Hu), Hl.
  now apply underscores_fixed.
Qed.

End CamelProperties.

(** ** Relationship discovery, run again *)

Module DiscoveryProperties.
Import Py DataDictionaries DiscoveryFacts.

Lemma trace_same_keys s0 s tables :
  same_keys s0 s -> trace s tables = trace s0 tables.
Proof.
  intros Hkeys. pose proof Hkeys as [Ht _].
  unfold trace, trace_source, trace_col, trace_target, trace_target_col.
  apply flat_map_ext. intros src. rewrite Ht.
  apply flat_map_ext. intros col.
  apply flat_map_ext. intros tgt. rewrite !Ht.
  destruct (String.eqb _ _); [reflexivity|].
  apply flat_map_ext. intros tcol.
  now rewrite (same_keys_matches s0 s), (same_keys_link s0 s).
Qed.

(** X15. A second run of [discover_relationships] on the tables as the
    first run left them returns the same relationships and changes no
    column: the flags it would set are set. *)
Theorem discover_relationships_again (tables : list loc) (s : Store) :
  let s1 := fst (discover_relationships tables s) in
  let s2 := fst (discover_relationships tables s1) in
  snd (discover_relationships tables s1) = snd (discover_relationships tables s) /\
  (forall t, tabs s2 t = tabs s1 t) /\
  (forall l, cols s2 l = cols s1 l).
Proof.
  intros s1 s2. subst s1 s2.
  destruct (discover_relationships_trace tables s) as [Hrels Hflag].
  pose proof (flagged_same_keys s _ s _ (same_keys_refl s) Hflag) as Hkeys.
  destruct (discover_relationships_trace tables (fst (discover_relationships tables s)))
    as [Hrels' [Htabs' Hcols']].
  rewrite (trace_same_keys s _ tables Hkeys) in Hrels', Hcols'.
  split; [now rewrite Hrels', Hrels|]. split; [exact Htabs'|].
  intros l. rewrite Hcols', (proj2 Hflag l).
  destruct (existsb (Nat.eqb l) (map fst (trace s tables))); reflexivity.
Qed.

End DiscoveryProperties.

(** ** Data types and canonical table names *)

Module NormalizerProperties.
Import Py PyFacts NormalizerFacts.

Lemma mapped_type (pairs : list (string * string)) k v :
  (list_to_map pairs : gmap string string) !! k = Some v -> In (k, v) pairs.
Proof. intros H. apply list_elem_of_In. now apply elem_of_list_to_map_2. Qed.

Lemma unmapped_type (pairs : list (string * string)) k :
  ~ In k (map fst pairs) -> (list_to_map pairs : gmap string string) !! k = None.
Proof.
  intros H. apply not_elem_of_list_to_map_1. intros Hin. apply H.
  now apply list_elem_of_In.
Qed.

(** X16. [TestSchema.normalize_data_type] returns one of the five
    canonical types, whatever the token; it does not depend on the case of
    the token; and a token that is, in lower case, none of the six known
    ones gives [string]. *)
Theorem testschema_data_type_range (t : string) :
  In (TestSchema.normalize_data_type t)
     ["integer"; "string"; "decimal"; "datetime"; "date"] /\
  TestSchema.normalize_data_type (lower t) = TestSchema.normalize_data_type t /\
  (~ In (lower t) ["bigint"; "int"; "varchar"; "decimal"; "timestamp"; "date"] ->
   TestSchema.normalize_data_type t = "string").
Proof.
  unfold TestSchema.normalize_data_type, TestSchema.mapping.
  split; [|split].
  - destruct (_ !! lower t) as [v|] eqn:E; cbn [default]; [|simpl; tauto].
    apply mapped_type in E. simpl in E |- *.
    repeat (destruct E as [E|E]; [injection E as _ <-; tauto|]). destruct E.
  - now rewrite lower_idem.
  - intros H. now rewrite unmapped_type.
Qed.

Lemma testschema_data_type_range_witness :
  TestSchema.normalize_data_type "Geometry" = "string".
Proof.
  apply (proj2 (proj2 (testschema_data_type_range "Geometry"))).
  vm_compute. intros H. repeat (destruct H as [H|H]; [discriminate H|]). exact H.
Defined.

(** X17. [data_dictionaries_schema.normalize_data_type] returns
    [integer], [string] or [decimal], whatever the token; it does not
    depend on the case of the token; and a token that is, in lower case,
    none of the four known ones gives [string]. *)
Theorem datadict_data_type_range (t : string) :
  In (DataDictionaries.normalize_data_type t) ["integer"; "string"; "decimal"] /\
  DataDictionaries.normalize_data_type (lower t) = DataDictionaries.normalize_data_type t /\
  (~ In (lower t) ["bigint"; "int"; "varchar"; "decimal"] ->
   DataDictionaries.normalize_data_type t = "string").
Proof.
  unfold DataDictionaries.normalize_data_type, DataDictionaries.mapping.
  split; [|split].
  - destruct (_ !! lower t) as [v|] eqn:E; cbn [default]; [|simpl; tauto].
    apply mapped_type in E. simpl in E |- *.
    repeat (destruct E as [E|E]; [injection E as _ <-; tauto|]). destruct E.
  - now rewrite lower_idem.
  - intros H. now rewrite unmapped_type.
Qed.

Lemma datadict_data_type_range_witness :
  DataDictionaries.normalize_data_type "TIMESTAMP" = "string".
Proof.
  apply (proj2 (proj2 (datadict_data_type_range "TIMESTAMP"))).
  vm_compute. intros H. repeat (destruct H as [H|H]; [discriminate H|]). exact H.
Defined.

Lemma bare_name_lowered x :
  all_chars lowered (DataDictionaries.bare_name x) = true /\
  all_chars (is_not DataDictionaries.quote_char) (DataDictionaries.bare_name x) = true.
Proof.
  unfold DataDictionaries.bare_name, DataDictionaries.quote. rewrite replace_nonempty. split.
  - apply unqualified_keeps, all_chars_replace_from; [reflexivity | apply all_lowered_lower].
  - apply unqualified_keeps. now apply replace_char_gone.
Qed.

(** X18. The canonical table names do not depend on the case of the
    physical name, are in lower case and have no dot; those of
    [data_dictionaries_schema.normalize_table_name] have no double quote
    either. *)
Theorem canonical_table_names (x : string) :
  (TestSchema.normalize_table_name (lower x) = TestSchema.normalize_table_name x /\
   lower (TestSchema.normalize_table_name x) = TestSchema.normalize_table_name x /\
   contains "." (TestSchema.normalize_table_name x) = false) /\
  (DataDictionaries.normalize_table_name (lower x) = DataDictionaries.normalize_table_name x /\
   lower (DataDictionaries.normalize_table_name x) = DataDictionaries.normalize_table_name x /\
   contains "." (DataDictionaries.normalize_table_name x) = false /\
   contains DataDictionaries.quote (DataDictionaries.normalize_table_name x) = false).
Proof.
  split.
  - split; [|split].
    + unfold TestSchema.normalize_table_name. now rewrite lower_idem.
    + apply lower_fixed, testschema_name_lowered.
    + apply absent_char, testschema_name_undotted.
  - split.
    { unfold DataDictionaries.normalize_table_name. now rewrite lower_idem. }
    destruct (bare_name_lowered x) as [Hl Hq].
    destruct (bare_name_fixed x) as [_ Hdot].
    assert (H : all_chars lowered (DataDictionaries.normalize_table_name x) = true /\
                all_chars (is_not ".") (DataDictionaries.normalize_table_name x) = true /\
                all_chars (is_not DataDictionaries.quote_char)
                          (DataDictionaries.normalize_table_name x) = true).
    { unfold DataDictionaries.normalize_table_name. fold (DataDictionaries.bare_name x).
      destruct (first_match _ DataDictionaries.TARGET_TABLES) as [t|] eqn:E.
      - apply find_some in E as [Hin _].
        repeat (destruct Hin as [<-|Hin]; [vm_compute; auto|]). destruct Hin.
      - rewrite Hdot. split; [exact Hl|]. split; [|exact Hq].
        rewrite <- Hdot, replace_nonempty. now apply replace_char_gone. }
    destruct H as (H1 & H2 & H3).
    split; [now apply lower_fixed|]. split; now apply absent_char.
Qed.

End NormalizerProperties.

(** ** The call to the model *)

Module ModelCallProperties.
Import Py RunPromptGeneration ModelCall.

Section Calls.

Variable loads : string -> string + value.
Variable replies : nat -> reply.

Lemma attempts_failing retries n attempt todo :
  (forall i, attempt <= i < attempt + n -> exists e, try_post loads replies i = inl e) ->
  (Z.of_nat (attempt + n) <= retries)%Z -> n <= todo ->
  attempts loads replies retries attempt todo =
  (fst (attempts loads replies retries (attempt + n) (todo - n)),
   failed_rounds n ++ snd (attempts loads replies retries (attempt + n) (todo - n))).
Proof.
  revert attempt todo. induction n as [|n IH]; intros attempt todo Hfail Hle Htodo.
  - rewrite Nat.add_0_r, Nat.sub_0_r. cbn [failed_rounds app]. now destruct (attempts _ _ _ _ _).
  - destruct todo as [|todo]; [lia|]. cbn [attempts].
    destruct (Hfail attempt ltac:(lia)) as [e He]. rewrite He.
    destruct (Z.ltb_spec (Z.of_nat attempt) retries) as [_|Hge]; [|lia].
    rewrite (IH (S attempt) todo); [| intros i Hi; apply Hfail; lia | lia | lia].
    replace (S attempt + n) with (attempt + S n) by lia.
    cbn [Nat.sub fst snd failed_rounds app]. reflexivity.
Qed.



Lemma posts_rounds n rest : posts (failed_rounds n ++ rest) = n + posts rest.
Proof.
  unfold posts. induction n as [|n IH]; [reflexivity|].
  cbn [failed_rounds app List.filter length]. now rewrite IH.
Qed.

Lemma sleeps_rounds n rest : sleeps (failed_rounds n ++ rest) = n + sleeps rest.
Proof.
  unfold sleeps. induction n as [|n IH]; [reflexivity|].
  cbn [failed_rounds app List.filter length]. now rewrite IH.
Qed.

Lemma attempts_bounds retries attempt todo :
  (0 < todo -> (Z.of_nat attempt + Z.of_nat todo = retries + 1)%Z) ->
  let '(r, events) := attempts loads replies retries attempt todo in
  posts events <= todo /\
  (todo = 0 /\ r = Return None /\ events = [] \/
   0 < todo /\ r <> Return None /\ sleeps events + 1 = posts events /\
   List.last events Sleep = Post).
Proof.
  revert attempt. induction todo as [|todo IH]; intros attempt Hle; cbn [attempts].
  - split; [reflexivity|]. now left.
  - destruct (try_post loads replies attempt) as [e|v].
    + destruct (Z.ltb_spec (Z.of_nat attempt) retries) as [Hlt|Hge].
      * specialize (Hle ltac:(lia)). specialize (IH (S attempt) ltac:(lia)).
        destruct (attempts loads replies retries (S attempt) todo) as [r events].
        destruct IH as [Hp [(-> & _ & _)|(Hpos & Hr & Hs & Hlast)]]; [lia|].
        unfold posts, sleeps in *. cbn [List.filter length].
        split; [lia|]. right. repeat split; [lia | exact Hr | lia |].
        destruct events as [|e1 events]; [cbn in Hs; lia | exact Hlast].
      * split; [cbn; lia|]. right. repeat split; [lia | discriminate].
    + split; [cbn; lia|]. right. repeat split; [lia | discriminate].
Qed.


End Calls.




End ModelCallProperties.

(** ** Facts about the annotator *)

Module AnnotatorFacts.
Import Py PyFacts Annotator.

(** Induction on an element, with the property known of its children. *)
Lemma element_ind (P : Element -> Prop) :
  (forall t a x cs, Forall P cs -> P (Elem t a x cs)) -> forall e, P e.
Proof.
  intros step. fix go 1. intros [t a x cs]. apply step.
  induction cs as [|c cs IH]; constructor; [apply go | exact IH].
Qed.

Lemma annotate_tag e : tag (annotate e) = tag e.
Proof. now destruct e. Qed.

Lemma annotate_attrib e : attrib (annotate e) = attrib e.
Proof. now destruct e. Qed.

Lemma annotate_about e : about_of (annotate e) = about_of e.
Proof. unfold about_of. now rewrite annotate_attrib. Qed.

Lemma annotate_children e :
  children (annotate e) =
  if to_annotate e then with_comment e (map annotate (children e))
  else map annotate (children e).
Proof. now destruct e. Qed.

Lemma existsb_list_insert {A} (p : A -> bool) i x l :
  existsb p (list_insert i x l) = p x || existsb p l.
Proof.
  unfold list_insert. rewrite existsb_app. cbn [existsb].
  rewrite <- (firstn_skipn i l) at 3. rewrite existsb_app.
  destruct (existsb p (firstn i l)), (p x), (existsb p (skipn i l)); reflexivity.
Qed.

Lemma existsb_with_comment p d cs :
  existsb p (with_comment d cs) = p (comment_for d) || existsb p cs.
Proof.
  unfold with_comment. destruct (index_of _ _).
  - apply existsb_list_insert.
  - rewrite existsb_app. cbn [existsb]. rewrite orb_false_r. apply orb_comm.
Qed.

Lemma existsb_annotated p cs :
  (forall c, p (annotate c) = p c) ->
  existsb p (map annotate cs) = existsb p cs.
Proof.
  intros Hp. induction cs as [|c cs IH]; [reflexivity|].
  cbn [map existsb]. now rewrite Hp, IH.
Qed.

(** A test on the children of an element that reads only the tag and the
    attributes of a child, and fails on a comment, sees after the run
    what it saw before. *)
Lemma existsb_children_annotate p e :
  (forall c, p (annotate c) = p c) ->
  (forall d, p (comment_for d) = false) ->
  existsb p (children (annotate e)) = existsb p (children e).
Proof.
  intros Hp Hc. rewrite annotate_children.
  destruct (to_annotate e);
    [rewrite existsb_with_comment, Hc|]; now apply existsb_annotated.
Qed.

Lemma has_tag_annotate name c : has_tag name (annotate c) = has_tag name c.
Proof. unfold has_tag. now rewrite annotate_tag. Qed.

Lemma annotate_is_class e : is_class_description (annotate e) = is_class_description e.
Proof.
  unfold is_class_description, has_child. f_equal.
  - apply existsb_children_annotate; [|reflexivity].
    intros c. now rewrite has_tag_annotate, annotate_attrib.
  - apply existsb_children_annotate; [|reflexivity].
    intros c. apply has_tag_annotate.
Qed.

Lemma annotate_has_comment e :
  has_child (qname NS_rdfs "comment") (annotate e) =
  to_annotate e || has_child (qname NS_rdfs "comment") e.
Proof.
  unfold has_child. rewrite annotate_children.
  destruct (to_annotate e); cbn [orb].
  - rewrite existsb_with_comment. reflexivity.
  - apply existsb_annotated. intros c. apply has_tag_annotate.
Qed.

(** What the run leaves is not annotated again. *)
Lemma annotate_done e : to_annotate (annotate e) = false.
Proof.
  unfold to_annotate at 1.
  rewrite has_tag_annotate, annotate_is_class, annotate_about, annotate_has_comment.
  destruct (to_annotate e) eqn:E; cbn [orb negb]; [now rewrite andb_false_r|].
  exact E.
Qed.

Lemma comment_done d : to_annotate (comment_for d) = false.
Proof. reflexivity. Qed.

Lemma annotate_comment d : annotate (comment_for d) = comment_for d.
Proof. reflexivity. Qed.

Lemma map_list_insert {A B} (f : A -> B) i x l :
  map f (list_insert i x l) = list_insert i (f x) (map f l).
Proof.
  unfold list_insert. rewrite map_app. cbn [map].
  now rewrite firstn_map, skipn_map.
Qed.

Lemma map_with_comment d cs :
  map annotate (with_comment d cs) = with_comment d (map annotate cs).
Proof.
  unfold with_comment. destruct (index_of _ _).
  - now rewrite map_list_insert, annotate_comment.
  - rewrite map_app. cbn [map]. now rewrite annotate_comment.
Qed.

Lemma annotate_twice e : annotate (annotate e) = annotate e.
Proof.
  induction e as [t a x cs IH] using element_ind.
  assert (Hcs : map annotate (map annotate cs) = map annotate cs).
  { induction IH as [|c cs Hc _ IHcs]; [reflexivity|]. cbn [map]. now rewrite Hc, IHcs. }
  pose proof (annotate_done (Elem t a x cs)) as Hdone.
  cbn [annotate] in Hdone |- *.
  destruct (to_annotate (Elem t a x cs)).
  - cbn [annotate] in *. rewrite Hdone, map_with_comment, Hcs.
    unfold with_comment. reflexivity.
  - cbn [annotate] in *. now rewrite Hdone, Hcs.
Qed.

Lemma Forall_list_insert {A} (Q : A -> Prop) i x l :
  Q x -> Forall Q l -> Forall Q (list_insert i x l).
Proof.
  intros Hx Hl. unfold list_insert. apply Forall_app. split.
  - now apply Forall_take.
  - constructor; [exact Hx | now apply Forall_drop].
Qed.

Lemma Forall_with_comment (Q : Element -> Prop) d cs :
  Q (comment_for d) -> Forall Q cs -> Forall Q (with_comment d cs).
Proof.
  intros Hc Hcs. unfold with_comment. destruct (index_of _ _).
  - now apply Forall_list_insert.
  - apply Forall_app. split; [exact Hcs | now constructor].
Qed.

Lemma Forall_flat_map_subtree (Q : Element -> Prop) cs :
  Forall (fun c => Forall Q (subtree c)) cs -> Forall Q (flat_map subtree cs).
Proof.
  induction 1 as [|c cs Hc _ IH]; [constructor|].
  cbn [flat_map]. apply Forall_app. now split.
Qed.

(** Nothing in what the run leaves of an element is still to annotate. *)
Lemma annotate_subtree_done e :
  Forall (fun d => to_annotate d = false) (subtree (annotate e)).
Proof.
  induction e as [t a x cs IH] using element_ind.
  pose proof (annotate_done (Elem t a x cs)) as Hdone.
  cbn [annotate] in Hdone |- *. cbn [subtree].
  constructor; [exact Hdone|].
  apply Forall_flat_map_subtree.
  assert (Hcs : Forall (fun c => Forall (fun d => to_annotate d = false) (subtree c))
                       (map annotate cs)).
  { apply Forall_map. exact IH. }
  destruct (to_annotate (Elem t a x cs)); [|exact Hcs].
  apply Forall_with_comment; [|exact Hcs].
  cbn [subtree comment_for flat_map]. constructor; [reflexivity | constructor].
Qed.

Lemma flat_map_list_insert {A B} (f : A -> list B) i x l :
  length (flat_map f (list_insert i x l)) = length (f x) + length (flat_map f l).
Proof.
  unfold list_insert. rewrite flat_map_app. cbn [flat_map].
  rewrite <- (firstn_skipn i l) at 3. rewrite flat_map_app, !length_app. lia.
Qed.

Lemma length_with_comment d cs :
  length (flat_map subtree (with_comment d cs)) = S (length (flat_map subtree cs)).
Proof.
  unfold with_comment. destruct (index_of _ _).
  - rewrite flat_map_list_insert. reflexivity.
  - rewrite flat_map_app, length_app. cbn. lia.
Qed.

(** The size after the run: one element more for each description to
    annotate. *)
Lemma size_annotate e :
  length (subtree (annotate e)) =
  length (subtree e) + length (List.filter to_annotate (subtree e)).
Proof.
  induction e as [t a x cs IH] using element_ind.
  assert (Hcs : length (flat_map subtree (map annotate cs)) =
                length (flat_map subtree cs) +
                length (List.filter to_annotate (flat_map subtree cs))).
  { induction IH as [|c cs Hc _ IHcs]; [reflexivity|].
    cbn [map flat_map]. rewrite List.filter_app, !length_app, Hc, IHcs. lia. }
  cbn [annotate subtree List.filter].
  destruct (to_annotate (Elem t a x cs)); cbn [length].
  - rewrite length_with_comment, Hcs. lia.
  - rewrite Hcs. lia.
Qed.

Lemma filter_filter {A} (p q : A -> bool) l :
  List.filter p (List.filter q l) = List.filter (fun x => q x && p x) l.
Proof.
  induction l as [|x l IH]; [reflexivity|]. cbn [List.filter].
  destruct (q x); cbn [List.filter andb]; [destruct (p x)|]; now rewrite IH.
Qed.

Lemma added_as_filter root :
  added root =
  length (List.filter to_annotate (flat_map subtree (children root))).
Proof.
  unfold added, class_descs, descs. rewrite !filter_filter. f_equal.
  apply List.filter_ext. intros d. unfold to_annotate.
  now rewrite !andb_assoc.
Qed.

(** *** [local_name] *)

Lemma rsplit_once_parts sep s :
  match rsplit_once sep s with
  | Some (before, after) =>
      s = before +:+ String sep after /\ all_chars (is_not sep) after = true
  | None => all_chars (is_not sep) s = true
  end.
Proof.
  induction s as [|c r IH]; [reflexivity|]. cbn [rsplit_once].
  destruct (rsplit_once sep r) as [[before after]|].
  - destruct IH as [-> Hafter]. now split.
  - destruct (Ascii.eqb_spec c sep) as [->|Hne].
    + now split.
    + cbn [all_chars]. unfold is_not at 1. rewrite IH.
      apply Ascii.eqb_neq in Hne. rewrite Ascii.eqb_sym, Hne. reflexivity.
Qed.

Lemma rsplit_once_last sep before after :
  all_chars (is_not sep) after = true ->
  rsplit_once sep (before +:+ String sep after) = Some (before, after).
Proof.
  intros Hafter.
  assert (Hnone : rsplit_once sep after = None).
  { pose proof (rsplit_once_parts sep after) as H.
    destruct (rsplit_once sep after) as [[b a]|]; [|reflexivity].
    destruct H as [-> _]. rewrite all_chars_app in Hafter. cbn [all_chars] in Hafter.
    unfold is_not at 2 in Hafter. rewrite Ascii.eqb_refl in Hafter.
    cbn in Hafter. now rewrite andb_false_r in Hafter. }
  induction before as [|c r IH]; cbn [String.append rsplit_once].
  - now rewrite Hnone, Ascii.eqb_refl.
  - now rewrite IH.
Qed.

Lemma all_chars_rstrip_char P x s :
  all_chars P s = true -> all_chars P (rstrip_char x s) = true.
Proof.
  induction s as [|c r IH]; [reflexivity|]. cbn [all_chars rstrip_char].
  intros [Hc Hr]%andb_true_iff. specialize (IH Hr).
  destruct (rstrip_char x r) as [|c' r'].
  - destruct (Ascii.eqb c x); [reflexivity|]. cbn [all_chars]. now rewrite Hc.
  - cbn [all_chars] in *. now rewrite Hc, IH.
Qed.

Lemma rstrip_char_fixed x base name :
  name <> "" -> all_chars (is_not x) name = true ->
  rstrip_char x (base +:+ name) = base +:+ name.
Proof.
  intros Hne Hname.
  assert (Hn : rstrip_char x name = name).
  { clear Hne. induction name as [|c r IH]; [reflexivity|].
    cbn [all_chars] in Hname. apply andb_true_iff in Hname as [Hc Hr].
    cbn [rstrip_char]. rewrite (IH Hr).
    destruct r; [|reflexivity].
    unfold is_not in Hc. rewrite Ascii.eqb_sym in Hc.
    apply negb_true_iff in Hc. now rewrite Hc. }
  induction base as [|c r IH]; [exact Hn|].
  cbn [String.append rstrip_char]. rewrite IH.
  destruct (r +:+ name) eqn:E; [|reflexivity].
  destruct r; [cbn in E; congruence | discriminate E].
Qed.

Lemma all_chars_after P before sep after :
  all_chars P (before +:+ String sep after) = true -> all_chars P after = true.
Proof.
  rewrite all_chars_app. cbn [all_chars].
  intros [_ [_ H]%andb_true_iff]%andb_true_iff. exact H.
Qed.

Lemma last_part_rsplit1 P sep s :
  all_chars P s = true ->
  all_chars (is_not sep) (last_part (rsplit1 sep s)) = true /\
  all_chars P (last_part (rsplit1 sep s)) = true.
Proof.
  intros HP. unfold rsplit1. pose proof (rsplit_once_parts sep s) as H.
  destruct (rsplit_once sep s) as [[before after]|]; cbn [last_part List.last].
  - destruct H as [-> Hafter]. split; [exact Hafter|].
    now apply (all_chars_after P before sep after).
  - now split.
Qed.

End AnnotatorFacts.

(** ** The annotator *)

Module AnnotatorProperties.
Import Py PyFacts Annotator AnnotatorFacts.

(** X22. A second run of the annotator on the tree the first run wrote
    changes nothing. *)
Theorem annotate_root_idempotent (root : Element) :
  annotate_root (annotate_root root) = annotate_root root.
Proof.
  destruct root as [t a x cs]. cbn [annotate_root]. f_equal.
  induction cs as [|c cs IH]; [reflexivity|].
  cbn [map]. now rewrite annotate_twice, IH.
Qed.

(** X23. In the tree the annotator writes, every class description below
    the root that has an [about] or an [ID] has a comment: a run on it
    would add none. *)
Theorem annotate_root_complete (root : Element) :
  (forall d, In d (class_descs (annotate_root root)) ->
             about_of d <> "" -> has_child (qname NS_rdfs "comment") d = true) /\
  added (annotate_root root) = 0.
Proof.
  assert (Hdone : Forall (fun d => to_annotate d = false)
                         (flat_map subtree (children (annotate_root root)))).
  { destruct root as [t a x cs]. cbn [annotate_root children].
    apply Forall_flat_map_subtree, Forall_map.
    apply Forall_forall. intros c _. apply annotate_subtree_done. }
  split.
  - intros d Hd Habout. unfold class_descs, descs in Hd.
    apply filter_In in Hd as [Hd Hclass]. apply filter_In in Hd as [Hd Htag].
    rewrite Forall_forall in Hdone. specialize (Hdone d ltac:(now apply list_elem_of_In)).
    unfold to_annotate in Hdone. rewrite Htag, Hclass in Hdone.
    apply String.eqb_neq in Habout. rewrite Habout in Hdone. cbn [andb negb] in Hdone.
    now apply negb_false_iff in Hdone.
  - rewrite added_as_filter.
    induction Hdone as [|d ds Hd _ IH]; [reflexivity|].
    cbn [List.filter]. now rewrite Hd.
Qed.

Lemma annotate_root_complete_witness :
  has_child (qname NS_rdfs "comment")
            (annotate (class_description "http://example.org/onto#Deposit" None)) = true.
Proof.
  apply (proj1 (annotate_root_complete
                  (document [class_description "http://example.org/onto#Deposit" None]))).
  - left. reflexivity.
  - discriminate.
Defined.

(** X24. The annotator adds one element for each comment it counts as
    added and removes none; and the three counts it prints add up to the
    number of class descriptions. *)
Theorem annotate_root_counts (root : Element) :
  size (annotate_root root) = size root + added root /\
  length (class_descs root) = added root + skipped_existing root + skipped_no_id root.
Proof.
  split.
  - rewrite added_as_filter. destruct root as [t a x cs].
    unfold size. cbn [annotate_root subtree children length].
    enough (length (flat_map subtree (map annotate cs)) =
            length (flat_map subtree cs) +
            length (List.filter to_annotate (flat_map subtree cs))) as -> by lia.
    induction cs as [|c cs IH]; [reflexivity|].
    cbn [map flat_map]. rewrite List.filter_app, !length_app, size_annotate, IH. lia.
  - unfold added, skipped_existing, skipped_no_id.
    induction (class_descs root) as [|d ds IH]; [reflexivity|].
    cbn [List.filter length].
    destruct (String.eqb (about_of d) ""), (has_child (qname NS_rdfs "comment") d);
      cbn [negb andb length]; lia.
Qed.

(** X26. [local_name] never returns a text with [#] in it, and for a URI
    without [#] it returns a text without [/]. *)
Theorem local_name_separators (uri : string) :
  contains "#" (local_name uri) = false /\
  (contains "#" uri = false -> contains "/" (local_name uri) = false).
Proof.
  unfold local_name. destruct (String.eqb uri ""); [now split|].
  destruct (contains "#" uri) eqn:E.
  - split; [|discriminate]. apply absent_char.
    apply (last_part_rsplit1 (fun _ => true)). clear E.
    induction uri as [|c r IH]; [reflexivity | exact IH].
  - rewrite contains_char in E. apply negb_false_iff in E.
    destruct (last_part_rsplit1 (is_not "#") "/" (rstrip_char "/" uri)
                (all_chars_rstrip_char _ _ _ E)) as [Hslash Hhash].
    split; [now apply absent_char | intros _; now apply absent_char].
Qed.

Lemma local_name_separators_witness :
  contains "/" (local_name "http://example.org/onto/Deposit/") = false.
Proof.
  apply (proj2 (local_name_separators "http://example.org/onto/Deposit/")).
  vm_compute. reflexivity.
Defined.

(** X27. [local_name] gives back the name a URI was made of: the text
    after the last [#], and, for a URI without [#], a name without [/]
    put after a [/]. *)
Theorem local_name_of_uri (base name : string) :
  (all_chars (is_not "#") name = true ->
   local_name (base +:+ "#" +:+ name) = name) /\
  (all_chars (is_not "#") base = true -> all_chars (is_not "#") name = true ->
   all_chars (is_not "/") name = true -> name <> "" ->
   local_name (base +:+ "/" +:+ name) = name).
Proof.
  split.
  - intros Hname. unfold local_name.
    destruct (String.eqb_spec (base +:+ "#" +:+ name) "") as [E|_].
    { destruct base; discriminate E. }
    assert (Hc : contains "#" (base +:+ "#" +:+ name) = true).
    { rewrite contains_char, all_chars_app. cbn [String.append all_chars].
      unfold is_not at 2. rewrite Ascii.eqb_refl. cbn. now rewrite andb_false_r. }
    rewrite Hc. unfold rsplit1.
    change (base +:+ "#" +:+ name) with (base +:+ String "#" name).
    now rewrite (rsplit_once_last "#" base name Hname).
  - intros Hbase Hname Hslash Hne. unfold local_name.
    destruct (String.eqb_spec (base +:+ "/" +:+ name) "") as [E|_].
    { destruct base; discriminate E. }
    assert (Hc : contains "#" (base +:+ "/" +:+ name) = false).
    { apply absent_char. rewrite all_chars_app, Hbase. cbn [String.append all_chars].
      now rewrite Hname. }
    rewrite Hc.
    rewrite <- (append_assoc base "/" name).
    rewrite (rstrip_char_fixed "/" (base +:+ "/") name Hne Hslash).
    rewrite append_assoc. unfold rsplit1.
    change ("/" +:+ name) with (String "/" name).
    now rewrite (rsplit_once_last "/" base name Hslash).
Qed.

Lemma local_name_of_uri_witness :
  local_name ("http://example.org/onto" +:+ "/" +:+ "Deposit") = "Deposit".
Proof.
  apply (proj2 (local_name_of_uri "http://example.org/onto" "Deposit"));
    try reflexivity. discriminate.
Defined.

End AnnotatorProperties.

(** ** What the annotator keeps *)

Module AnnotatorContent.
Import Py PyFacts Annotator AnnotatorFacts AnnotatorNotions.

Lemma with_comment_splits d cs :
  exists cs1 cs2, with_comment d cs = cs1 ++ comment_for d :: cs2 /\ cs = cs1 ++ cs2.
Proof.
  unfold with_comment. destruct (index_of _ _) as [idx|].
  - exists (firstn (idx + 1) cs), (skipn (idx + 1) cs). split; [reflexivity|].
    symmetry. apply firstn_skipn.
  - exists cs, []. split; [reflexivity | now rewrite app_nil_r].
Qed.

Lemma adds_comments_children cs :
  Forall (fun c => adds_comments c (annotate c)) cs ->
  Forall2 adds_comments cs (map annotate cs).
Proof. induction 1; cbn [map]; constructor; assumption. Qed.

Lemma annotate_adds_comments e : adds_comments e (annotate e).
Proof.
  induction e as [t a x cs IH] using element_ind.
  apply adds_comments_children in IH. cbn [annotate].
  destruct (to_annotate (Elem t a x cs)) eqn:E; [|now apply kept].
  destruct (with_comment_splits (Elem t a x cs) (map annotate cs))
    as (cs1 & cs2 & -> & Hcs).
  apply commented; [exact E | now rewrite <- Hcs].
Qed.

(** What the relation keeps of an element, and of the children of an
    element the loop gives no comment. *)
Lemma adds_comments_label e out :
  adds_comments e out ->
  tag out = tag e /\ attrib out = attrib e /\ text out = text e /\
  (to_annotate e = false -> Forall2 adds_comments (children e) (children out)).
Proof.
  intros H. inversion H as [t a x cs cs' Hcs|t a x cs cs1 cs2 He Hcs]; subst;
    cbn [tag attrib text children].
  - repeat split. intros _. exact Hcs.
  - repeat split. intros E. rewrite E in He. discriminate He.
Qed.

(** X25. The annotator adds comments and changes nothing else: in the
    tree it writes every element it read, hand-written comments
    included, has its tag, its attributes, its text and its children in
    their order, and what is new is one comment, the one made for the
    element, among the children of class descriptions that have an
    [about] or an [ID] and had no comment. *)
Theorem annotate_root_adds_comments (root : Element) :
  adds_comments root (annotate_root root).
Proof.
  destruct root as [t a x cs]. cbn [annotate_root]. apply kept.
  apply adds_comments_children, Forall_forall. intros c _. apply annotate_adds_comments.
Qed.

End AnnotatorContent.
